(** * outblog-crawl: credit check, v0 scrape dispatch, v1 crawl kickoff and
      the crawl-status progress streamer.

    A shallow embedding of
      - apps/api/src/lib/withAuth.ts
      - apps/api/src/services/billing/credit_billing.ts
      - apps/api/src/controllers/v0/scrape.ts
      - apps/api/src/controllers/v1/crawl.ts
      - the crawl-status WebSocket controller (crawlStatusWS)
    and the properties of the specification proved over it.

    Conventions.  An [async] function is a computation in the monad [M]:
    it appends the externally visible calls it makes to an effect log and
    either returns a value or throws a JavaScript value.  What an external
    collaborator (queue, Redis, Supabase, the regex engine, ...) answers is
    read from an environment record, one field per call site.  Credits,
    limits and HTTP codes are integer-valued JavaScript numbers, modelled
    as [Z], with sums rounded as doubles are; [Infinity] is added where
    the source uses it. *)

From Stdlib Require Import String Ascii List ZArith QArith Bool Lia.
Import ListNotations.
Local Open Scope string_scope.
Local Open Scope Z_scope.
Local Open Scope list_scope.

Set Implicit Arguments.

(* ===================================================================== *)
(** * JavaScript values used by the controllers *)
(* ===================================================================== *)

Module Js.

(** [s.startsWith(p)] *)
Definition startsWith (s p : string) : bool := String.prefix p s.

(** [s.includes(p)]: [p] occurs at some position of [s]. *)
Fixpoint includes (s p : string) : bool :=
  String.prefix p s ||
  match s with
  | EmptyString => false
  | String _ s' => includes s' p
  end.

(** A string as its UTF-16 code units; used for the one string of the
    program whose characters are inspected beyond ASCII. *)
Definition CodeUnits : Type := list Z.

(** What [String.prototype.trim] strips: the [WhiteSpace] and
    [LineTerminator] code points of ECMAScript, that is TAB, LF, VT, FF,
    CR, SPACE, NO-BREAK SPACE, the other space separators of Unicode
    (U+1680, U+2000 to U+200A, U+202F, U+205F, U+3000), the line and
    paragraph separators U+2028 and U+2029, and U+FEFF.  All of them
    are single code units. *)
Definition is_space (c : Z) : bool :=
  (c =? 0x9) || (c =? 0xA) || (c =? 0xB) || (c =? 0xC) || (c =? 0xD) ||
  (c =? 0x20) || (c =? 0xA0) || (c =? 0x1680) ||
  ((0x2000 <=? c) && (c <=? 0x200A)) ||
  (c =? 0x2028) || (c =? 0x2029) || (c =? 0x202F) || (c =? 0x205F) ||
  (c =? 0x3000) || (c =? 0xFEFF).

Fixpoint trimStart (s : CodeUnits) : CodeUnits :=
  match s with
  | [] => []
  | c :: s' => if is_space c then trimStart s' else s
  end.

(** [s.trim()] *)
Definition trim (s : CodeUnits) : CodeUnits :=
  rev (trimStart (rev (trimStart s))).

(** ** Integer-valued numbers

    A JavaScript number is a double.  The integers of magnitude up to
    [2^53] are doubles; beyond, a double is an integer with a 53-bit
    significand.  Comparisons of doubles are exact; a sum or difference
    is the exact result rounded to the nearest double, ties to the even
    significand.  (An overflow to [Infinity], from [2^1024] on, is not
    represented.) *)

Definition MAX_SAFE_INTEGER : Z := 2 ^ 53 - 1.

(** [Number.isSafeInteger(z)] *)
Definition isSafeInteger (z : Z) : bool :=
  (- MAX_SAFE_INTEGER <=? z) && (z <=? MAX_SAFE_INTEGER).

Definition roundToDouble (z : Z) : Z :=
  let m := Z.abs z in
  if m <? 2 ^ 53 then z
  else
    let e := Z.log2 m - 52 in
    let q := m / 2 ^ e in
    let r := m mod 2 ^ e in
    let half := 2 ^ (e - 1) in
    let q' :=
      if r <? half then q
      else if half <? r then q + 1
      else if Z.even q then q else q + 1 in
    Z.sgn z * (q' * 2 ^ e).

(** [a + b] and [a - b] *)
Definition Number_add (a b : Z) : Z := roundToDouble (a + b).
Definition Number_subtract (a b : Z) : Z := roundToDouble (a - b).

(** Truthiness of an optional boolean ([undefined], [false], [true])
    and of an optional string ([undefined] and [""] are falsy). *)
Definition truthy (b : option bool) : bool :=
  match b with Some true => true | _ => false end.

Definition truthy_str (s : option string) : bool :=
  match s with
  | Some EmptyString => false
  | Some _ => true
  | None => false
  end.

(** [a || b] on optional booleans: [a] when truthy, else [b]. *)
Definition or_else (a b : option bool) : option bool :=
  if truthy a then a else b.

(** [a ?? b] *)
Definition nullish {A} (a : option A) (b : A) : A :=
  match a with Some x => x | None => b end.

(** Numbers that are an integer or [Infinity]. *)
Inductive Num : Type :=
| Fin (z : Z)
| Infinity.

Definition Math_min (a b : Num) : Num :=
  match a, b with
  | Fin x, Fin y => Fin (Z.min x y)
  | Fin x, Infinity => Fin x
  | Infinity, Fin y => Fin y
  | Infinity, Infinity => Infinity
  end.

(** A value that can be thrown.  [ErrorObj zod m] is an [Error] object
    with message [m] ([zod] tells a [ZodError], which extends [Error]);
    [StringVal] is a thrown string; [OtherVal m] is any other value, with
    [m] what [error?.message] reads from it. *)
Inductive Thrown : Type :=
| ErrorObj (zod : bool) (message : string)
| StringVal (s : string)
| OtherVal (message : option string).

Inductive Outcome (A : Type) : Type :=
| Returned (a : A)
| Threw (e : Thrown).
Arguments Threw {A} e.

End Js.
Import Js.

(* ===================================================================== *)
(** * Effectful computations: an effect log with exceptions *)
(* ===================================================================== *)

Section Monad.
Variable E : Type.

Definition M (A : Type) : Type := list E -> Outcome A * list E.

Definition ret {A} (a : A) : M A := fun log => (Returned a, log).

Definition bind {A B} (m : M A) (k : A -> M B) : M B :=
  fun log =>
    match m log with
    | (Returned a, log') => k a log'
    | (Threw e, log') => (Threw e, log')
    end.

Definition throw {A} (e : Thrown) : M A := fun log => (Threw e, log).

(** [try { m } catch (e) { h e }] *)
Definition try_catch {A} (m : M A) (h : Thrown -> M A) : M A :=
  fun log =>
    match m log with
    | (Returned a, log') => (Returned a, log')
    | (Threw e, log') => h e log'
    end.

(** An external call: recorded in the log, in program order. *)
Definition emit (e : E) : M unit := fun log => (Returned tt, log ++ [e]).

(** The answer of an external call that may throw. *)
Definition lift {A} (o : Outcome A) : M A := fun log => (o, log).

Definition when (b : bool) (m : M unit) : M unit :=
  if b then m else ret tt.

Definition run {A} (m : M A) : Outcome A * list E := m [].
End Monad.

Arguments ret {E A} a.
Arguments throw {E A} e.
Arguments lift {E A} o.

Declare Scope eff_scope.
Delimit Scope eff_scope with eff.
Notation "x <- m ;; k" := (bind m (fun x => k))
  (at level 100, m at next level, right associativity) : eff_scope.
Notation "m ;; k" := (bind m (fun _ => k))
  (at level 100, right associativity) : eff_scope.
Local Open Scope eff_scope.

(** A computation that treats the log as a log: what it returns and what
    it appends do not depend on the entries already there, and every
    effect it appends satisfies [P]. *)
Definition tame {E A} (P : E -> bool) (m : M E A) : Prop :=
  forallb P (snd (run m)) = true /\
  forall log, m log = (fst (run m), log ++ snd (run m)).

(* ===================================================================== *)
(** * Shared records (controllers/v1/types) *)
(* ===================================================================== *)

(** Team policy flags; only the two the controllers read. *)
Record TeamFlags : Type := {
  forceZDR : option bool;
  allowZDR : option bool
}.

(** [AuthCreditUsageChunk]: the billing snapshot loaded at authentication. *)
Record AuthCreditUsageChunk : Type := {
  adjusted_credits_used : Z;
  remaining_credits : Z;
  total_credits_sum : option Z;
  sub_id : option string;
  sub_current_period_start : option string;
  sub_current_period_end : option string;
  is_extract : option bool;
  flags : option TeamFlags;
  concurrency : option Z
}.

(** [process.env] *)
Record ProcessEnv : Type := {
  USE_DB_AUTHENTICATION : option string;
  ALLOWED_KEYS : option CodeUnits;
  GCS_FIRE_ENGINE_BUCKET_NAME : option string;
  ENV : option string
}.

Definition useDbAuthentication (env : ProcessEnv) : bool :=
  match USE_DB_AUTHENTICATION env with
  | Some s => String.eqb s "true"
  | None => false
  end.

(** [chunk?.flags?.f] *)
Definition chunk_flag (f : TeamFlags -> option bool)
    (chunk : option AuthCreditUsageChunk) : option bool :=
  match chunk with
  | Some c => match flags c with Some fl => f fl | None => None end
  | None => None
  end.

(** [chunk?.flags ?? null] *)
Definition chunk_flags (chunk : option AuthCreditUsageChunk) : option TeamFlags :=
  match chunk with Some c => flags c | None => None end.

(* ===================================================================== *)
(** * controllers/v1/crawl.ts *)
(* ===================================================================== *)

Module V1Crawl.

(** The request body after [crawlRequestSchema.parse]; the schema gives
    [limit] a number.  Only the fields the controller reads are named. *)
Record ScrapeOptions : Type := {
  skipTlsVerification : option bool
}.

Record CrawlRequest : Type := {
  url : string;
  scrapeOptions : ScrapeOptions;
  includePaths : option (list string);   (* [None]: not an array *)
  excludePaths : option (list string);
  limit : Z;
  delay : option Z;
  maxConcurrency : option Z;
  zeroDataRetention : option bool;
  origin : option string;
  integration : option string;
  webhook : option string
}.

Record Account : Type := {
  remainingCredits : option Z
}.

Record Request : Type := {
  body : CrawlRequest;
  acuc : option AuthCreditUsageChunk;
  account : option Account;
  auth_team_id : string;
  protocol : string;
  host : string
}.

(** [{ ...req.body, url: undefined, scrapeOptions: undefined }], whose
    [limit] is then overwritten with the clamped one. *)
Record CrawlerOptions : Type := {
  co_includePaths : option (list string);
  co_excludePaths : option (list string);
  co_limit : Num;
  co_delay : option Z;
  co_maxConcurrency : option Z;
  co_zeroDataRetention : option bool;
  co_origin : option string;
  co_integration : option string;
  co_webhook : option string
}.

(** The legacy shape kept in the crawl record. *)
Record LegacyCrawlerOptions : Type := {
  lg_includes : option (list string);
  lg_excludes : option (list string);
  lg_limit : Num;
  lg_delay : option Z
}.

Record InternalOptions : Type := {
  disableSmartWaitCache : bool;
  teamId : string;
  saveScrapeResultToGCS : bool;
  io_zeroDataRetention : option bool
}.

Record StoredCrawl : Type := {
  sc_originUrl : string;
  sc_crawlerOptions : LegacyCrawlerOptions;
  sc_scrapeOptions : ScrapeOptions;
  sc_internalOptions : InternalOptions;
  sc_team_id : string;
  sc_createdAt : Z;
  sc_maxConcurrency : option Z;
  sc_zeroDataRetention : option bool;
  sc_robots : option string
}.

Record KickoffJob : Type := {
  job_url : string;
  job_mode : string;
  job_team_id : string;
  job_crawlerOptions : CrawlerOptions;
  job_scrapeOptions : ScrapeOptions;
  job_internalOptions : InternalOptions;
  job_origin : option string;
  job_integration : option string;
  job_crawl_id : string;
  job_webhook : option string;
  job_v1 : bool;
  job_zeroDataRetention : bool
}.

Inductive CrawlResponse : Type :=
| ErrorResponse (error : string)          (* [{success: false, error}] *)
| OkResponse (id : string) (url : string) (* [{success: true, id, url}] *).

Record Response : Type := {
  status : Z;
  json : CrawlResponse
}.

Inductive Effect : Type :=
| LoggerDebug (msg : string)
| LogCrawl (id team : string)
| SaveCrawl (id : string) (sc : StoredCrawl)
| AddScrapeJobToBullMQ (job : KickoffJob) (jobId : string) (priority : Z).

(** What the outside answers during one request.  [RegExp_error x] is
    the message of the [SyntaxError] that [new RegExp(x)] throws, [None]
    when [x] compiles. *)
Record World : Type := {
  env : ProcessEnv;
  uuidv4 : string;
  randomUUID : string;
  Date_now : Z;
  RegExp_error : string -> option string;
  getRobotsTxt : Outcome string;
  getRobotsCrawlDelay : Outcome (option Z)
}.

(** Modelled from the spec: [toLegacyCrawlerOptions] of
    controllers/v1/types is not in the sources at hand.  The spec keeps
    the crawler options in "legacy shape" in the stored crawl and reads
    the clamped [limit] and the user [delay] back from it, so the limit,
    the delay and the two path lists are carried over unchanged. *)
Definition toLegacyCrawlerOptions (x : CrawlerOptions) : LegacyCrawlerOptions :=
  {| lg_includes := co_includePaths x;
     lg_excludes := co_excludePaths x;
     lg_limit := co_limit x;
     lg_delay := co_delay x |}.

(** [for (const x of paths) { try { new RegExp(x) } catch (e) { return ... e.message } }] *)
Fixpoint first_RegExp_error (compile : string -> option string)
    (paths : list string) : option string :=
  match paths with
  | [] => None
  | x :: rest =>
      match compile x with
      | Some message => Some message
      | None => first_RegExp_error compile rest
      end
  end.

(** [Array.isArray(paths)] guards the loop. *)
Definition paths_error (compile : string -> option string)
    (paths : option (list string)) : option string :=
  match paths with
  | Some l => first_RegExp_error compile l
  | None => None
  end.

(** [useDbAuthentication ? req.account?.remainingCredits ?? Infinity : Infinity] *)
Definition remainingCreditsOf (w : World) (req : Request) : Num :=
  if useDbAuthentication (env w) then
    match account req with
    | Some a => match remainingCredits a with
                | Some c => Fin c
                | None => Infinity
                end
    | None => Infinity
    end
  else Infinity.

(** The [maxConcurrency] expression of the crawl record. *)
Definition resolveMaxConcurrency (requested cap : option Z) : option Z :=
  match requested with
  | Some m => match cap with
              | Some c => Some (Z.min m c)
              | None => Some m
              end
  | None => None
  end.

Definition acuc_concurrency (req : Request) : option Z :=
  match acuc req with Some c => concurrency c | None => None end.

(** The [try { robots ... } catch] block: what it leaves in [sc]. *)
Definition fetchRobots (w : World) (sc : StoredCrawl) : M Effect StoredCrawl :=
  let failed := "Failed to get robots.txt (this is probably fine!)" in
  match getRobotsTxt w with
  | Threw _ => emit (LoggerDebug failed) ;; ret sc
  | Returned robots =>
      let sc1 :=
        {| sc_originUrl := sc_originUrl sc;
           sc_crawlerOptions := sc_crawlerOptions sc;
           sc_scrapeOptions := sc_scrapeOptions sc;
           sc_internalOptions := sc_internalOptions sc;
           sc_team_id := sc_team_id sc;
           sc_createdAt := sc_createdAt sc;
           sc_maxConcurrency := sc_maxConcurrency sc;
           sc_zeroDataRetention := sc_zeroDataRetention sc;
           sc_robots := Some robots |} in
      match getRobotsCrawlDelay w with
      | Threw _ => emit (LoggerDebug failed) ;; ret sc1
      | Returned robotsCrawlDelay =>
          let userDelay := lg_delay (sc_crawlerOptions sc1) in
          let noDelay :=
            match userDelay with Some d => d =? 0 | None => true end in
          match robotsCrawlDelay with
          | Some d =>
              if noDelay then
                ret {| sc_originUrl := sc_originUrl sc1;
                       sc_crawlerOptions :=
                         {| lg_includes := lg_includes (sc_crawlerOptions sc1);
                            lg_excludes := lg_excludes (sc_crawlerOptions sc1);
                            lg_limit := lg_limit (sc_crawlerOptions sc1);
                            lg_delay := Some d |};
                       sc_scrapeOptions := sc_scrapeOptions sc1;
                       sc_internalOptions := sc_internalOptions sc1;
                       sc_team_id := sc_team_id sc1;
                       sc_createdAt := sc_createdAt sc1;
                       sc_maxConcurrency := sc_maxConcurrency sc1;
                       sc_zeroDataRetention := sc_zeroDataRetention sc1;
                       sc_robots := sc_robots sc1 |}
              else ret sc1
          | None => ret sc1
          end
      end
  end.

Definition zdrError : string :=
  "Zero data retention is enabled for this team. If you're interested in ZDR, please contact zardam@dubit.live".

(** [req.body.zeroDataRetention && !req.acuc?.flags?.allowZDR] *)
Definition zdrRejected (req : Request) : bool :=
  truthy (zeroDataRetention (body req)) &&
  negb (truthy (chunk_flag allowZDR (acuc req))).

(** The controller.  [crawlRequestSchema.parse] has already produced
    [body req]; the debug lines are logged without their interpolated
    values. *)
Definition crawlController (w : World) (req : Request) : M Effect Response :=
  let b := body req in
  if zdrRejected req then
    ret {| status := 400; json := ErrorResponse zdrError |}
  else
    let zdr := or_else (chunk_flag forceZDR (acuc req)) (zeroDataRetention b) in
    let id := uuidv4 w in
    emit (LoggerDebug ("Crawl " ++ id ++ " starting")%string) ;;
    emit (LogCrawl id (auth_team_id req)) ;;
    let remaining := remainingCreditsOf w req in
    match paths_error (RegExp_error w) (includePaths b) with
    | Some message => ret {| status := 400; json := ErrorResponse message |}
    | None =>
    match paths_error (RegExp_error w) (excludePaths b) with
    | Some message => ret {| status := 400; json := ErrorResponse message |}
    | None =>
      let crawlerOptions :=
        {| co_includePaths := includePaths b;
           co_excludePaths := excludePaths b;
           co_limit := Math_min remaining (Fin (limit b));
           co_delay := delay b;
           co_maxConcurrency := maxConcurrency b;
           co_zeroDataRetention := zeroDataRetention b;
           co_origin := origin b;
           co_integration := integration b;
           co_webhook := webhook b |} in
      emit (LoggerDebug "Determined limit") ;;
      let sc :=
        {| sc_originUrl := url b;
           sc_crawlerOptions := toLegacyCrawlerOptions crawlerOptions;
           sc_scrapeOptions := scrapeOptions b;
           sc_internalOptions :=
             {| disableSmartWaitCache := true;
                teamId := auth_team_id req;
                saveScrapeResultToGCS :=
                  truthy_str (GCS_FIRE_ENGINE_BUCKET_NAME (env w));
                io_zeroDataRetention := zdr |};
           sc_team_id := auth_team_id req;
           sc_createdAt := Date_now w;
           sc_maxConcurrency :=
             resolveMaxConcurrency (maxConcurrency b) (acuc_concurrency req);
           sc_zeroDataRetention := zdr;
           sc_robots := None |} in
      sc' <- fetchRobots w sc ;;
      emit (SaveCrawl id sc') ;;
      emit (AddScrapeJobToBullMQ
              {| job_url := url b;
                 job_mode := "kickoff";
                 job_team_id := auth_team_id req;
                 job_crawlerOptions := crawlerOptions;
                 job_scrapeOptions := sc_scrapeOptions sc';
                 job_internalOptions := sc_internalOptions sc';
                 job_origin := origin b;
                 job_integration := integration b;
                 job_crawl_id := id;
                 job_webhook := webhook b;
                 job_v1 := true;
                 job_zeroDataRetention := truthy zdr |}
              (randomUUID w) 10) ;;
      let proto :=
        match ENV (env w) with
        | Some e => if String.eqb e "local" then protocol req else "https"
        | None => "https"
        end in
      ret {| status := 200;
             json := OkResponse id
               (proto ++ "://" ++ host req ++ "/v1/crawl/" ++ id)%string |}
    end
    end.

(** The crawl records persisted by a run: the [saveCrawl] calls in its log. *)
Fixpoint savedCrawls (log : list Effect) : list (string * StoredCrawl) :=
  match log with
  | [] => []
  | SaveCrawl id sc :: rest => (id, sc) :: savedCrawls rest
  | _ :: rest => savedCrawls rest
  end.

Fixpoint kickoffJobs (log : list Effect) : list (KickoffJob * Z) :=
  match log with
  | [] => []
  | AddScrapeJobToBullMQ job _ priority :: rest =>
      (job, priority) :: kickoffJobs rest
  | _ :: rest => kickoffJobs rest
  end.

(** The entries of both path lists, in the order the controller compiles
    them: [includePaths] first, then [excludePaths]. *)
Definition pathEntries (b : CrawlRequest) : list string :=
  nullish (includePaths b) [] ++ nullish (excludePaths b) [].

(** ** Sample requests *)

Definition unterminatedGroup : string :=
  "Invalid regular expression: /(/: Unterminated group".

(** DB authentication on; the only pattern that does not compile is
    ["("]. *)
Definition sampleCrawlWorld : World :=
  {| env := {| USE_DB_AUTHENTICATION := Some "true";
               ALLOWED_KEYS := None;
               GCS_FIRE_ENGINE_BUCKET_NAME := None;
               ENV := None |};
     uuidv4 := "3f2a";
     randomUUID := "77b1";
     Date_now := 1700000000000;
     RegExp_error :=
       fun x => if String.eqb x "(" then Some unterminatedGroup else None;
     getRobotsTxt := Returned "User-agent: *";
     getRobotsCrawlDelay := Returned None |}.

Definition sampleTeamChunk (fl : option TeamFlags) (cap : option Z)
    : AuthCreditUsageChunk :=
  {| adjusted_credits_used := 450;
     remaining_credits := 50;
     total_credits_sum := Some 500;
     sub_id := None;
     sub_current_period_start := None;
     sub_current_period_end := None;
     is_extract := None;
     flags := fl;
     concurrency := cap |}.

Definition sampleCrawlRequest (include : list string) (zdr : option bool)
    (maxConc cap : option Z) : Request :=
  {| body := {| url := "https://example.com";
                scrapeOptions := {| skipTlsVerification := None |};
                includePaths := Some include;
                excludePaths := Some [];
                limit := 1000;
                delay := None;
                maxConcurrency := maxConc;
                zeroDataRetention := zdr;
                origin := Some "api";
                integration := None;
                webhook := None |};
     acuc := Some (sampleTeamChunk None cap);
     account := Some {| remainingCredits := Some 50 |};
     auth_team_id := "team-1";
     protocol := "http";
     host := "localhost:3002" |}.

(** ** The pieces of an admitted run, named *)

(** [req.acuc?.flags?.forceZDR || req.body.zeroDataRetention] *)
Definition effectiveZDR (req : Request) : option bool :=
  or_else (chunk_flag forceZDR (acuc req)) (zeroDataRetention (body req)).

(** [crawlerOptions] after the limit is clamped. *)
Definition clampedCrawlerOptions (w : World) (req : Request) : CrawlerOptions :=
  {| co_includePaths := includePaths (body req);
     co_excludePaths := excludePaths (body req);
     co_limit := Math_min (remainingCreditsOf w req) (Fin (limit (body req)));
     co_delay := delay (body req);
     co_maxConcurrency := maxConcurrency (body req);
     co_zeroDataRetention := zeroDataRetention (body req);
     co_origin := origin (body req);
     co_integration := integration (body req);
     co_webhook := webhook (body req) |}.

(** [sc] as first built, before the robots block. *)
Definition initialStoredCrawl (w : World) (req : Request) : StoredCrawl :=
  {| sc_originUrl := url (body req);
     sc_crawlerOptions := toLegacyCrawlerOptions (clampedCrawlerOptions w req);
     sc_scrapeOptions := scrapeOptions (body req);
     sc_internalOptions :=
       {| disableSmartWaitCache := true;
          teamId := auth_team_id req;
          saveScrapeResultToGCS :=
            truthy_str (GCS_FIRE_ENGINE_BUCKET_NAME (env w));
          io_zeroDataRetention := effectiveZDR req |};
     sc_team_id := auth_team_id req;
     sc_createdAt := Date_now w;
     sc_maxConcurrency :=
       resolveMaxConcurrency (maxConcurrency (body req)) (acuc_concurrency req);
     sc_zeroDataRetention := effectiveZDR req;
     sc_robots := None |}.

(** The kickoff job enqueued for the saved crawl [sc]. *)
Definition kickoffJobFor (w : World) (req : Request) (sc : StoredCrawl)
    : KickoffJob :=
  {| job_url := url (body req);
     job_mode := "kickoff";
     job_team_id := auth_team_id req;
     job_crawlerOptions := clampedCrawlerOptions w req;
     job_scrapeOptions := sc_scrapeOptions sc;
     job_internalOptions := sc_internalOptions sc;
     job_origin := origin (body req);
     job_integration := integration (body req);
     job_crawl_id := uuidv4 w;
     job_webhook := webhook (body req);
     job_v1 := true;
     job_zeroDataRetention := truthy (effectiveZDR req) |}.

(** The status URL of the answer. *)
Definition statusUrl (w : World) (req : Request) : string :=
  ((match ENV (env w) with
    | Some e => if String.eqb e "local" then protocol req else "https"
    | None => "https"
    end) ++ "://" ++ host req ++ "/v1/crawl/" ++ uuidv4 w)%string.

Definition robotsFailed : string :=
  "Failed to get robots.txt (this is probably fine!)".

(** A user delay that is absent or [0] is no delay. *)
Definition noUserDelay (sc : StoredCrawl) : bool :=
  match lg_delay (sc_crawlerOptions sc) with
  | Some d => d =? 0
  | None => true
  end.

(** A team forced onto zero data retention, and a world whose robots
    file asks for a delay of 3. *)
Definition forcedZdrRequest : Request :=
  {| body := body (sampleCrawlRequest [] None None None);
     acuc := Some (sampleTeamChunk
                     (Some {| forceZDR := Some true; allowZDR := None |}) None);
     account := None;
     auth_team_id := "team-1";
     protocol := "http";
     host := "localhost:3002" |}.

Definition robotsWorld (txt : Outcome string) (crawlDelay : Outcome (option Z))
    : World :=
  {| env := env sampleCrawlWorld;
     uuidv4 := uuidv4 sampleCrawlWorld;
     randomUUID := randomUUID sampleCrawlWorld;
     Date_now := Date_now sampleCrawlWorld;
     RegExp_error := RegExp_error sampleCrawlWorld;
     getRobotsTxt := txt;
     getRobotsCrawlDelay := crawlDelay |}.

End V1Crawl.

(* ===================================================================== *)
(** * The v0 request path: effects and the outside world *)
(* ===================================================================== *)

Module V0.

Inductive NotificationType : Type :=
| APPROACHING_LIMIT
| LIMIT_REACHED.

(** The row [auto_recharge, auto_recharge_threshold] of table [teams],
    also what is cached under [team_auto_recharge_<team_id>]. *)
Record AutoRecharge : Type := {
  auto_recharge : bool;
  auto_recharge_threshold : Z
}.

Record AutoChargeResult : Type := {
  ac_success : bool;
  ac_message : string;
  ac_remainingCredits : Z;
  ac_chunk : AuthCreditUsageChunk
}.

(** The job handed to [addScrapeJob]; the scrape and internal options
    built by [fromLegacyCombo] are opaque to the controller. *)
Record ScrapeJob : Type := {
  job_url : string;
  job_mode : string;
  job_team_id : string;
  job_saveScrapeResultToGCS : bool;
  job_origin : string;
  job_integration : option string;
  job_is_scrape : bool;
  job_zeroDataRetention : bool
}.

(** External calls of the v0 path, in the order they are made. *)
Inductive Effect : Type :=
| LoggerWarn (msg : string)
| LoggerInfo (msg : string)
| LoggerError (msg : string)
| ConsoleError (msg : string)
| SentryCaptureException (e : Thrown)
| WarningCountIncr
| SetValue (key : string) (value : AutoRecharge) (ttl : Z)
| SendNotification (team_id : string) (type : NotificationType)
    (chunk : AuthCreditUsageChunk)
| AutoCharge (chunk : AuthCreditUsageChunk) (threshold : Z)
| QueueBillingOperation (team_id : string) (subscription_id : option string)
    (credits : Z) (is_extract : bool)
| BillTeam (team_id : string) (subscription_id : option string) (credits : Z)
| Sadd (key member : string)
| AddScrapeJob (job : ScrapeJob) (jobId : string) (priority : Z)
| WaitForJob (jobId : string) (timeout : Z)
| RemoveJob (jobId : string).

End V0.

(* ===================================================================== *)
(** * lib/withAuth.ts *)
(* ===================================================================== *)

Module WithAuth.
Import V0.

(** The part of the world [withAuth] reads: the environment and the
    module-level [warningCount], as the call finds it. *)
Record World : Type := {
  env : ProcessEnv;
  warningCount : nat
}.

(** [(process.env.ALLOWED_KEYS ?? "").trim().length > 0] *)
Definition hasAllowedKeys (e : ProcessEnv) : bool :=
  0 <? Z.of_nat (length (trim (nullish (ALLOWED_KEYS e) []))).

Definition bypassed (e : ProcessEnv) : bool :=
  negb (useDbAuthentication e) && negb (hasAllowedKeys e).

(** [withAuth(originalFunction, mockSuccess)(...args)].  Both callers
    pass a [mockSuccess] whose [success] is [true], so
    [{ success: true, ...mockSuccess }] is [mockSuccess]. *)
Definition withAuth {T} (w : World) (originalFunction : M Effect T)
    (mockSuccess : T) : M Effect T :=
  if bypassed (env w) then
    when (Nat.ltb (warningCount w) 5)
      (emit (LoggerWarn "You're bypassing authentication") ;;
       emit WarningCountIncr) ;;
    ret mockSuccess
  else originalFunction.

(** The world as the next call finds it: [warningCount++] has happened
    if this call logged the warning. *)
Definition afterCall (w : World) : World :=
  {| env := env w;
     warningCount :=
       if bypassed (env w) && Nat.ltb (warningCount w) 5
       then S (warningCount w) else warningCount w |}.

End WithAuth.

(* ===================================================================== *)
(** * services/billing/credit_billing.ts *)
(* ===================================================================== *)

Module CreditBilling.
Import V0.

Record CheckTeamCreditsResponse : Type := {
  success : bool;
  message : string;
  remainingCredits : Num;
  chunk : option AuthCreditUsageChunk
}.

Record BillingResponse : Type := {
  bill_success : bool;
  bill_message : string
}.

(** What the outside answers to one credit check or billing call:
    the cache read, the [teams] row (absent when the select fails),
    the recharge attempt and the batch-billing queue. *)
Record World : Type := {
  auth : WithAuth.World;
  getValue : Outcome (option AutoRecharge);
  teamsRow : Outcome (option AutoRecharge);
  autoCharge : Outcome AutoChargeResult;
  queueBillingOperation : Outcome BillingResponse
}.

(** The world after one call that went through [withAuth]. *)
Definition afterWithAuth (w : World) : World :=
  {| auth := WithAuth.afterCall (auth w);
     getValue := getValue w;
     teamsRow := teamsRow w;
     autoCharge := autoCharge w;
     queueBillingOperation := queueBillingOperation w |}.

Definition isPreviewTeam (team_id : string) : bool :=
  String.eqb team_id "preview" ||
  startsWith team_id "preview_" ||
  startsWith team_id "env_".

(** [chunk.total_credits_sum ?? 100000000] *)
Definition totalPriceCredits (c : AuthCreditUsageChunk) : Z :=
  nullish (total_credits_sum c) 100000000.

(** [chunk.adjusted_credits_used / totalPriceCredits], as the exact
    quotient; the source has this quotient rounded to the nearest
    double.  A zero total gives [Infinity], [-Infinity] or [NaN] in the
    source and [0] here; none of them lies in [0.8, 1). *)
Definition creditUsagePercentage (c : AuthCreditUsageChunk) : Q :=
  (inject_Z (adjusted_credits_used c) / inject_Z (totalPriceCredits c))%Q.

(** [x >= 0.8] for the double [x] nearest to [q].  The literal [0.8] is
    the double [7205759403792794 / 2^53]; rounding is monotone and ties
    go to the even significand, which is that of [0.8], so the test
    holds exactly from the midpoint below [0.8] on. *)
Definition atLeast_0_8 (q : Q) : bool :=
  Qle_bool (14411518807585587 # 18014398509481984) q.

(** [x < 1] for the double [x] nearest to [q]: below the midpoint
    [1 - 2^-54] of [1] and the double before it (the tie goes to [1]). *)
Definition below_1 (q : Q) : bool :=
  negb (Qle_bool (18014398509481983 # 18014398509481984) q).

(** [creditUsagePercentage >= 0.8 && creditUsagePercentage < 1] *)
Definition approachingLimit (c : AuthCreditUsageChunk) : bool :=
  atLeast_0_8 (creditUsagePercentage c) && below_1 (creditUsagePercentage c).

Definition upgradeMessage : string :=
  "Insufficient credits to perform this request. For more credits, you can upgrade your plan at https://firecrawl.dev/pricing.".

(** The cached or freshly selected auto-recharge settings:
    [(isAutoRechargeEnabled, autoRechargeThreshold)]. *)
Definition loadAutoRecharge (w : World) (team_id : string)
    : M Effect (bool * Z) :=
  let cacheKey := ("team_auto_recharge_" ++ team_id)%string in
  cachedData <- lift (getValue w) ;;
  match cachedData with
  | Some parsedData =>
      ret (auto_recharge parsedData, auto_recharge_threshold parsedData)
  | None =>
      data <- lift (teamsRow w) ;;
      match data with
      | Some d =>
          emit (SetValue cacheKey d 300) ;;
          ret (auto_recharge d, auto_recharge_threshold d)
      | None => ret (false, 1000)
      end
  end.

Definition supaCheckTeamCredits (w : World)
    (chunk : option AuthCreditUsageChunk) (team_id : string) (credits : Z)
    : M Effect CheckTeamCreditsResponse :=
  if isPreviewTeam team_id then
    ret {| success := true;
           message := "Preview team, no credits used";
           remainingCredits := Infinity;
           chunk := None |}
  else
    match chunk with
    | None => throw (ErrorObj false "NULL ACUC passed to supaCheckTeamCredits")
    | Some c =>
        let creditsWillBeUsed := Number_add (adjusted_credits_used c) credits in
        let total := totalPriceCredits c in
        cfg <- loadAutoRecharge w team_id ;;
        let '(isAutoRechargeEnabled, autoRechargeThreshold) := cfg in
        recharged <-
          (if isAutoRechargeEnabled &&
              (remaining_credits c <? autoRechargeThreshold) &&
              negb (truthy (is_extract c))
           then
             emit (LoggerInfo "Auto-recharge triggered") ;;
             emit (AutoCharge c autoRechargeThreshold) ;;
             autoChargeResult <- lift (autoCharge w) ;;
             if ac_success autoChargeResult
             then ret (Some autoChargeResult)
             else ret None
           else ret None) ;;
        match recharged with
        | Some r =>
            ret {| success := true;
                   message := ac_message r;
                   remainingCredits := Fin (ac_remainingCredits r);
                   chunk := Some (ac_chunk r) |}
        | None =>
            if total <? creditsWillBeUsed then
              when (total <? adjusted_credits_used c)
                (emit (SendNotification team_id LIMIT_REACHED c)) ;;
              ret {| success := false;
                     message := upgradeMessage;
                     remainingCredits := Fin (remaining_credits c);
                     chunk := Some c |}
            else
              when (approachingLimit c)
                (emit (SendNotification team_id APPROACHING_LIMIT c)) ;;
              ret {| success := true;
                     message := "Sufficient credits available";
                     remainingCredits := Fin (remaining_credits c);
                     chunk := Some c |}
        end
    end.

Definition checkTeamCredits (w : World)
    (chunk : option AuthCreditUsageChunk) (team_id : string) (credits : Z)
    : M Effect CheckTeamCreditsResponse :=
  WithAuth.withAuth (auth w)
    (supaCheckTeamCredits w chunk team_id credits)
    {| success := true;
       message := "No DB, bypassed";
       remainingCredits := Infinity;
       chunk := None |}.

(** [billTeam]: under [withAuth], queue the billing operation. *)
Definition billTeam (w : World) (team_id : string)
    (subscription_id : option string) (credits : Z) (is_extract : bool)
    : M Effect BillingResponse :=
  WithAuth.withAuth (auth w)
    (emit (QueueBillingOperation team_id subscription_id credits is_extract) ;;
     lift (queueBillingOperation w))
    {| bill_success := true; bill_message := "No DB, bypassed." |}.

(** The notifications a run sent. *)
Fixpoint notifications (log : list Effect) : list NotificationType :=
  match log with
  | [] => []
  | SendNotification _ type _ :: rest => type :: notifications rest
  | _ :: rest => notifications rest
  end.


(** ** Sample checks *)

Definition sampleBillingWorld : World :=
  {| auth := {| WithAuth.env :=
                  {| USE_DB_AUTHENTICATION := Some "true";
                     ALLOWED_KEYS := None;
                     GCS_FIRE_ENGINE_BUCKET_NAME := None;
                     ENV := None |};
                WithAuth.warningCount := 0 |};
     getValue := Returned (Some {| auto_recharge := false;
                                   auto_recharge_threshold := 1000 |});
     teamsRow := Returned None;
     autoCharge := Threw (ErrorObj false "auto charge is off");
     queueBillingOperation :=
       Returned {| bill_success := true; bill_message := "queued" |} |}.

Definition sampleChunk (used total : Z) : AuthCreditUsageChunk :=
  {| adjusted_credits_used := used;
     remaining_credits := total - used;
     total_credits_sum := Some total;
     sub_id := Some "sub_1";
     sub_current_period_start := None;
     sub_current_period_end := None;
     is_extract := None;
     flags := None;
     concurrency := None |}.

(** ** The rest of credit_billing.ts *)

(** [supaBillTeam]: deprecated, forwards to the batch-billing queue and
    answers success without waiting for it. *)
Definition supaBillTeam (w : World) (team_id : string)
    (subscription_id : option string) (credits : Z) (is_extract : bool)
    : M Effect BillingResponse :=
  emit (LoggerWarn "supaBillTeam was called directly. This function is deprecated and should only be called from batch_billing.ts") ;;
  try_catch
    (emit (QueueBillingOperation team_id subscription_id credits is_extract) ;;
     lift (queueBillingOperation w) ;;
     ret tt)
    (fun err =>
       emit (LoggerError "Error queuing billing operation") ;;
       emit (SentryCaptureException err)) ;;
  ret {| bill_success := true; bill_message := "Billing operation queued" |}.

Definition FREE_CREDITS : Z := 500.

Record Subscription : Type := {
  subscription_id : string;
  price_id : string;
  current_period_start : string;
  current_period_end : string
}.

(** What Supabase answers to the queries of
    [countCreditsAndRemainingForCurrentBillingPeriod]: each is the
    selected data, [None] when the query reports an error or no data.
    [creditUsagesFree] are the rows without a subscription,
    [creditUsagesPeriod] those of the subscription's current period. *)
Record Ledger : Type := {
  subscription : option Subscription;
  coupons : option (list Z);
  creditUsagesFree : option (list Z);
  creditUsagesPeriod : option (list Z);
  priceCredits : option Z
}.

Record CreditsCount : Type := {
  totalCreditsUsed : Z;
  cc_remainingCredits : Z;
  totalCredits : Z
}.

(** [rows.reduce((acc, x) => acc + x, 0)] *)
Definition reduceSum (rows : list Z) : Z := fold_left Number_add rows 0.

(** [couponCredits]: the sum over the active coupons, [0] when there
    are none. *)
Definition couponCredits (l : Ledger) : Z :=
  match coupons l with
  | Some (c :: rest) => reduceSum (c :: rest)
  | _ => 0
  end.

Definition countCreditsAndRemainingForCurrentBillingPeriod (l : Ledger)
    (team_id : string) : Outcome CreditsCount :=
  match subscription l with
  | None =>
      match creditUsagesFree l with
      | None =>
          Threw (ErrorObj false
            ("Failed to retrieve credit usage for team_id: " ++ team_id)%string)
      | Some creditUsages =>
          let used := reduceSum creditUsages in
          Returned {| totalCreditsUsed := used;
                      cc_remainingCredits :=
                        Number_subtract
                          (Number_add FREE_CREDITS (couponCredits l)) used;
                      totalCredits := Number_add FREE_CREDITS (couponCredits l) |}
      end
  | Some sub =>
      match creditUsagesPeriod l with
      | None =>
          Threw (ErrorObj false
            ("Failed to retrieve credit usage for subscription_id: "
             ++ subscription_id sub)%string)
      | Some creditUsages =>
          let used := reduceSum creditUsages in
          match priceCredits l with
          | None =>
              Threw (ErrorObj false
                ("Failed to retrieve price for price_id: " ++ price_id sub)%string)
          | Some price =>
              Returned {| totalCreditsUsed := used;
                          cc_remainingCredits :=
                            Number_subtract
                              (Number_add price (couponCredits l)) used;
                          totalCredits := price |}
          end
      end
  end.

(** A subscribed team with two coupons that used more than it had. *)
Definition sampleLedger : Ledger :=
  {| subscription :=
       Some {| subscription_id := "sub_1"; price_id := "price_1";
               current_period_start := "2025-01-01";
               current_period_end := "2025-02-01" |};
     coupons := Some [100; 50];
     creditUsagesFree := None;
     creditUsagesPeriod := Some [2000; 1200];
     priceCredits := Some 3000 |}.

(** The operations a run handed to the batch-billing queue, and its
    recharge attempts. *)
Fixpoint queuedOperations (log : list Effect)
    : list (string * option string * Z * bool) :=
  match log with
  | [] => []
  | QueueBillingOperation team_id sub credits is_extract :: rest =>
      (team_id, sub, credits, is_extract) :: queuedOperations rest
  | _ :: rest => queuedOperations rest
  end.

Fixpoint autoCharges (log : list Effect) : list (AuthCreditUsageChunk * Z) :=
  match log with
  | [] => []
  | AutoCharge c threshold :: rest => (c, threshold) :: autoCharges rest
  | _ :: rest => autoCharges rest
  end.

(** The effects a credit check can have. *)
Definition isCheckEffect (e : Effect) : bool :=
  match e with
  | LoggerWarn _ | LoggerInfo _ | WarningCountIncr | SetValue _ _ _
  | SendNotification _ _ _ | AutoCharge _ _ => true
  | _ => false
  end.

(** A team on auto-recharge that has run low, and a recharge that
    succeeds. *)
Definition rechargingWorld (recharged : AuthCreditUsageChunk) : World :=
  {| auth := auth sampleBillingWorld;
     getValue := Returned None;
     teamsRow := Returned (Some {| auto_recharge := true;
                                   auto_recharge_threshold := 1000 |});
     autoCharge := Returned {| ac_success := true;
                               ac_message := "Auto-recharge successful";
                               ac_remainingCredits := 1000;
                               ac_chunk := recharged |};
     queueBillingOperation :=
       Threw (ErrorObj false "queue is down") |}.

(** No DB authentication and no allow-list: the bypass of [withAuth]. *)
Definition bypassWorld (warnings : nat) : World :=
  {| auth := {| WithAuth.env :=
                  {| USE_DB_AUTHENTICATION := None;
                     ALLOWED_KEYS := Some [0x20; 0xA0];
                     GCS_FIRE_ENGINE_BUCKET_NAME := None;
                     ENV := None |};
                WithAuth.warningCount := warnings |};
     getValue := Threw (ErrorObj false "no redis");
     teamsRow := Threw (ErrorObj false "no database");
     autoCharge := Threw (ErrorObj false "no database");
     queueBillingOperation := Threw (ErrorObj false "no database") |}.

End CreditBilling.

(* ===================================================================== *)
(** * controllers/v0/scrape.ts *)
(* ===================================================================== *)

Module V0Scrape.
Import V0.

(** [pageOptions] and [extractorOptions] of the request body: a field is
    [None] when the body does not carry it. *)
Record PageOptions : Type := {
  includeRawHtml : option bool;
  includeHtml : option bool;
  includeMarkdown : option bool;
  includeExtract : option bool;
  onlyMainContent : option bool
}.

(** What [typeof extractionSchema] and the [null] test can tell apart. *)
Inductive SchemaKind : Type :=
| SchemaUndefined
| SchemaNull
| SchemaObject
| SchemaOther.

Record ExtractorOptions : Type := {
  mode : string;
  extractionSchema : SchemaKind
}.

Record BodyExtractorOptions : Type := {
  body_mode : option string;
  body_extractionSchema : option SchemaKind
}.

Record Body : Type := {
  url : option string;
  pageOptions : option PageOptions;
  extractorOptions : option BodyExtractorOptions;
  origin : option string;
  integration : option string;
  timeout : option Z
}.

(** lib/default-values *)
Record Defaults : Type := {
  defaultPageOptions : PageOptions;
  defaultExtractorOptions : ExtractorOptions;
  defaultTimeout : Z;
  defaultOrigin : string
}.

(** The worker's document, and its legacy shape; [rest] stands for the
    fields the controller never touches. *)
Record Document : Type := {
  index : option Z;
  provider : option string;
  rawHtml : option string;
  html : option string;
  markdown : option string;
  rest : string
}.

Record V0Document : Type := {
  v0_rawHtml : option string;
  v0_markdown : option string;
  v0_content : string
}.

(** The result of [scrapeHelper]. *)
Record ScrapeResult : Type := {
  success : bool;
  error : option string;
  data : option V0Document;
  returnCode : Z
}.

Inductive ResponseBody : Type :=
| ErrorBody (error : string)       (* [{ error }] *)
| ResultBody (result : ScrapeResult).

Record Response : Type := {
  status : Z;
  json : ResponseBody
}.

Inductive AuthResult : Type :=
| AuthFailure (status : Z) (error : string)
| AuthSuccess (team_id : string) (chunk : option AuthCreditUsageChunk).

(** What the outside answers during one request. *)
Record World : Type := {
  billing : CreditBilling.World;
  defaults : Defaults;
  authenticateUser : Outcome AuthResult;
  uuidv4 : string;
  (** [urlSchema.parse]: the normalised URL ([None] if it is not a
      string), or the [ZodError] thrown on invalid input. *)
  urlSchema_parse : option string -> Outcome (option string);
  isUrlBlocked : string -> option TeamFlags -> bool;
  getJobPriority : Outcome Z;
  addScrapeJob : Outcome unit;
  waitForJob : Outcome (option Document);
  toLegacyDocument : Document -> V0Document;
  (** lib/strings *)
  BLOCKLISTED_URL_MESSAGE : string
}.

Definition env (w : World) : ProcessEnv :=
  WithAuth.env (CreditBilling.auth (billing w)).

(** [{ ...defaults, ...overrides }], field by field. *)
Definition over {A} (d o : option A) : option A :=
  match o with Some v => Some v | None => d end.

Definition mergePageOptions (d : PageOptions) (o : option PageOptions)
    : PageOptions :=
  match o with
  | None => d
  | Some p =>
      {| includeRawHtml := over (includeRawHtml d) (includeRawHtml p);
         includeHtml := over (includeHtml d) (includeHtml p);
         includeMarkdown := over (includeMarkdown d) (includeMarkdown p);
         includeExtract := over (includeExtract d) (includeExtract p);
         onlyMainContent := over (onlyMainContent d) (onlyMainContent p) |}
  end.

Definition mergeExtractorOptions (d : ExtractorOptions)
    (o : option BodyExtractorOptions) : ExtractorOptions :=
  match o with
  | None => d
  | Some e =>
      {| mode := nullish (body_mode e) (mode d);
         extractionSchema :=
           nullish (body_extractionSchema e) (extractionSchema d) |}
  end.

(** The [catch] clause around [waitForJob]. *)
Definition isTimeoutError (e : Thrown) : bool :=
  match e with
  | ErrorObj _ message =>
      startsWith message "Job wait" || String.eqb message "timeout"
  | _ => false
  end.

Definition llmErrorSubstrings : list string :=
  [ "Error generating completions: ";
    "Invalid schema for function";
    "LLM extraction did not match the extraction schema you provided." ].

Definition isLlmError (e : Thrown) : bool :=
  match e with
  | StringVal s => existsb (includes s) llmErrorSubstrings
  | _ => false
  end.

Definition thrownString (e : Thrown) : string :=
  match e with
  | StringVal s => s
  | ErrorObj _ m => m
  | OtherVal m => nullish m ""
  end.

(** The span callback: [Some result] is the early result [err], [None]
    is [null] with [doc] assigned. *)
Definition waitSpan (w : World) (jobId : string) (timeout : Z)
    : M Effect (ScrapeResult + option Document) :=
  emit (WaitForJob jobId timeout) ;;
  try_catch
    (doc <- lift (waitForJob w) ;; ret (inr doc))
    (fun e =>
       if isTimeoutError e then
         ret (inl {| success := false;
                     error := Some "Request timed out";
                     data := None;
                     returnCode := 408 |})
       else if isLlmError e then
         ret (inl {| success := false;
                     error := Some (thrownString e);
                     data := None;
                     returnCode := 500 |})
       else throw e).

(** [delete doc.index; delete doc.provider] and the two guarded deletes. *)
Definition stripDocument (pageOptions : PageOptions)
    (extractorOptions : ExtractorOptions) (doc : Document) : Document :=
  {| index := None;
     provider := None;
     rawHtml :=
       if negb (truthy (includeRawHtml pageOptions)) &&
          String.eqb (mode extractorOptions) "llm-extraction-from-raw-html" &&
          truthy_str (rawHtml doc)
       then None else rawHtml doc;
     html :=
       if negb (truthy (includeHtml pageOptions)) && truthy_str (html doc)
       then None else html doc;
     markdown := markdown doc;
     rest := rest doc |}.

Definition scrapeHelper (w : World) (jobId : string) (body : Body)
    (team_id : string) (pageOptions : PageOptions)
    (extractorOptions : ExtractorOptions) (timeout : Z)
    (flags : option TeamFlags) : M Effect ScrapeResult :=
  parsed <- lift (urlSchema_parse w (url body)) ;;
  match parsed with
  | None =>
      ret {| success := false; error := Some "Url is required";
             data := None; returnCode := 400 |}
  | Some url =>
      if isUrlBlocked w url flags then
        ret {| success := false; error := Some (BLOCKLISTED_URL_MESSAGE w);
               data := None; returnCode := 403 |}
      else
        jobPriority <- lift (getJobPriority w) ;;
        emit (AddScrapeJob
                {| job_url := url;
                   job_mode := "single_urls";
                   job_team_id := team_id;
                   job_saveScrapeResultToGCS :=
                     truthy_str (GCS_FIRE_ENGINE_BUCKET_NAME (env w));
                   job_origin := nullish (origin body) (defaultOrigin (defaults w));
                   job_integration := integration body;
                   job_is_scrape := true;
                   job_zeroDataRetention := false |}
                jobId jobPriority) ;;
        lift (addScrapeJob w) ;;
        err <- waitSpan w jobId timeout ;;
        match err with
        | inl result => ret result
        | inr doc =>
            emit (RemoveJob jobId) ;;
            match doc with
            | None =>
                emit (ConsoleError "!!! PANIC DOC IS") ;;
                ret {| success := true; error := Some "No page found";
                       data := None; returnCode := 200 |}
            | Some d =>
                ret {| success := true; error := None;
                       data := Some (toLegacyDocument w
                                 (stripDocument pageOptions extractorOptions d));
                       returnCode := 200 |}
            end
        end
  end.

(** The arguments the controller hands to [scrapeHelper] once the
    request is admitted. *)
Record AdmittedRequest : Type := {
  adm_team_id : string;
  adm_chunk : option AuthCreditUsageChunk;
  adm_pageOptions : PageOptions;
  adm_extractorOptions : ExtractorOptions;
  adm_timeout : Z;
  adm_jobId : string
}.

Definition isLlmExtraction (e : ExtractorOptions) : bool :=
  includes (mode e) "llm-extraction".

Definition schemaIsObject (k : SchemaKind) : bool :=
  match k with SchemaObject => true | _ => false end.

(** The controller up to the call of [scrapeHelper]: either an early
    response or the admitted request. *)
Definition admission (w : World) (body : Body) : M Effect (Response + AdmittedRequest) :=
  auth <- lift (authenticateUser w) ;;
  match auth with
  | AuthFailure status error =>
      ret (inl {| status := status; json := ErrorBody error |})
  | AuthSuccess team_id chunk =>
      if truthy (chunk_flag forceZDR chunk) then
        ret (inl {| status := 400;
                    json := ErrorBody "Your team has zero data retention enabled. This is not supported on the v0 API. Please update your code to use the v1 API." |})
      else
        emit (Sadd "teams_using_v0" team_id) ;;
        let pageOptions :=
          mergePageOptions (defaultPageOptions (defaults w)) (pageOptions body) in
        let extractorOptions :=
          mergeExtractorOptions (defaultExtractorOptions (defaults w))
            (extractorOptions body) in
        let llm := isLlmExtraction extractorOptions in
        if llm && negb (schemaIsObject (extractionSchema extractorOptions)) then
          ret (inl {| status := 400;
                      json := ErrorBody "extractorOptions.extractionSchema must be an object if llm-extraction mode is specified" |})
        else
          let pageOptions :=
            if llm then
              {| includeRawHtml := includeRawHtml pageOptions;
                 includeHtml := includeHtml pageOptions;
                 includeMarkdown := includeMarkdown pageOptions;
                 includeExtract := includeExtract pageOptions;
                 onlyMainContent := Some true |}
            else pageOptions in
          let timeout :=
            nullish (timeout body)
              (if llm then 90000 else defaultTimeout (defaults w)) in
          checked <-
            try_catch
              (r <- CreditBilling.checkTeamCredits (billing w) chunk team_id 1 ;;
               if CreditBilling.success r then ret None
               else
                 ret (Some {| status := 402;
                              json := ErrorBody "Insufficient credits. For more credits, you can upgrade your plan at https://firecrawl.dev/pricing" |}))
              (fun error =>
                 emit (LoggerError (thrownString error)) ;;
                 ret (Some {| status := 500;
                              json := ErrorBody "Error checking team credits. Please contact zardam@dubit.live for help." |})) ;;
          match checked with
          | Some response => ret (inl response)
          | None =>
              ret (inr {| adm_team_id := team_id;
                          adm_chunk := chunk;
                          adm_pageOptions := pageOptions;
                          adm_extractorOptions := extractorOptions;
                          adm_timeout := timeout;
                          adm_jobId := uuidv4 w |})
          end
  end.

(** [creditsToBeBilled] *)
Definition creditsToBeBilled (e : ExtractorOptions) : Z :=
  let creditsPerLLMExtract := 4 in
  if isLlmExtraction e then 1 + creditsPerLLMExtract else 1.

(** The deletes the controller applies to [result.data] before it
    answers. *)
Definition stripResult (pageOptions : PageOptions) (doc : V0Document)
    : V0Document :=
  let doc1 :=
    if negb (truthy (includeRawHtml pageOptions)) && truthy_str (v0_rawHtml doc)
    then {| v0_rawHtml := None; v0_markdown := v0_markdown doc;
            v0_content := v0_content doc |}
    else doc in
  if truthy (includeExtract pageOptions) &&
     negb (truthy (includeMarkdown pageOptions)) &&
     truthy_str (v0_markdown doc1)
  then {| v0_rawHtml := v0_rawHtml doc1; v0_markdown := None;
          v0_content := v0_content doc1 |}
  else doc1.

(** The message of the outer [catch]. *)
Definition errorMessage (e : Thrown) : string :=
  match e with
  | ErrorObj true _ => "Invalid URL"
  | ErrorObj false message => message
  | StringVal s => s
  | OtherVal message => nullish message "Internal Server Error"
  end.

(** The controller from the call of [scrapeHelper] on.  [earlyReturn] is
    [false] here: every path that sets it has already answered.
    [numTokens] is computed and never read; [numTokensFromString] is
    taken to return.  The log line of a failed billing call is cut
    before the interpolated team and amount.  [billTeam] is the second
    call of the request that goes through [withAuth], after the credit
    check of the admission, and finds [warningCount] as that call left
    it. *)
Definition dispatch (w : World) (body : Body) (a : AdmittedRequest)
    : M Effect (option Response) :=
  let earlyReturn := false in
  result <- scrapeHelper w (adm_jobId a) body (adm_team_id a)
              (adm_pageOptions a) (adm_extractorOptions a) (adm_timeout a)
              (chunk_flags (adm_chunk a)) ;;
  let credits := creditsToBeBilled (adm_extractorOptions a) in
  let sub := match adm_chunk a with Some c => sub_id c | None => None end in
  let respond :=
    ret (Some {| status := returnCode result;
                 json := ResultBody
                   {| success := success result;
                      error := error result;
                      data := option_map (stripResult (adm_pageOptions a))
                                (data result);
                      returnCode := returnCode result |} |}) in
  if success result then
    if earlyReturn then ret None
    else
      when (0 <? credits)
        (emit (BillTeam (adm_team_id a) sub credits) ;;
         try_catch
           (CreditBilling.billTeam (CreditBilling.afterWithAuth (billing w))
              (adm_team_id a) sub credits false ;;
            ret tt)
           (fun error =>
              emit (LoggerError "Failed to bill team"))) ;;
      respond
  else respond.

Definition scrapeController (w : World) (body : Body)
    : M Effect (option Response) :=
  try_catch
    (a <- admission w body ;;
     match a with
     | inl response => ret (Some response)
     | inr admitted => dispatch w body admitted
     end)
    (fun error =>
       emit (SentryCaptureException error) ;;
       emit (LoggerError "Scrape error occcurred") ;;
       ret (Some {| status := 500; json := ErrorBody (errorMessage error) |})).

(** The [billTeam] calls of a run, with their credits. *)
Fixpoint billTeamCalls (log : list Effect) : list (string * option string * Z) :=
  match log with
  | [] => []
  | BillTeam team_id sub credits :: rest =>
      (team_id, sub, credits) :: billTeamCalls rest
  | _ :: rest => billTeamCalls rest
  end.

(** The job [scrapeHelper] enqueues. *)
Definition enqueued (w : World) (jobId : string) (body : Body)
    (team_id u : string) (priority : Z) : Effect :=
  AddScrapeJob
    {| job_url := u;
       job_mode := "single_urls";
       job_team_id := team_id;
       job_saveScrapeResultToGCS :=
         truthy_str (GCS_FIRE_ENGINE_BUCKET_NAME (env w));
       job_origin := nullish (origin body) (defaultOrigin (defaults w));
       job_integration := integration body;
       job_is_scrape := true;
       job_zeroDataRetention := false |}
    jobId priority.

(** What the controller answers for a result of [scrapeHelper]. *)
Definition respondWith (a : AdmittedRequest) (result : ScrapeResult) : Response :=
  {| status := returnCode result;
     json := ResultBody
       {| success := success result;
          error := error result;
          data := option_map (stripResult (adm_pageOptions a)) (data result);
          returnCode := returnCode result |} |}.

(** A computation that calls [billTeam] nowhere: it only extends the
    log, by effects other than [BillTeam]. *)
Definition noBilling {A} (m : M Effect A) : Prop :=
  forall log o log',
    m log = (o, log') ->
    exists extra, log' = log ++ extra /\ billTeamCalls extra = [].

(** The outcome of [scrapeHelper] in a run of the controller, with the
    admitted request it was called for; [None] when the controller
    answers before calling it. *)
Definition helperOutcome (w : World) (body : Body)
    : option (AdmittedRequest * Outcome ScrapeResult) :=
  match run (admission w body) with
  | (Returned (inr a), log) =>
      Some (a, fst (scrapeHelper w (adm_jobId a) body (adm_team_id a)
                      (adm_pageOptions a) (adm_extractorOptions a)
                      (adm_timeout a) (chunk_flags (adm_chunk a)) log))
  | _ => None
  end.

(** [chunk?.sub_id] *)
Definition adm_sub_id (a : AdmittedRequest) : option string :=
  match adm_chunk a with Some c => sub_id c | None => None end.

(** The same world with another answer of the batch-billing queue. *)
Definition withQueueBillingOperation
    (o : Outcome CreditBilling.BillingResponse) (w : World) : World :=
  {| billing :=
       {| CreditBilling.auth := CreditBilling.auth (billing w);
          CreditBilling.getValue := CreditBilling.getValue (billing w);
          CreditBilling.teamsRow := CreditBilling.teamsRow (billing w);
          CreditBilling.autoCharge := CreditBilling.autoCharge (billing w);
          CreditBilling.queueBillingOperation := o |};
     defaults := defaults w;
     authenticateUser := authenticateUser w;
     uuidv4 := uuidv4 w;
     urlSchema_parse := urlSchema_parse w;
     isUrlBlocked := isUrlBlocked w;
     getJobPriority := getJobPriority w;
     addScrapeJob := addScrapeJob w;
     waitForJob := waitForJob w;
     toLegacyDocument := toLegacyDocument w;
     BLOCKLISTED_URL_MESSAGE := BLOCKLISTED_URL_MESSAGE w |}.

(** ** Sample requests *)

Definition sampleDefaults : Defaults :=
  {| defaultPageOptions :=
       {| includeRawHtml := Some false;
          includeHtml := Some false;
          includeMarkdown := Some true;
          includeExtract := Some false;
          onlyMainContent := Some false |};
     defaultExtractorOptions :=
       {| mode := "markdown"; extractionSchema := SchemaUndefined |};
     defaultTimeout := 60000;
     defaultOrigin := "api" |}.

(** A team with credits left; [urlSchema.parse] accepts the strings that
    start with ["http"] and throws a [ZodError] on anything else. *)
Definition sampleScrapeWorld (wait : Outcome (option Document)) : World :=
  {| billing := CreditBilling.sampleBillingWorld;
     defaults := sampleDefaults;
     authenticateUser :=
       Returned (AuthSuccess "team-1"
                   (Some (CreditBilling.sampleChunk 100 500)));
     uuidv4 := "9c4e";
     urlSchema_parse :=
       fun u =>
         match u with
         | Some s =>
             if startsWith s "http" then Returned (Some s)
             else Threw (ErrorObj true "Invalid url")
         | None => Threw (ErrorObj true "Required")
         end;
     isUrlBlocked := fun _ _ => false;
     getJobPriority := Returned 10;
     addScrapeJob := Returned tt;
     waitForJob := wait;
     toLegacyDocument :=
       fun d => {| v0_rawHtml := rawHtml d;
                   v0_markdown := markdown d;
                   v0_content := rest d |};
     BLOCKLISTED_URL_MESSAGE := "URL is blocked" |}.

Definition sampleBody (u : string) (e : option BodyExtractorOptions) : Body :=
  {| url := Some u;
     pageOptions := None;
     extractorOptions := e;
     origin := None;
     integration := None;
     timeout := Some 100 |}.

Definition sampleDocument : Document :=
  {| index := Some 0;
     provider := Some "fetch";
     rawHtml := Some "<html></html>";
     html := None;
     markdown := Some "# Title";
     rest := "metadata" |}.

Definition shortLlmMessage : string :=
  "LLM extraction did not match the extraction schema".

(** ** What a run did to the scrape queue *)

Fixpoint scrapeJobs (log : list Effect) : list (ScrapeJob * string * Z) :=
  match log with
  | [] => []
  | AddScrapeJob job jobId priority :: rest =>
      (job, jobId, priority) :: scrapeJobs rest
  | _ :: rest => scrapeJobs rest
  end.

Fixpoint waits (log : list Effect) : list (string * Z) :=
  match log with
  | [] => []
  | WaitForJob jobId timeout :: rest => (jobId, timeout) :: waits rest
  | _ :: rest => waits rest
  end.

Fixpoint removedJobs (log : list Effect) : list string :=
  match log with
  | [] => []
  | RemoveJob jobId :: rest => jobId :: removedJobs rest
  | _ :: rest => removedJobs rest
  end.

(** Calls on the scrape queue, and calls that bill. *)
Definition isQueueEffect (e : Effect) : bool :=
  match e with
  | AddScrapeJob _ _ _ | WaitForJob _ _ | RemoveJob _ => true
  | _ => false
  end.

Definition isBillingEffect (e : Effect) : bool :=
  match e with
  | BillTeam _ _ _ | QueueBillingOperation _ _ _ _ => true
  | _ => false
  end.

(** The effects of the controller before it calls [scrapeHelper]. *)
Definition isAdmissionEffect (e : Effect) : bool :=
  match e with
  | Sadd _ _ | LoggerError _ => true
  | _ => CreditBilling.isCheckEffect e
  end.

(** The page and extractor options after the merge with the defaults,
    and the timeout the controller settles on. *)
Definition mergedPageOptions (w : World) (body : Body) : PageOptions :=
  mergePageOptions (defaultPageOptions (defaults w)) (pageOptions body).

Definition mergedExtractorOptions (w : World) (body : Body) : ExtractorOptions :=
  mergeExtractorOptions (defaultExtractorOptions (defaults w))
    (extractorOptions body).

Definition effectiveTimeout (w : World) (body : Body) : Z :=
  nullish (timeout body)
    (if isLlmExtraction (mergedExtractorOptions w body)
     then 90000 else defaultTimeout (defaults w)).

Definition forceZDRMessage : string :=
  "Your team has zero data retention enabled. This is not supported on the v0 API. Please update your code to use the v1 API.".

Definition schemaMessage : string :=
  "extractorOptions.extractionSchema must be an object if llm-extraction mode is specified".

Definition insufficientCreditsMessage : string :=
  "Insufficient credits. For more credits, you can upgrade your plan at https://firecrawl.dev/pricing".

Definition creditCheckErrorMessage : string :=
  "Error checking team credits. Please contact zardam@dubit.live for help.".

(** The effects of [scrapeHelper]. *)
Definition isHelperEffect (e : Effect) : bool :=
  match e with
  | ConsoleError _ => true
  | _ => isQueueEffect e
  end.

(** What a detached [billTeam] call leaves in the log. *)
Definition billTeamLog (w : World) (team_id : string) (sub : option string)
    (credits : Z) : list Effect :=
  if WithAuth.bypassed (env w) then
    if Nat.ltb (WithAuth.warningCount
                  (WithAuth.afterCall (CreditBilling.auth (billing w)))) 5
    then [LoggerWarn "You're bypassing authentication"; WarningCountIncr]
    else []
  else
    QueueBillingOperation team_id sub credits false ::
    match CreditBilling.queueBillingOperation (billing w) with
    | Returned _ => []
    | Threw _ => [LoggerError "Failed to bill team"]
    end.

(** ** More sample requests *)

(** The same team, authenticated with the given chunk and billed
    through the given billing world. *)
Definition sampleWorldWith (bw : CreditBilling.World)
    (chunk : option AuthCreditUsageChunk)
    (blocked : bool) (enqueue : Outcome unit)
    (wait : Outcome (option Document)) : World :=
  {| billing := bw;
     defaults := sampleDefaults;
     authenticateUser := Returned (AuthSuccess "team-1" chunk);
     uuidv4 := "9c4e";
     urlSchema_parse := urlSchema_parse (sampleScrapeWorld wait);
     isUrlBlocked := fun _ _ => blocked;
     getJobPriority := Returned 10;
     addScrapeJob := enqueue;
     waitForJob := wait;
     toLegacyDocument := toLegacyDocument (sampleScrapeWorld wait);
     BLOCKLISTED_URL_MESSAGE := "URL is blocked" |}.

Definition zdrChunk : AuthCreditUsageChunk :=
  {| adjusted_credits_used := 0;
     remaining_credits := 500;
     total_credits_sum := Some 500;
     sub_id := None;
     sub_current_period_start := None;
     sub_current_period_end := None;
     is_extract := None;
     flags := Some {| forceZDR := Some true; allowZDR := Some true |};
     concurrency := None |}.

Definition llmOptions (schema : option SchemaKind) : option BodyExtractorOptions :=
  Some {| body_mode := Some "llm-extraction-from-raw-html";
          body_extractionSchema := schema |}.

End V0Scrape.

(* ===================================================================== *)
(** * The crawl-status WebSocket session ([crawlStatusWS]) *)
(* ===================================================================== *)

(** The two parts of [crawlStatusWS], each on its own: the body of
    [loop] run tick after tick with nothing else writing [doneJobIDs] in
    between ([pollLoop]), and the catch-up run with no tick in between
    and no await rejecting ([crawlStatusWS]).  How the two interleave in
    a session, where the timer is armed before the catch-up assigns
    [doneJobIDs], is the subject of [CrawlStatusWSController] below. *)

Module CrawlStatusWS.

Inductive JobState : Type :=
| completed | failed | delayed | active | waiting
| waiting_children | prioritized | unknown.

(** A queue job: its id and its return value, a document or nothing. *)
Record Job : Type := {
  id : string;
  returnvalue : option string
}.

Inductive Message : Type :=
| ErrorMessage (error : string)
| DoneMessage
| DocumentMessage (data : string).

(** What goes out on the socket. *)
Inductive Event : Type :=
| Send (msg : Message)
| Close (code : Z) (msg : Message).

(** The session-local variables of [crawlStatusWS] and what it has put
    on the socket so far. *)
Record Session : Type := {
  doneJobIDs : list string;
  finished : bool;
  events : list Event
}.

(** What the store, the queue and the socket answer during one poll
    iteration. *)
Record Poll : Type := {
  getCrawlJobs : list string;
  getJobState : string -> JobState;
  getJob : string -> option Job;
  readyState : Z
}.

(** [doneJobIDs.includes(x)] *)
Definition includesId (l : list string) (x : string) : bool :=
  existsb (String.eqb x) l.

Definition isTerminal (s : JobState) : bool :=
  match s with completed | failed => true | _ => false end.

(** [send(ws, msg)] and [close(ws, code, msg)] *)
Definition send (p : Poll) (msg : Message) : list Event :=
  if readyState p =? 1 then [Send msg] else [].

Definition close (p : Poll) (code : Z) (msg : Message) : list Event :=
  if readyState p <=? 1 then [Close code msg] else [].

Definition notDoneJobIDs (p : Poll) (s : Session) : list string :=
  filter (fun x => negb (includesId (doneJobIDs s) x)) (getCrawlJobs p).

Definition newlyDoneJobIDs (p : Poll) (s : Session) : list string :=
  map fst
    (filter (fun x => isTerminal (snd x))
       (map (fun x => (x, getJobState p x)) (notDoneJobIDs p s))).

(** [(await Promise.all(newlyDoneJobIDs.map(getJob))).filter(x => x !== undefined)] *)
Fixpoint definedJobs (l : list (option Job)) : list Job :=
  match l with
  | [] => []
  | Some j :: rest => j :: definedJobs rest
  | None :: rest => definedJobs rest
  end.

Definition newlyDoneJobs (p : Poll) (s : Session) : list Job :=
  definedJobs (map (getJob p) (newlyDoneJobIDs p s)).

(** The [for (const job of newlyDoneJobs)] loop. *)
Fixpoint sendDocuments (p : Poll) (jobs : list Job) : list Event :=
  match jobs with
  | [] => []
  | job :: rest =>
      match returnvalue job with
      | Some data => send p (DocumentMessage data) ++ sendDocuments p rest
      | None => sendDocuments p rest
      end
  end.

(** One run of [loop]: the session after it, and whether it has set
    the timer for the next run. *)
Definition loop (p : Poll) (s : Session) : Session * bool :=
  if finished s then (s, false)
  else if (Z.of_nat (length (getCrawlJobs p)) =?
           Z.of_nat (length (doneJobIDs s))) then
    ({| doneJobIDs := doneJobIDs s;
        finished := finished s;
        events := events s ++ close p 1000 DoneMessage |}, false)
  else
    ({| doneJobIDs := doneJobIDs s ++ newlyDoneJobIDs p s;
        finished := finished s;
        events := events s ++ sendDocuments p (newlyDoneJobs p s) |}, true).

(** Consecutive runs of [loop], one answer of the outside per timer
    tick, until [loop] stops rearming the timer; nothing but [loop]
    touches the session in between. *)
Fixpoint pollLoop (polls : list Poll) (s : Session) : Session :=
  match polls with
  | [] => s
  | p :: rest =>
      let '(s', again) := loop p s in
      if again then pollLoop rest s' else s'
  end.

(** The jobs whose return value one run of [loop] puts on the socket. *)
Definition framedJobs (p : Poll) (s : Session) : list Job :=
  if finished s then []
  else if (Z.of_nat (length (getCrawlJobs p)) =?
           Z.of_nat (length (doneJobIDs s))) then []
  else if readyState p =? 1 then
    filter (fun j => match returnvalue j with Some _ => true | None => false end)
      (newlyDoneJobs p s)
  else [].

(** The jobs framed over the iterations of a session, in order. *)
Fixpoint framedInSession (polls : list Poll) (s : Session) : list Job :=
  match polls with
  | [] => []
  | p :: rest =>
      let '(s', again) := loop p s in
      framedJobs p s ++ (if again then framedInSession rest s' else [])
  end.

(** The document frames among the events. *)
Fixpoint documentFrames (evs : list Event) : list string :=
  match evs with
  | [] => []
  | Send (DocumentMessage data) :: rest => data :: documentFrames rest
  | _ :: rest => documentFrames rest
  end.

(** The data of the frame sent for a job, if any. *)
Definition frameData (j : Job) : list string :=
  match returnvalue j with Some data => [data] | None => [] end.

(** The answers of the outside the streamer relies on: the child jobs
    of a crawl form a set, and [getJob(x)] is the job with id [x]. *)
Definition wellFormed (p : Poll) : Prop :=
  NoDup (getCrawlJobs p) /\
  forall x j, getJob p x = Some j -> id j = x.

(** ** A sample session: three child jobs, two of them done at connect *)

Definition samplePoll (third : JobState) : Poll :=
  {| getCrawlJobs := ["a"; "b"; "c"];
     getJobState := fun x => if String.eqb x "c" then third else completed;
     getJob := fun x => Some {| id := x; returnvalue := Some ("doc " ++ x)%string |};
     readyState := 1 |}.

Definition sampleSession : Session :=
  {| doneJobIDs := ["a"; "b"]; finished := false; events := [] |}.

(** ** The catch-up of [crawlStatusWS] *)

(** The stored crawl, as far as the session reads it. *)
Record StoredCrawl : Type := {
  team_id : string;
  cancelled : option bool
}.

Inductive CrawlStatus : Type :=
| status_cancelled
| status_completed
| status_scraping.

(** The data of the [catchup] frame ([success] is always [true]). *)
Record CrawlStatusResponse : Type := {
  status : CrawlStatus;
  total : nat;
  completedCount : nat;
  creditsUsed : nat;
  expiresAt : string;
  data : list (option string)
}.

Inductive StartEvent : Type :=
| SendCatchup (snapshot : CrawlStatusResponse)
| CloseAtStart (code : Z) (msg : Message).

(** What the store and the queue answer when the session starts;
    [throttledJobs] is the team's concurrency-limited set. *)
Record Connect : Type := {
  getCrawl : option StoredCrawl;
  auth_team_id : string;
  getDoneJobsOrdered : list string;
  atConnect : Poll;
  throttledJobs : list string;
  getJobs : list string -> list Job;
  getCrawlExpiry : string
}.

(** The [for (const [id, status] of jobStatuses)] loop. *)
Fixpoint validJobStatuses (throttled : list string)
    (jobStatuses : list (string * JobState)) : list (string * JobState) :=
  match jobStatuses with
  | [] => []
  | (jobId, state) :: rest =>
      if includesId throttled jobId then
        (jobId, prioritized) :: validJobStatuses throttled rest
      else
        match state with
        | failed | unknown => validJobStatuses throttled rest
        | _ => (jobId, state) :: validJobStatuses throttled rest
        end
  end.

Definition isCompleted (s : JobState) : bool :=
  match s with completed => true | _ => false end.

Definition statusesAtConnect (c : Connect) : list (string * JobState) :=
  validJobStatuses (throttledJobs c)
    (map (fun x => (x, getJobState (atConnect c) x))
       (getCrawlJobs (atConnect c))).

Definition statusAtConnect (c : Connect) (sc : StoredCrawl) : CrawlStatus :=
  if truthy (cancelled sc) then status_cancelled
  else if forallb (fun x => isCompleted (snd x)) (statusesAtConnect c)
  then status_completed
  else status_scraping.

Definition isScraping (s : CrawlStatus) : bool :=
  match s with status_scraping => true | _ => false end.

(** [crawlStatusWS] up to its return when every await resolves and no
    timer tick runs in between: what it puts on the socket, and the
    session variables it leaves to the poll loop ([None] when it stops
    before the catch-up). *)
Definition crawlStatusWS (c : Connect) : list StartEvent * option Session :=
  let closing code msg :=
    if readyState (atConnect c) <=? 1 then [CloseAtStart code msg] else [] in
  match getCrawl c with
  | None => (closing 1008 (ErrorMessage "Job not found"), None)
  | Some sc =>
      if negb (String.eqb (team_id sc) (auth_team_id c)) then
        (closing 3003 (ErrorMessage "Forbidden"), None)
      else
        let doneJobIDs := getDoneJobsOrdered c in
        let status := statusAtConnect c sc in
        let jobIDs := map fst (statusesAtConnect c) in
        let doneJobs := getJobs c doneJobIDs in
        let snapshot :=
          {| status := status;
             total := length jobIDs;
             completedCount := length doneJobIDs;
             creditsUsed := length jobIDs;
             expiresAt := getCrawlExpiry c;
             data := map returnvalue doneJobs |} in
        ((if readyState (atConnect c) =? 1 then [SendCatchup snapshot] else [])
         ++ (if isScraping status then [] else closing 1000 DoneMessage),
         Some {| doneJobIDs := doneJobIDs;
                 finished := negb (isScraping status);
                 events := [] |})
  end.

(** The snapshots sent at the start. *)
Fixpoint catchups (evs : list StartEvent) : list CrawlStatusResponse :=
  match evs with
  | [] => []
  | SendCatchup snapshot :: rest => snapshot :: catchups rest
  | _ :: rest => catchups rest
  end.

(** The events of a poll loop: document frames, and the closing. *)
Definition isDocumentFrame (e : Event) : bool :=
  match e with Send (DocumentMessage _) => true | _ => false end.

(** Three child jobs: ["a"] completed, ["b"] failed, ["c"] completed but
    held back by the team's concurrency limit. *)
Definition sampleConnect (team : string) (throttled : list string) : Connect :=
  {| getCrawl := Some {| team_id := "team-1"; cancelled := None |};
     auth_team_id := team;
     getDoneJobsOrdered := ["a"];
     atConnect :=
       {| getCrawlJobs := ["a"; "b"; "c"];
          getJobState := fun x => if String.eqb x "b" then failed else completed;
          getJob := fun _ => None;
          readyState := 1 |};
     throttledJobs := throttled;
     getJobs := map (fun x => {| id := x; returnvalue := Some ("doc " ++ x)%string |});
     getCrawlExpiry := "2025-01-02T00:00:00.000Z" |}.

End CrawlStatusWS.

(* ===================================================================== *)
(** * The crawl-status session and its interleavings
      ([crawlStatusWSController]) *)
(* ===================================================================== *)

(** [crawlStatusWSController] awaits [crawlStatusWS], which arms the
    timer of [loop] (line 445) before the awaits of its catch-up (lines
    447 to 502).  From then on two coroutines share [doneJobIDs] and
    [finished]: the catch-up, and [loop] as the timer runs it.  Each runs
    without interruption from one [await] to the next; in which order
    their pending awaits settle, and whether one rejects, is up to the
    store, the queue, the socket and the clock.  A session is a sequence
    of steps; a step resumes one of the two coroutines with the answer
    its pending await gets.

    The state of the socket is read where [send] and [close] read it,
    from the answers of the step.  The promise of the [send] of the
    catch-up is awaited, so that its rejection is a rejection of the
    catch-up; the promises of the [send]s of [loop] are dropped by the
    source and so by the model.  [getJobs] reads the list it is given
    when it is called.  The calls that are not awaited
    ([createRedisConnection], [getScrapeQueue], [conn.disconnect],
    [JSON.stringify]) are taken to return. *)

Module CrawlStatusWSController.
Import CrawlStatusWS.

(** Where the catch-up is suspended, with the local variables it
    still needs. *)
Inductive CatchupPc : Type :=
| AwaitAuth                                        (* line 516 *)
| AwaitGetCrawl (team_id : string)                 (* line 389 *)
| AwaitDoneJobs (sc : StoredCrawl)                 (* line 447 *)
| AwaitCrawlJobs (sc : StoredCrawl)                (* line 449 *)
| AwaitJobStates (sc : StoredCrawl) (jobIDs : list string)     (* line 454 *)
| AwaitThrottled (sc : StoredCrawl)
    (jobStatuses : list (string * JobState))       (* line 460 *)
| AwaitGetJobs (status : CrawlStatus) (total : nat)
    (ids : list string)                            (* line 487 *)
| AwaitExpiry (status : CrawlStatus) (total nDone : nat)
    (data : list (option string))                  (* line 499 *)
| AwaitSend (status : CrawlStatus)                 (* line 491 *)
| Settled.                                         (* returned or caught *)

(** Where [loop] is: no timer pending, the timer pending, or one of its
    three awaits pending. *)
Inductive LoopPc : Type :=
| Unarmed
| Armed                                            (* lines 445, 442 *)
| AwaitLoopJobs                                    (* line 404 *)
| AwaitLoopStates (notDoneJobIDs : list string)    (* line 415 *)
| AwaitLoopGetJob (newlyDoneJobIDs : list string). (* line 426 *)

(** What the session does to the outside: calls of [ws.send] and
    [ws.close], and the capture of a caught error. *)
Inductive Call : Type :=
| Ws (e : Event)
| WsCatchup (snapshot : CrawlStatusResponse)
| Captured (e : Thrown).

Record State : Type := {
  st_doneJobIDs : list string;
  st_finished : bool;
  st_calls : list Call;
  st_catchup : CatchupPc;
  st_loop : LoopPc
}.

(** The session when [crawlStatusWSController] is called. *)
Definition initial : State :=
  {| st_doneJobIDs := [];
     st_finished := false;
     st_calls := [];
     st_catchup := AwaitAuth;
     st_loop := Unarmed |}.

(** A step: the pending await of the catch-up resolves with the answers
    of [c], it rejects with [e] (the socket then being in state [ready]
    and the exception id drawn being [id]), or [authenticateUser]
    resolves to a failure; the timer of [loop] fires or its pending
    await resolves with the answers of [p], or that await rejects. *)
Inductive Step : Type :=
| CatchupResolves (c : Connect)
| CatchupRejects (ready : Z) (e : Thrown) (id : string)
| AuthRefuses (ready : Z) (error : string)
| LoopResolves (p : Poll)
| LoopRejects.

Definition calling (cs : list Call) (s : State) : State :=
  {| st_doneJobIDs := st_doneJobIDs s;
     st_finished := st_finished s;
     st_calls := st_calls s ++ cs;
     st_catchup := st_catchup s;
     st_loop := st_loop s |}.

Definition catchupAt (pc : CatchupPc) (s : State) : State :=
  {| st_doneJobIDs := st_doneJobIDs s;
     st_finished := st_finished s;
     st_calls := st_calls s;
     st_catchup := pc;
     st_loop := st_loop s |}.

Definition loopAt (pc : LoopPc) (s : State) : State :=
  {| st_doneJobIDs := st_doneJobIDs s;
     st_finished := st_finished s;
     st_calls := st_calls s;
     st_catchup := st_catchup s;
     st_loop := pc |}.

Definition assign (ids : list string) (s : State) : State :=
  {| st_doneJobIDs := ids;
     st_finished := st_finished s;
     st_calls := st_calls s;
     st_catchup := st_catchup s;
     st_loop := st_loop s |}.

Definition finish (s : State) : State :=
  {| st_doneJobIDs := st_doneJobIDs s;
     st_finished := true;
     st_calls := st_calls s;
     st_catchup := st_catchup s;
     st_loop := st_loop s |}.

(** [close(ws, code, msg)] with the socket in state [ready]. *)
Definition closing (ready : Z) (code : Z) (msg : Message) : list Call :=
  if ready <=? 1 then [Ws (Close code msg)] else [].

(** The [status] of lines 478 to 483. *)
Definition statusOf (sc : StoredCrawl)
    (validJobStatuses : list (string * JobState)) : CrawlStatus :=
  if truthy (cancelled sc) then status_cancelled
  else if forallb (fun x => isCompleted (snd x)) validJobStatuses
  then status_completed
  else status_scraping.

Definition unexpectedError (id : string) : string :=
  ("An unexpected error occurred. Please contact zardam@dubit.live for help. Your exception ID is "
   ++ id)%string.

(** The catch-up from the await that has resolved to its next await. *)
Definition crawlStatusWS_resumes (c : Connect) (s : State) : State :=
  let ready := readyState (atConnect c) in
  match st_catchup s with
  | AwaitAuth =>
      catchupAt (AwaitGetCrawl (auth_team_id c)) s
  | AwaitGetCrawl team =>
      match getCrawl c with
      | None =>
          catchupAt Settled
            (calling (closing ready 1008 (ErrorMessage "Job not found")) s)
      | Some sc =>
          if negb (String.eqb (team_id sc) team) then
            catchupAt Settled
              (calling (closing ready 3003 (ErrorMessage "Forbidden")) s)
          else
            catchupAt (AwaitDoneJobs sc) (loopAt Armed s)
      end
  | AwaitDoneJobs sc =>
      catchupAt (AwaitCrawlJobs sc) (assign (getDoneJobsOrdered c) s)
  | AwaitCrawlJobs sc =>
      catchupAt (AwaitJobStates sc (getCrawlJobs (atConnect c))) s
  | AwaitJobStates sc jobIDs =>
      catchupAt
        (AwaitThrottled sc
           (map (fun x => (x, getJobState (atConnect c) x)) jobIDs)) s
  | AwaitThrottled sc jobStatuses =>
      let valid := validJobStatuses (throttledJobs c) jobStatuses in
      let validJobIDs := map fst valid in
      catchupAt
        (AwaitGetJobs (statusOf sc valid) (length validJobIDs)
           (st_doneJobIDs s)) s
  | AwaitGetJobs status total ids =>
      let doneJobs := getJobs c ids in
      catchupAt
        (AwaitExpiry status total (length (st_doneJobIDs s))
           (map returnvalue doneJobs)) s
  | AwaitExpiry status total nDone data =>
      let snapshot :=
        {| status := status;
           total := total;
           completedCount := nDone;
           creditsUsed := total;
           expiresAt := getCrawlExpiry c;
           data := data |} in
      catchupAt (AwaitSend status)
        (calling (if ready =? 1 then [WsCatchup snapshot] else []) s)
  | AwaitSend status =>
      if isScraping status then catchupAt Settled s
      else
        catchupAt Settled
          (calling (closing ready 1000 DoneMessage) (finish s))
  | Settled => s
  end.

(** The [catch] of [crawlStatusWSController]: any await of the
    catch-up that rejects ends it there. *)
Definition crawlStatusWSController_catches (ready : Z) (e : Thrown)
    (id : string) (s : State) : State :=
  match st_catchup s with
  | Settled => s
  | _ =>
      catchupAt Settled
        (calling
           (Captured e ::
            closing ready 1011 (ErrorMessage (unexpectedError id))) s)
  end.

(** [if (!auth.success) return close(ws, 3000, ...)] *)
Definition crawlStatusWSController_refuses (ready : Z) (error : string)
    (s : State) : State :=
  match st_catchup s with
  | AwaitAuth =>
      catchupAt Settled (calling (closing ready 3000 (ErrorMessage error)) s)
  | _ => s
  end.

(** [loop] from the timer or the await that has resolved to its next
    await, or to its end. *)
Definition loop_resumes (p : Poll) (s : State) : State :=
  match st_loop s with
  | Unarmed => s
  | Armed =>
      if st_finished s then loopAt Unarmed s else loopAt AwaitLoopJobs s
  | AwaitLoopJobs =>
      let jobIDs := getCrawlJobs p in
      if Z.of_nat (length jobIDs) =? Z.of_nat (length (st_doneJobIDs s)) then
        loopAt Unarmed (calling (closing (readyState p) 1000 DoneMessage) s)
      else
        loopAt
          (AwaitLoopStates
             (filter (fun x => negb (includesId (st_doneJobIDs s) x)) jobIDs))
          s
  | AwaitLoopStates notDoneJobIDs =>
      let jobStatuses := map (fun x => (x, getJobState p x)) notDoneJobIDs in
      loopAt
        (AwaitLoopGetJob
           (map fst (filter (fun x => isTerminal (snd x)) jobStatuses)))
        s
  | AwaitLoopGetJob newlyDoneJobIDs =>
      let newlyDoneJobs := definedJobs (map (getJob p) newlyDoneJobIDs) in
      loopAt Armed
        (assign (st_doneJobIDs s ++ newlyDoneJobIDs)
           (calling (map Ws (sendDocuments p newlyDoneJobs)) s))
  end.

(** A rejected await ends [loop] without rearming the timer; nothing
    catches it. *)
Definition loop_rejects (s : State) : State :=
  match st_loop s with
  | AwaitLoopJobs | AwaitLoopStates _ | AwaitLoopGetJob _ => loopAt Unarmed s
  | _ => s
  end.

Definition step (st : Step) (s : State) : State :=
  match st with
  | CatchupResolves c => crawlStatusWS_resumes c s
  | CatchupRejects ready e id => crawlStatusWSController_catches ready e id s
  | AuthRefuses ready error => crawlStatusWSController_refuses ready error s
  | LoopResolves p => loop_resumes p s
  | LoopRejects => loop_rejects s
  end.

Fixpoint session (steps : list Step) (s : State) : State :=
  match steps with
  | [] => s
  | st :: rest => session rest (step st s)
  end.

(** ** What is observed of a session *)

(** The data of the document frames among the calls, in order. *)
Fixpoint documentCalls (cs : list Call) : list string :=
  match cs with
  | [] => []
  | Ws (Send (DocumentMessage data)) :: rest => data :: documentCalls rest
  | _ :: rest => documentCalls rest
  end.

Definition hasReturnvalue (j : Job) : bool :=
  match returnvalue j with Some _ => true | None => false end.

(** The jobs whose return value a step puts on the socket. *)
Definition framedBy (st : Step) (s : State) : list Job :=
  match st, st_loop s with
  | LoopResolves p, AwaitLoopGetJob newlyDoneJobIDs =>
      if readyState p =? 1 then
        filter hasReturnvalue (definedJobs (map (getJob p) newlyDoneJobIDs))
      else []
  | _, _ => []
  end.

Fixpoint framedIn (steps : list Step) (s : State) : list Job :=
  match steps with
  | [] => []
  | st :: rest => framedBy st s ++ framedIn rest (step st s)
  end.

(** The catch-up frames among the calls. *)
Fixpoint catchupCalls (cs : list Call) : list CrawlStatusResponse :=
  match cs with
  | [] => []
  | WsCatchup snapshot :: rest => snapshot :: catchupCalls rest
  | _ :: rest => catchupCalls rest
  end.

(** The closings among the calls: code and message. *)
Fixpoint closeCalls (cs : list Call) : list (Z * Message) :=
  match cs with
  | [] => []
  | Ws (Close code msg) :: rest => (code, msg) :: closeCalls rest
  | _ :: rest => closeCalls rest
  end.

(** The answers a step relies on, as for [wellFormed]: the child jobs
    of the crawl form a set and [getJob(x)] is the job with id [x]. *)
Definition wellFormedStep (st : Step) : Prop :=
  match st with
  | LoopResolves p => wellFormed p
  | _ => True
  end.

(** The catch-up has not yet assigned [doneJobIDs] (line 447). *)
Definition beforeAssignment (pc : CatchupPc) : bool :=
  match pc with
  | AwaitAuth | AwaitGetCrawl _ | AwaitDoneJobs _ => true
  | _ => false
  end.

(** The ids a pending await of [loop] holds. *)
Definition pendingIds (pc : LoopPc) : list string :=
  match pc with
  | AwaitLoopStates l | AwaitLoopGetJob l => l
  | _ => []
  end.

(** What holds of the ids [F] framed so far as long as the assignment
    does not drop any of them: they are pairwise distinct and in
    [doneJobIDs], and the ids [loop] is about to look at are pairwise
    distinct and none of them. *)
Definition framedSoFar (s : State) (F : list string) : Prop :=
  NoDup F /\
  (forall x, In x F -> In x (st_doneJobIDs s)) /\
  NoDup (pendingIds (st_loop s)) /\
  (forall x, In x (pendingIds (st_loop s)) -> ~ In x F).

(** The ids a pending await of [loop] holds come from the polls of the
    steps [hist] made so far: each was a child job for one of them,
    and, once the states are in, completed or failed for one of them. *)
Definition observed (hist : list Step) (s : State) : Prop :=
  match st_loop s with
  | AwaitLoopStates l =>
      forall x, In x l ->
        exists p, In (LoopResolves p) hist /\ In x (getCrawlJobs p)
  | AwaitLoopGetJob l =>
      forall x, In x l ->
        exists p p',
          In (LoopResolves p) hist /\ In (LoopResolves p') hist /\
          In x (getCrawlJobs p) /\ isTerminal (getJobState p' x) = true
  | _ => True
  end.

(** The child jobs the catch-up counts ([validJobStatuses] of lines
    462 to 476), from what it was answered for the child jobs ([cj]),
    for their queue states ([cs]) and for the throttled set ([ct]). *)
Definition validAtConnect (cj cs ct : Connect) : list (string * JobState) :=
  validJobStatuses (throttledJobs ct)
    (map (fun x => (x, getJobState (atConnect cs) x))
       (getCrawlJobs (atConnect cj))).

(** A status and a total computed from answers of the steps [hist]. *)
Definition fromAnswers (hist : list Step) (status : CrawlStatus)
    (total : nat) : Prop :=
  exists c0 sc cj cs ct,
    In (CatchupResolves c0) hist /\ getCrawl c0 = Some sc /\
    In (CatchupResolves cj) hist /\ In (CatchupResolves cs) hist /\
    In (CatchupResolves ct) hist /\
    status = statusOf sc (validAtConnect cj cs ct) /\
    total = length (validAtConnect cj cs ct).

(** What the catch-up holds while suspended, and what it has sent, come
    from the answers of the steps [hist] made so far; no catch-up
    frame is sent before the last await, and never a second one. *)
Definition catchupSound (hist : list Step) (s : State) : Prop :=
  match st_catchup s with
  | AwaitDoneJobs sc | AwaitCrawlJobs sc =>
      exists c0, In (CatchupResolves c0) hist /\ getCrawl c0 = Some sc
  | AwaitJobStates sc jobIDs =>
      exists c0 cj,
        In (CatchupResolves c0) hist /\ getCrawl c0 = Some sc /\
        In (CatchupResolves cj) hist /\ jobIDs = getCrawlJobs (atConnect cj)
  | AwaitThrottled sc jobStatuses =>
      exists c0 cj cs,
        In (CatchupResolves c0) hist /\ getCrawl c0 = Some sc /\
        In (CatchupResolves cj) hist /\ In (CatchupResolves cs) hist /\
        jobStatuses =
          map (fun x => (x, getJobState (atConnect cs) x))
            (getCrawlJobs (atConnect cj))
  | AwaitGetJobs status total _ | AwaitExpiry status total _ _ =>
      fromAnswers hist status total
  | _ => True
  end /\
  match st_catchup s with
  | AwaitSend _ | Settled => (length (catchupCalls (st_calls s)) <= 1)%nat
  | _ => catchupCalls (st_calls s) = []
  end /\
  forall snapshot,
    In snapshot (catchupCalls (st_calls s)) ->
    creditsUsed snapshot = total snapshot /\
    fromAnswers hist (status snapshot) (total snapshot).

(** The closings of a session that is refused before the timer is
    armed, and those of a session that got further. *)
Definition refusal (code : Z) (msg : Message) : Prop :=
  (code = 3000 /\ exists error, msg = ErrorMessage error) \/
  (code = 1008 /\ msg = ErrorMessage "Job not found") \/
  (code = 3003 /\ msg = ErrorMessage "Forbidden").

Definition ending (code : Z) (msg : Message) : Prop :=
  (code = 1000 /\ msg = DoneMessage) \/
  (code = 1011 /\ exists id, msg = ErrorMessage (unexpectedError id)).

(** A refused session: one closing, and nothing else ever. *)
Definition refused (s : State) : Prop :=
  st_catchup s = Settled /\ st_loop s = Unarmed /\
  st_doneJobIDs s = [] /\ st_finished s = false /\
  exists code msg, refusal code msg /\ st_calls s = [Ws (Close code msg)].

(** The catch-up has not yet armed the timer (line 445). *)
Definition beforeTimer (pc : CatchupPc) : bool :=
  match pc with
  | AwaitAuth | AwaitGetCrawl _ => true
  | _ => false
  end.

Definition closingsSound (s : State) : Prop :=
  (beforeTimer (st_catchup s) = true ->
   st_calls s = [] /\ st_loop s = Unarmed /\ st_doneJobIDs s = [] /\
   st_finished s = false) /\
  (refused s \/
   forall code msg, In (code, msg) (closeCalls (st_calls s)) -> ending code msg).

(** One whole run of [loop] with nothing in between: the timer fires
    and its three awaits resolve with the answers of [p]. *)
Definition tick (p : Poll) : list Step :=
  [LoopResolves p; LoopResolves p; LoopResolves p; LoopResolves p].

(** A session in which nothing runs between the awaits of the
    catch-up: its nine awaits resolve in a row with the answers of
    [c]. *)
Definition catchupAlone (c : Connect) : list Step :=
  repeat (CatchupResolves c) 9.

(** The calls of the session for what [CrawlStatusWS.crawlStatusWS]
    puts on the socket. *)
Definition startCall (e : StartEvent) : Call :=
  match e with
  | SendCatchup snapshot => WsCatchup snapshot
  | CloseAtStart code msg => Ws (Close code msg)
  end.

(** The session variables as [CrawlStatusWS.loop] takes them. *)
Definition sessionOf (s : State) : Session :=
  {| doneJobIDs := st_doneJobIDs s;
     finished := st_finished s;
     events := [] |}.

(** The steps of [loop], as against those of the catch-up. *)
Definition isLoopStep (st : Step) : bool :=
  match st with LoopResolves _ | LoopRejects => true | _ => false end.

(** ** Sample sessions *)

(** A crawl of team-1 with two child jobs, both completed in the
    queue; the store lists only ["a"] as done. *)
Definition raceConnect : Connect :=
  {| getCrawl := Some {| team_id := "team-1"; cancelled := None |};
     auth_team_id := "team-1";
     getDoneJobsOrdered := ["a"];
     atConnect :=
       {| getCrawlJobs := ["a"; "b"];
          getJobState := fun _ => completed;
          getJob := fun _ => None;
          readyState := 1 |};
     throttledJobs := [];
     getJobs := map (fun x => {| id := x; returnvalue := Some ("doc " ++ x)%string |});
     getCrawlExpiry := "2025-01-02T00:00:00.000Z" |}.

Definition pollAt (ready : Z) : Poll :=
  {| getCrawlJobs := ["a"; "b"];
     getJobState := fun _ => completed;
     getJob := fun x => Some {| id := x; returnvalue := Some ("doc " ++ x)%string |};
     readyState := ready |}.

Definition racePoll : Poll := pollAt 1.

(** The store is slow to answer [getDoneJobsOrdered]: a first run of
    [loop] completes before the catch-up assigns [doneJobIDs], a
    second one follows the assignment. *)
Definition raceSteps : list Step :=
  [CatchupResolves raceConnect; CatchupResolves raceConnect]
  ++ tick racePoll
  ++ [CatchupResolves raceConnect]
  ++ tick racePoll.

(** The same answers with the store answering before the first tick. *)
Definition orderlySteps : list Step :=
  [CatchupResolves raceConnect; CatchupResolves raceConnect;
   CatchupResolves raceConnect]
  ++ tick racePoll
  ++ tick racePoll.

End CrawlStatusWSController.

(* ===================================================================== *)
(** * The string tests *)
(* ===================================================================== *)

Unset Implicit Arguments.

Module JsSpec.

Lemma prefix_split (p s : string) :
  String.prefix p s = true <-> exists post, s = (p ++ post)%string.
Proof.
  revert s. induction p as [| a p IH]; intros s.
  - destruct s; simpl; (split; [intros _; eexists; reflexivity | reflexivity]).
  - destruct s as [| b s]; simpl.
    + split; [discriminate | intros [post H]; discriminate].
    + destruct (ascii_dec a b) as [-> | Hne].
      * rewrite IH. split; intros [post H]; exists post; congruence.
      * split; [discriminate | intros [post H]; congruence].
Qed.

(** [includes s p] holds exactly when [p] occurs somewhere in [s]. *)
Lemma includes_split (s p : string) :
  includes s p = true <-> exists pre post, s = (pre ++ p ++ post)%string.
Proof.
  induction s as [| c s IH]; cbn [includes]; rewrite orb_true_iff, prefix_split.
  - split.
    + intros [[post H] | H]; [| discriminate]. now exists EmptyString, post.
    + intros (pre & post & H). left. destruct pre; [now exists post |].
      discriminate.
  - rewrite IH. split.
    + intros [[post H] | (pre & post & H)].
      * now exists EmptyString, post.
      * exists (String c pre), post. simpl. now rewrite H.
    + intros (pre & post & H). destruct pre as [| c' pre].
      * left. now exists post.
      * right. exists pre, post. simpl in H. congruence.
Qed.

(** ** Sums of integer-valued numbers *)

Lemma isSafeInteger_bounds z :
  isSafeInteger z = true <-> - (2 ^ 53) < z < 2 ^ 53.
Proof.
  unfold isSafeInteger, MAX_SAFE_INTEGER.
  rewrite andb_true_iff, !Z.leb_le.
  change (2 ^ 53) with 9007199254740992. lia.
Qed.

(** Below [2^53] in magnitude nothing is rounded. *)
Lemma roundToDouble_small z : Z.abs z < 2 ^ 53 -> roundToDouble z = z.
Proof.
  intros H. unfold roundToDouble.
  destruct (Z.ltb_spec (Z.abs z) (2 ^ 53)); [reflexivity | lia].
Qed.




End JsSpec.

(* ===================================================================== *)
(** * Properties of the v1 crawl kickoff *)
(* ===================================================================== *)

Module V1CrawlSpec.
Import V1Crawl.

Lemma savedCrawls_app (l1 l2 : list Effect) :
  savedCrawls (l1 ++ l2) = savedCrawls l1 ++ savedCrawls l2.
Proof.
  induction l1 as [| e l1 IH]; simpl; [reflexivity |].
  destruct e; simpl; rewrite IH; reflexivity.
Qed.

Lemma kickoffJobs_app (l1 l2 : list Effect) :
  kickoffJobs (l1 ++ l2) = kickoffJobs l1 ++ kickoffJobs l2.
Proof.
  induction l1 as [| e l1 IH]; simpl; [reflexivity |].
  destruct e; simpl; rewrite IH; reflexivity.
Qed.

Lemma first_RegExp_error_app compile l1 l2 :
  first_RegExp_error compile (l1 ++ l2) =
  match first_RegExp_error compile l1 with
  | Some m => Some m
  | None => first_RegExp_error compile l2
  end.
Proof.
  induction l1 as [| x l1 IH]; simpl; [reflexivity |].
  destruct (compile x); [reflexivity | exact IH].
Qed.

Lemma first_RegExp_error_none compile l :
  (forall y, In y l -> compile y = None) ->
  first_RegExp_error compile l = None.
Proof.
  induction l as [| x l IH]; simpl; intros H; [reflexivity |].
  rewrite (H x (or_introl eq_refl)). apply IH. intros y Hy. apply H. now right.
Qed.

Lemma first_RegExp_error_split compile pre x post message :
  (forall y, In y pre -> compile y = None) ->
  compile x = Some message ->
  first_RegExp_error compile (pre ++ x :: post) = Some message.
Proof.
  intros Hpre Hx. rewrite first_RegExp_error_app.
  rewrite (first_RegExp_error_none _ _ Hpre). simpl. now rewrite Hx.
Qed.

(** The two guarded loops together are one pass over [pathEntries]. *)
Lemma paths_error_entries compile b :
  first_RegExp_error compile (pathEntries b) =
  match paths_error compile (includePaths b) with
  | Some m => Some m
  | None => paths_error compile (excludePaths b)
  end.
Proof.
  unfold pathEntries. rewrite first_RegExp_error_app.
  destruct (includePaths b) as [l |], (excludePaths b); simpl;
    try reflexivity;
    destruct (first_RegExp_error compile l); reflexivity.
Qed.

(** What the robots block leaves untouched. *)
Lemma fetchRobots_frame w sc log :
  exists sc' extra,
    fetchRobots w sc log = (Returned sc', log ++ extra) /\
    savedCrawls extra = [] /\ kickoffJobs extra = [] /\
    lg_limit (sc_crawlerOptions sc') = lg_limit (sc_crawlerOptions sc) /\
    sc_maxConcurrency sc' = sc_maxConcurrency sc.
Proof.
  unfold fetchRobots.
  destruct (getRobotsTxt w) as [robots | e].
  - destruct (getRobotsCrawlDelay w) as [[d |] | e].
    + destruct (match lg_delay (sc_crawlerOptions _) with
                | Some d0 => d0 =? 0 | None => true end);
        eexists; exists []; rewrite app_nil_r; repeat split; reflexivity.
    + eexists; exists []; rewrite app_nil_r; repeat split; reflexivity.
    + eexists; eexists; repeat split; reflexivity.
  - eexists; eexists; repeat split; reflexivity.
Qed.

(** A request that passes the zero-data-retention check and whose paths
    all compile reaches [saveCrawl] exactly once and is answered 200. *)
Lemma crawlController_admitted w req :
  zdrRejected req = false ->
  first_RegExp_error (RegExp_error w) (pathEntries (body req)) = None ->
  exists sc job log,
    run (crawlController w req) =
      (Returned {| status := 200;
                   json := OkResponse (uuidv4 w)
                     ((match ENV (env w) with
                       | Some e => if String.eqb e "local" then protocol req else "https"
                       | None => "https"
                       end) ++ "://" ++ host req ++ "/v1/crawl/" ++ uuidv4 w)%string |},
       log) /\
    savedCrawls log = [(uuidv4 w, sc)] /\
    kickoffJobs log = [(job, 10)] /\
    job_mode job = "kickoff" /\
    co_limit (job_crawlerOptions job) =
      Math_min (remainingCreditsOf w req) (Fin (limit (body req))) /\
    lg_limit (sc_crawlerOptions sc) =
      Math_min (remainingCreditsOf w req) (Fin (limit (body req))) /\
    sc_maxConcurrency sc =
      resolveMaxConcurrency (maxConcurrency (body req)) (acuc_concurrency req).
Proof.
  intros Hzdr Hpaths. rewrite paths_error_entries in Hpaths.
  unfold run, crawlController. rewrite Hzdr.
  destruct (paths_error (RegExp_error w) (includePaths (body req)));
    [discriminate |].
  rewrite Hpaths. unfold bind, emit, ret.
  match goal with
  | |- context [fetchRobots w ?sc ?log] =>
      destruct (fetchRobots_frame w sc log)
        as (sc' & extra & Hrun & Hsaved & Hjobs & Hlimit & Hmax);
      rewrite Hrun
  end.
  eexists sc', _, _. split; [reflexivity |].
  simpl. repeat rewrite ?savedCrawls_app, ?kickoffJobs_app.
  rewrite Hsaved, Hjobs. simpl.
  repeat split; [exact Hlimit | exact Hmax].
Qed.

(** C4.  A v1 crawl request with [zeroDataRetention = true] from a team
    whose flags do not carry [allowZDR] is answered 400 with the
    explanatory error, and the controller returns before anything else
    happens: its run makes no external call, so [saveCrawl] is never
    called and no crawl record is persisted. *)
Theorem zdr_conflict_rejected_before_saveCrawl (w : World) (req : Request) :
  zeroDataRetention (body req) = Some true ->
  truthy (chunk_flag allowZDR (acuc req)) = false ->
  run (crawlController w req) =
    (Returned {| status := 400; json := ErrorResponse zdrError |}, []) /\
  savedCrawls (snd (run (crawlController w req))) = [].
Proof.
  intros Hz Hallow.
  assert (Hrej : zdrRejected req = true).
  { unfold zdrRejected. now rewrite Hz, Hallow. }
  unfold run, crawlController. rewrite Hrej. split; reflexivity.
Qed.

Lemma zdr_conflict_rejected_before_saveCrawl_witness :
  run (crawlController sampleCrawlWorld (sampleCrawlRequest [] (Some true) None None)) =
    (Returned {| status := 400; json := ErrorResponse zdrError |}, []) /\
  savedCrawls
    (snd (run (crawlController sampleCrawlWorld
                 (sampleCrawlRequest [] (Some true) None None)))) = [].
Proof.
  apply (zdr_conflict_rejected_before_saveCrawl sampleCrawlWorld
           (sampleCrawlRequest [] (Some true) None None)); reflexivity.
Defined.

(** C5, as stated, fails: a request that also trips the
    zero-data-retention check is answered with that check's error, not
    with the message of its invalid pattern. *)
Lemma regex_message_masked_by_zdr_check :
  let req := sampleCrawlRequest ["("] (Some true) None None in
  pathEntries (body req) = ["("] /\
  RegExp_error sampleCrawlWorld "(" = Some unterminatedGroup /\
  fst (run (crawlController sampleCrawlWorld req)) =
    Returned {| status := 400; json := ErrorResponse zdrError |} /\
  zdrError <> unterminatedGroup.
Proof.
  cbv zeta. repeat split. discriminate.
Qed.

(** C5, amended.  For a v1 crawl request that passes the
    zero-data-retention check: if an entry of [includePaths] or of
    [excludePaths] does not compile, the answer is 400 with the
    compilation error message of the first such entry ([includePaths]
    before [excludePaths], each in array order), and no crawl record is
    persisted. *)
Theorem invalid_regex_rejected (w : World) (req : Request)
    (pre post : list string) (x message : string) :
  zdrRejected req = false ->
  pathEntries (body req) = pre ++ x :: post ->
  (forall y, In y pre -> RegExp_error w y = None) ->
  RegExp_error w x = Some message ->
  fst (run (crawlController w req)) =
    Returned {| status := 400; json := ErrorResponse message |} /\
  savedCrawls (snd (run (crawlController w req))) = [].
Proof.
  intros Hzdr Hsplit Hpre Hx.
  pose proof (first_RegExp_error_split (RegExp_error w) pre x post message Hpre Hx) as H.
  rewrite <- Hsplit, paths_error_entries in H.
  unfold run, crawlController. rewrite Hzdr.
  destruct (paths_error (RegExp_error w) (includePaths (body req))) as [m |].
  - injection H as ->. split; reflexivity.
  - rewrite H. split; reflexivity.
Qed.

Lemma invalid_regex_rejected_witness :
  fst (run (crawlController sampleCrawlWorld
              (sampleCrawlRequest ["/blog/.*"; "("; "["] None None None))) =
    Returned {| status := 400; json := ErrorResponse unterminatedGroup |} /\
  savedCrawls
    (snd (run (crawlController sampleCrawlWorld
                 (sampleCrawlRequest ["/blog/.*"; "("; "["] None None None)))) = [].
Proof.
  apply (invalid_regex_rejected sampleCrawlWorld
           (sampleCrawlRequest ["/blog/.*"; "("; "["] None None None)
           ["/blog/.*"] ["["] "(" unterminatedGroup).
  - reflexivity.
  - reflexivity.
  - intros y [<- | []]. reflexivity.
  - reflexivity.
Defined.

(** C6.  For an admitted v1 crawl request (it passes the
    zero-data-retention check and all its paths compile) exactly one crawl
    record is saved, and its limit is the minimum of the remaining
    credits and the requested limit: with DB authentication on and
    [account.remainingCredits] present that is their minimum, in every
    other case the remaining credits are infinite and the stored limit
    is the requested one.  The kickoff job carries the same limit at
    priority 10. *)
Theorem stored_limit_is_clamped (w : World) (req : Request) :
  zdrRejected req = false ->
  (forall y, In y (pathEntries (body req)) -> RegExp_error w y = None) ->
  exists sc job,
    savedCrawls (snd (run (crawlController w req))) = [(uuidv4 w, sc)] /\
    kickoffJobs (snd (run (crawlController w req))) = [(job, 10)] /\
    co_limit (job_crawlerOptions job) = lg_limit (sc_crawlerOptions sc) /\
    (forall a c,
        useDbAuthentication (env w) = true ->
        account req = Some a -> remainingCredits a = Some c ->
        lg_limit (sc_crawlerOptions sc) = Fin (Z.min c (limit (body req)))) /\
    (useDbAuthentication (env w) = false \/
     account req = None \/
     (exists a, account req = Some a /\ remainingCredits a = None) ->
     lg_limit (sc_crawlerOptions sc) = Fin (limit (body req))).
Proof.
  intros Hzdr Hpaths.
  destruct (crawlController_admitted w req Hzdr
              (first_RegExp_error_none _ _ Hpaths))
    as (sc & job & log & Hrun & Hsaved & Hjobs & _ & Hjob & Hlimit & _).
  exists sc, job. rewrite Hrun. simpl snd.
  split; [exact Hsaved |]. split; [exact Hjobs |].
  split; [congruence |].
  rewrite Hlimit. unfold remainingCreditsOf. split.
  - intros a c Hdb Ha Hc. now rewrite Hdb, Ha, Hc.
  - intros [Hdb | [Ha | (a & Ha & Hc)]].
    + now rewrite Hdb.
    + rewrite Ha. now destruct (useDbAuthentication (env w)).
    + rewrite Ha, Hc. now destruct (useDbAuthentication (env w)).
Qed.

Lemma stored_limit_is_clamped_witness :
  exists sc job,
    savedCrawls
      (snd (run (crawlController sampleCrawlWorld
                   (sampleCrawlRequest ["/blog/.*"] None None None)))) =
      [("3f2a"%string, sc)] /\
    kickoffJobs
      (snd (run (crawlController sampleCrawlWorld
                   (sampleCrawlRequest ["/blog/.*"] None None None)))) =
      [(job, 10)] /\
    lg_limit (sc_crawlerOptions sc) = Fin 50.
Proof.
  destruct (stored_limit_is_clamped sampleCrawlWorld
              (sampleCrawlRequest ["/blog/.*"] None None None))
    as (sc & job & Hsaved & Hjobs & _ & Hdb & _).
  - reflexivity.
  - intros y [<- | []]. reflexivity.
  - exists sc, job. split; [exact Hsaved |]. split; [exact Hjobs |].
    exact (Hdb {| remainingCredits := Some 50 |} 50
             eq_refl eq_refl eq_refl).
Defined.

(** C7, as stated, fails: when the request names no [maxConcurrency]
    the stored crawl has none either, although the team has a cap. *)
Lemma team_cap_alone_is_not_stored :
  let req := sampleCrawlRequest [] None None (Some 5) in
  maxConcurrency (body req) = None /\
  acuc_concurrency req = Some 5 /\
  map (fun p => sc_maxConcurrency (snd p))
    (savedCrawls (snd (run (crawlController sampleCrawlWorld req)))) = [None].
Proof.
  cbv zeta. repeat split.
Qed.

(** C7, amended.  For an admitted v1 crawl request the stored crawl's
    [maxConcurrency] is the minimum of the request's [maxConcurrency] and
    the team's concurrency cap when both are present, the request's
    value when the team has no cap, and absent whenever the request
    names none. *)
Theorem stored_maxConcurrency (w : World) (req : Request) :
  zdrRejected req = false ->
  (forall y, In y (pathEntries (body req)) -> RegExp_error w y = None) ->
  exists sc,
    savedCrawls (snd (run (crawlController w req))) = [(uuidv4 w, sc)] /\
    match maxConcurrency (body req), acuc_concurrency req with
    | Some m, Some cap => sc_maxConcurrency sc = Some (Z.min m cap)
    | Some m, None => sc_maxConcurrency sc = Some m
    | None, _ => sc_maxConcurrency sc = None
    end.
Proof.
  intros Hzdr Hpaths.
  destruct (crawlController_admitted w req Hzdr
              (first_RegExp_error_none _ _ Hpaths))
    as (sc & job & log & Hrun & Hsaved & _ & _ & _ & _ & Hmax).
  exists sc. rewrite Hrun. simpl snd. split; [exact Hsaved |].
  rewrite Hmax.
  destruct (maxConcurrency (body req)), (acuc_concurrency req); reflexivity.
Qed.

Lemma stored_maxConcurrency_witness :
  exists sc,
    savedCrawls
      (snd (run (crawlController sampleCrawlWorld
                   (sampleCrawlRequest [] None (Some 8) (Some 5))))) =
      [("3f2a"%string, sc)] /\
    sc_maxConcurrency sc = Some 5.
Proof.
  destruct (stored_maxConcurrency sampleCrawlWorld
              (sampleCrawlRequest [] None (Some 8) (Some 5)))
    as (sc & Hsaved & Hmax).
  - reflexivity.
  - intros y [].
  - exists sc. split; [exact Hsaved | exact Hmax].
Defined.

End V1CrawlSpec.

(* ===================================================================== *)
(** * Properties of the credit check *)
(* ===================================================================== *)

Module CreditBillingSpec.
Import V0 CreditBilling JsSpec.

Lemma notifications_app (l1 l2 : list Effect) :
  notifications (l1 ++ l2) = notifications l1 ++ notifications l2.
Proof.
  induction l1 as [| e l1 IH]; simpl; [reflexivity |].
  destruct e; simpl; rewrite IH; reflexivity.
Qed.

(** Loading the settings sends no notification. *)
Lemma loadAutoRecharge_quiet w team_id cfg log :
  run (loadAutoRecharge w team_id) = (Returned cfg, log) ->
  notifications log = [].
Proof.
  unfold run, loadAutoRecharge, bind, lift, emit, ret.
  destruct (getValue w) as [[cached |] | e]; try discriminate.
  - intros [= _ <-]. reflexivity.
  - destruct (teamsRow w) as [[d |] | e]; try discriminate;
      intros [= _ <-]; reflexivity.
Qed.









(** Beyond the safe integers the bounds matter: with usage and total
    both at [2^53], one more credit is lost in the rounded sum and the
    check admits. *)
Lemma unsafe_sum_is_rounded :
  let c := sampleChunk (2 ^ 53) (2 ^ 53) in
  isSafeInteger (adjusted_credits_used c) = false /\
  adjusted_credits_used c + 1 > totalPriceCredits c /\
  run (supaCheckTeamCredits sampleBillingWorld (Some c) "team-1" 1) =
    (Returned {| success := true;
                 message := "Sufficient credits available";
                 remainingCredits := Fin 0;
                 chunk := Some c |}, []).
Proof.
  cbv zeta. split; [reflexivity |]. split; [reflexivity |].
  vm_compute. reflexivity.
Qed.

End CreditBillingSpec.

(* ===================================================================== *)
(** * Properties of the v0 scrape dispatch *)
(* ===================================================================== *)

Module V0ScrapeSpec.
Import V0 V0Scrape.

Lemma billTeamCalls_app (l1 l2 : list Effect) :
  billTeamCalls (l1 ++ l2) = billTeamCalls l1 ++ billTeamCalls l2.
Proof.
  induction l1 as [| e l1 IH]; simpl; [reflexivity |].
  destruct e; simpl; rewrite ?IH; reflexivity.
Qed.

Section ReachesWait.
(** A call of [scrapeHelper] that reaches the wait for completion:
    the URL parses to a string that is not blocked, the priority is
    resolved and the job is enqueued. *)
Variables (w : World) (jobId : string) (body : Body) (team_id : string)
  (pageOptions : PageOptions) (extractorOptions : ExtractorOptions)
  (timeout : Z) (flags : option TeamFlags) (u : string) (priority : Z).
Hypothesis Hparse : urlSchema_parse w (url body) = Returned (Some u).
Hypothesis Hallowed : isUrlBlocked w u flags = false.
Hypothesis Hpriority : getJobPriority w = Returned priority.
Hypothesis Henqueue : addScrapeJob w = Returned tt.

Let helper := scrapeHelper w jobId body team_id pageOptions
                extractorOptions timeout flags.
Let before (log : list Effect) : list Effect :=
  log ++ [enqueued w jobId body team_id u priority]
      ++ [WaitForJob jobId timeout].


Lemma helper_wait_throws log e :
  waitForJob w = Threw e ->
  helper log =
    if isTimeoutError e then
      (Returned {| success := false; error := Some "Request timed out";
                   data := None; returnCode := 408 |}, before log)
    else if isLlmError e then
      (Returned {| success := false; error := Some (thrownString e);
                   data := None; returnCode := 500 |}, before log)
    else (Threw e, before log).
Proof.
  intros Hwait. unfold helper, before, scrapeHelper, waitSpan, enqueued.
  unfold bind, lift, emit, try_catch, ret, throw.
  rewrite Hparse, Hallowed, Hpriority, Henqueue, Hwait.
  destruct (isTimeoutError e); [| destruct (isLlmError e)];
    rewrite <- !app_assoc; reflexivity.
Qed.
End ReachesWait.

(** [scrapeHelper] makes no billing call, and it reports success exactly
    with return code 200. *)
Lemma scrapeHelper_frame w jobId body team_id po eo timeout flags log o log' :
  scrapeHelper w jobId body team_id po eo timeout flags log = (o, log') ->
  billTeamCalls log' = billTeamCalls log /\
  forall r, o = Returned r ->
    (success r = true <-> returnCode r = 200) /\
    (returnCode r = 408 -> success r = false).
Proof.
  unfold scrapeHelper, waitSpan.
  unfold bind, lift, emit, try_catch, ret, throw.
  destruct (urlSchema_parse w (url body)) as [[u |] | e].
  - destruct (isUrlBlocked w u flags).
    + intros [= <- <-]. split; [reflexivity |].
      intros r [= <-]. simpl. repeat split; intros; discriminate || auto.
    + destruct (getJobPriority w) as [p | e].
      * destruct (addScrapeJob w) as [[] | e].
        -- destruct (waitForJob w) as [[d |] | e].
           ++ intros [= <- <-]. rewrite !billTeamCalls_app. simpl.
              rewrite !app_nil_r. split; [reflexivity |].
              intros r [= <-]. simpl. repeat split; intros; discriminate || auto.
           ++ intros [= <- <-]. rewrite !billTeamCalls_app. simpl.
              rewrite !app_nil_r. split; [reflexivity |].
              intros r [= <-]. simpl. repeat split; intros; discriminate || auto.
           ++ destruct (isTimeoutError e); [| destruct (isLlmError e)];
                intros [= <- <-]; rewrite !billTeamCalls_app; simpl;
                rewrite !app_nil_r; (split; [reflexivity |]);
                intros r; try discriminate; intros [= <-]; simpl;
                repeat split; intros; discriminate || auto.
        -- intros [= <- <-]. rewrite !billTeamCalls_app. simpl.
           rewrite !app_nil_r. split; [reflexivity |]. intros r; discriminate.
      * intros [= <- <-]. split; [reflexivity |]. intros r; discriminate.
  - intros [= <- <-]. split; [reflexivity |].
    intros r [= <-]. simpl. repeat split; intros; discriminate || auto.
  - intros [= <- <-]. split; [reflexivity |]. intros r; discriminate.
Qed.

(** ** Computations that make no billing call *)

Lemma noBilling_ret {A} (a : A) : noBilling (ret a).
Proof. intros log o log' [= <- <-]. exists []. now rewrite app_nil_r. Qed.

Lemma noBilling_throw {A} e : noBilling (@throw Effect A e).
Proof. intros log o log' [= <- <-]. exists []. now rewrite app_nil_r. Qed.

Lemma noBilling_lift {A} (x : Outcome A) : noBilling (lift x).
Proof. intros log o log' [= <- <-]. exists []. now rewrite app_nil_r. Qed.

Lemma noBilling_emit e :
  billTeamCalls [e] = [] -> noBilling (emit e).
Proof. intros He log o log' [= <- <-]. now exists [e]. Qed.

Lemma noBilling_bind {A B} (m : M Effect A) (k : A -> M Effect B) :
  noBilling m -> (forall a, noBilling (k a)) -> noBilling (bind m k).
Proof.
  intros Hm Hk log o log'. unfold bind.
  destruct (m log) as [[a | e] log1] eqn:E;
    destruct (Hm _ _ _ E) as (x1 & -> & H1).
  - intros Hrun. destruct (Hk a _ _ _ Hrun) as (x2 & -> & H2).
    exists (x1 ++ x2). rewrite app_assoc, billTeamCalls_app, H1, H2. auto.
  - intros [= <- <-]. now exists x1.
Qed.

Lemma noBilling_try_catch {A} (m : M Effect A) (h : Thrown -> M Effect A) :
  noBilling m -> (forall e, noBilling (h e)) -> noBilling (try_catch m h).
Proof.
  intros Hm Hh log o log'. unfold try_catch.
  destruct (m log) as [[a | e] log1] eqn:E;
    destruct (Hm _ _ _ E) as (x1 & -> & H1).
  - intros [= <- <-]. now exists x1.
  - intros Hrun. destruct (Hh e _ _ _ Hrun) as (x2 & -> & H2).
    exists (x1 ++ x2). rewrite app_assoc, billTeamCalls_app, H1, H2. auto.
Qed.

Lemma noBilling_when b (m : M Effect unit) :
  noBilling m -> noBilling (when b m).
Proof. destruct b; [auto | intros _; apply noBilling_ret]. Qed.

Lemma noBilling_if {A} (b : bool) (m1 m2 : M Effect A) :
  noBilling m1 -> noBilling m2 -> noBilling (if b then m1 else m2).
Proof. now destruct b. Qed.

Create HintDb quiet.
#[local] Hint Resolve noBilling_ret noBilling_throw noBilling_lift
  noBilling_bind noBilling_try_catch noBilling_when noBilling_if : quiet.
#[local] Hint Extern 1 (noBilling (emit _)) =>
  apply noBilling_emit; reflexivity : quiet.

Ltac quiet :=
  repeat first
    [ progress auto with quiet
    | apply noBilling_bind; [| intros ?]
    | apply noBilling_try_catch; [| intros ?]
    | apply noBilling_when
    | apply noBilling_if
    | match goal with
      | |- noBilling (match ?x with _ => _ end) => destruct x
      | |- noBilling (let '(_, _) := ?x in _) => destruct x
      end ].

Lemma withAuth_noBilling {T} aw (f : M Effect T) (mock : T) :
  noBilling f -> noBilling (WithAuth.withAuth aw f mock).
Proof. intros Hf. unfold WithAuth.withAuth. quiet. Qed.

Lemma checkTeamCredits_noBilling bw chunk team_id credits :
  noBilling (CreditBilling.checkTeamCredits bw chunk team_id credits).
Proof.
  unfold CreditBilling.checkTeamCredits. apply withAuth_noBilling.
  unfold CreditBilling.supaCheckTeamCredits, CreditBilling.loadAutoRecharge.
  quiet.
Qed.

Lemma billTeam_noBilling bw team_id sub credits is_extract :
  noBilling (CreditBilling.billTeam bw team_id sub credits is_extract).
Proof.
  unfold CreditBilling.billTeam. apply withAuth_noBilling. quiet.
Qed.

Lemma admission_noBilling w body : noBilling (admission w body).
Proof.
  pose proof checkTeamCredits_noBilling as Hcheck.
  unfold admission. quiet.
Qed.

Lemma admission_run_noBilling w body o log :
  run (admission w body) = (o, log) -> billTeamCalls log = [].
Proof.
  intros H. destruct (admission_noBilling w body _ _ _ H) as (x & -> & Hx).
  exact Hx.
Qed.

(** ** The controller after admission *)

Lemma creditsToBeBilled_cases eo :
  creditsToBeBilled eo = if includes (mode eo) "llm-extraction" then 5 else 1.
Proof. unfold creditsToBeBilled, isLlmExtraction. now destruct (includes _ _). Qed.

(** The detached billing call: whatever the queue answers, the
    controller goes on; a rejection is only logged. *)
Lemma billing_detached w team_id sub credits log :
  exists extra,
    try_catch
      (bind (CreditBilling.billTeam (CreditBilling.afterWithAuth (billing w))
               team_id sub credits false)
            (fun _ => ret tt))
      (fun _ => emit (LoggerError "Failed to bill team")) log =
      (Returned tt, log ++ extra) /\
    billTeamCalls extra = [] /\
    (forall e,
        WithAuth.bypassed (env w) = false ->
        CreditBilling.queueBillingOperation (billing w) = Threw e ->
        In (LoggerError "Failed to bill team") extra).
Proof.
  unfold try_catch, bind at 1.
  destruct (CreditBilling.billTeam (CreditBilling.afterWithAuth (billing w))
              team_id sub credits false log)
    as [[b | e] log1] eqn:E.
  - destruct (billTeam_noBilling _ _ _ _ _ _ _ _ E) as (x & -> & Hx).
    exists x. split; [reflexivity |]. split; [exact Hx |].
    intros e Hby Hq. exfalso. revert E.
    unfold CreditBilling.billTeam, WithAuth.withAuth. unfold env in Hby.
    cbn [CreditBilling.auth CreditBilling.afterWithAuth WithAuth.env
         WithAuth.afterCall CreditBilling.queueBillingOperation].
    rewrite Hby. unfold bind, emit, lift. rewrite Hq. discriminate.
  - destruct (billTeam_noBilling _ _ _ _ _ _ _ _ E) as (x & -> & Hx).
    exists (x ++ [LoggerError "Failed to bill team"]).
    split; [unfold emit; now rewrite app_assoc |].
    split; [rewrite billTeamCalls_app, Hx; reflexivity |].
    intros _ _ _. apply in_or_app. right. now left.
Qed.

Lemma dispatch_returned w body a log r log1 :
  scrapeHelper w (adm_jobId a) body (adm_team_id a) (adm_pageOptions a)
    (adm_extractorOptions a) (adm_timeout a) (chunk_flags (adm_chunk a)) log =
    (Returned r, log1) ->
  exists extra,
    dispatch w body a log = (Returned (Some (respondWith a r)), log1 ++ extra) /\
    billTeamCalls extra =
      (if success r
       then [(adm_team_id a, adm_sub_id a,
              if includes (mode (adm_extractorOptions a)) "llm-extraction"
              then 5 else 1)]
       else []) /\
    (success r = true ->
     forall e,
       WithAuth.bypassed (env w) = false ->
       CreditBilling.queueBillingOperation (billing w) = Threw e ->
       In (LoggerError "Failed to bill team") extra).
Proof.
  intros Hhelper. unfold dispatch. unfold bind at 1. rewrite Hhelper.
  fold (adm_sub_id a). fold (respondWith a r).
  rewrite creditsToBeBilled_cases.
  set (credits := if includes (mode (adm_extractorOptions a)) "llm-extraction"
                  then 5 else 1).
  assert (Hpos : (0 <? credits) = true).
  { unfold credits. now destruct (includes _ _). }
  destruct (success r).
  - rewrite Hpos. unfold when. unfold bind at 1. unfold bind at 1.
    unfold emit at 1.
    destruct (billing_detached w (adm_team_id a) (adm_sub_id a) credits
                (log1 ++ [BillTeam (adm_team_id a) (adm_sub_id a) credits]))
      as (x & -> & Hx & Hrej).
    exists (BillTeam (adm_team_id a) (adm_sub_id a) credits :: x).
    split; [unfold ret; now rewrite <- app_assoc |].
    split; [simpl; now rewrite Hx |].
    intros _ e Hby Hq. right. exact (Hrej e Hby Hq).
  - exists []. rewrite app_nil_r. repeat split. discriminate.
Qed.

Lemma dispatch_threw w body a log e log1 :
  scrapeHelper w (adm_jobId a) body (adm_team_id a) (adm_pageOptions a)
    (adm_extractorOptions a) (adm_timeout a) (chunk_flags (adm_chunk a)) log =
    (Threw e, log1) ->
  dispatch w body a log = (Threw e, log1).
Proof.
  intros Hhelper. unfold dispatch. unfold bind at 1. now rewrite Hhelper.
Qed.

Lemma controller_after_admission w body a log0 :
  run (admission w body) = (Returned (inr a), log0) ->
  run (scrapeController w body) =
    match dispatch w body a log0 with
    | (Returned x, l) => (Returned x, l)
    | (Threw e, l) =>
        (Returned (Some {| status := 500; json := ErrorBody (errorMessage e) |}),
         l ++ [SentryCaptureException e; LoggerError "Scrape error occcurred"])
    end.
Proof.
  unfold run, scrapeController, try_catch. intros H.
  unfold bind at 1. rewrite H.
  destruct (dispatch w body a log0) as [[x | e] l]; [reflexivity |].
  unfold bind, emit, ret. now rewrite <- app_assoc.
Qed.

Lemma controller_not_admitted w body o log0 :
  run (admission w body) = (o, log0) ->
  (forall a, o <> Returned (inr a)) ->
  billTeamCalls (snd (run (scrapeController w body))) = [].
Proof.
  intros H Hno. pose proof (admission_run_noBilling _ _ _ _ H) as Hquiet.
  unfold run in *. unfold scrapeController, try_catch.
  unfold bind at 1. rewrite H.
  destruct o as [[resp | a] | e].
  - exact Hquiet.
  - now destruct (Hno a).
  - unfold bind, emit, ret. simpl. rewrite <- app_assoc, billTeamCalls_app.
    now rewrite Hquiet.
Qed.

(** C1, as stated, fails for its third substring: a thrown string that
    contains "LLM extraction did not match the extraction schema" but
    not the words that follow it in the source is thrown on, not turned
    into a 500 result. *)
Lemma short_llm_message_is_rethrown :
  let w := sampleScrapeWorld (Threw (StringVal shortLlmMessage)) in
  let body := sampleBody "https://example.com" None in
  urlSchema_parse w (url body) = Returned (Some "https://example.com") /\
  isUrlBlocked w "https://example.com" None = false /\
  getJobPriority w = Returned 10 /\
  addScrapeJob w = Returned tt /\
  includes shortLlmMessage
    "LLM extraction did not match the extraction schema" = true /\
  fst (run (scrapeHelper w "9c4e" body "team-1"
              (defaultPageOptions sampleDefaults)
              (defaultExtractorOptions sampleDefaults) 100 None)) =
    Threw (StringVal shortLlmMessage).
Proof.
  cbv zeta. repeat split.
Qed.

(** C1, amended.  For a v0 scrape request that reaches the wait for
    completion and whose wait fails with [e]:
    if [e] is an [Error] whose message starts with "Job wait" or is
    "timeout", [scrapeHelper] returns
    [{success: false, error: "Request timed out", returnCode: 408}];
    if [e] is a string containing "Error generating completions: ",
    "Invalid schema for function" or "LLM extraction did not match the
    extraction schema you provided.", it returns
    [{success: false, returnCode: 500}] with that string as the error;
    any other [e] is thrown on by [scrapeHelper]. *)
Theorem wait_failure_handling (w : World) (jobId : string) (body : Body)
    (team_id : string) (pageOptions : PageOptions)
    (extractorOptions : ExtractorOptions) (timeout : Z)
    (flags : option TeamFlags) (u : string) (priority : Z) (e : Thrown) :
  urlSchema_parse w (url body) = Returned (Some u) ->
  isUrlBlocked w u flags = false ->
  getJobPriority w = Returned priority ->
  addScrapeJob w = Returned tt ->
  waitForJob w = Threw e ->
  let result :=
    fst (run (scrapeHelper w jobId body team_id pageOptions extractorOptions
                timeout flags)) in
  (forall zod m,
      e = ErrorObj zod m ->
      startsWith m "Job wait" = true \/ m = "timeout" ->
      result = Returned {| success := false;
                           error := Some "Request timed out";
                           data := None;
                           returnCode := 408 |}) /\
  (forall s,
      e = StringVal s ->
      includes s "Error generating completions: " = true \/
      includes s "Invalid schema for function" = true \/
      includes s
        "LLM extraction did not match the extraction schema you provided." = true ->
      result = Returned {| success := false;
                           error := Some s;
                           data := None;
                           returnCode := 500 |}) /\
  ((forall zod m,
       e = ErrorObj zod m ->
       startsWith m "Job wait" = false /\ m <> "timeout") ->
   (forall s,
       e = StringVal s ->
       includes s "Error generating completions: " = false /\
       includes s "Invalid schema for function" = false /\
       includes s
         "LLM extraction did not match the extraction schema you provided." = false) ->
   result = Threw e).
Proof.
  intros Hparse Hallowed Hpriority Henqueue Hwait result.
  unfold result, run.
  rewrite (helper_wait_throws w jobId body team_id pageOptions
             extractorOptions timeout flags u priority
             Hparse Hallowed Hpriority Henqueue [] e Hwait).
  split; [| split].
  - intros zod m -> Hm. simpl isTimeoutError.
    destruct Hm as [-> | ->]; [reflexivity |].
    now rewrite orb_true_r.
  - intros s -> Hs. simpl.
    destruct Hs as [-> | [-> | ->]]; rewrite ?orb_true_r; reflexivity.
  - intros Herr Hstr. destruct e as [zod m | s | m].
    + destruct (Herr zod m eq_refl) as [Hstart Hne]. simpl.
      rewrite Hstart.
      destruct (String.eqb_spec m "timeout"); [contradiction | reflexivity].
    + destruct (Hstr s eq_refl) as (H1 & H2 & H3). simpl.
      now rewrite H1, H2, H3.
    + reflexivity.
Qed.

Lemma wait_failure_handling_witness :
  fst (run (scrapeHelper
              (sampleScrapeWorld (Threw (ErrorObj false "Job wait timed out")))
              "9c4e" (sampleBody "https://example.com" None) "team-1"
              (defaultPageOptions sampleDefaults)
              (defaultExtractorOptions sampleDefaults) 100 None)) =
    Returned {| success := false;
                error := Some "Request timed out";
                data := None;
                returnCode := 408 |}.
Proof.
  refine (proj1 (wait_failure_handling
            (sampleScrapeWorld (Threw (ErrorObj false "Job wait timed out")))
            "9c4e" (sampleBody "https://example.com" None) "team-1"
            (defaultPageOptions sampleDefaults)
            (defaultExtractorOptions sampleDefaults) 100 None
            "https://example.com" 10 (ErrorObj false "Job wait timed out")
            eq_refl eq_refl eq_refl eq_refl eq_refl)
            false "Job wait timed out" eq_refl _).
  left. reflexivity.
Defined.

Lemma controller_answers_early w body resp log0 :
  run (admission w body) = (Returned (inl resp), log0) ->
  run (scrapeController w body) = (Returned (Some resp), log0).
Proof.
  unfold run, scrapeController, try_catch. intros H.
  unfold bind at 1. now rewrite H.
Qed.

Lemma controller_admission_threw w body e log0 :
  run (admission w body) = (Threw e, log0) ->
  run (scrapeController w body) =
    (Returned (Some {| status := 500; json := ErrorBody (errorMessage e) |}),
     log0 ++ [SentryCaptureException e; LoggerError "Scrape error occcurred"]).
Proof.
  unfold run, scrapeController, try_catch. intros H.
  unfold bind at 1. rewrite H. unfold bind, emit, ret.
  now rewrite <- app_assoc.
Qed.

(** The answer of the controller does not look at the billing queue. *)
Lemma response_ignores_billing w body o :
  fst (run (scrapeController (withQueueBillingOperation o w) body)) =
  fst (run (scrapeController w body)).
Proof.
  destruct (run (admission w body)) as [[[resp | a] | e] log0] eqn:E;
    pose proof E as E';
    change (admission w body)
      with (admission (withQueueBillingOperation o w) body) in E'.
  - rewrite (controller_answers_early _ _ _ _ E').
    now rewrite (controller_answers_early _ _ _ _ E).
  - rewrite (controller_after_admission _ _ _ _ E').
    rewrite (controller_after_admission _ _ _ _ E).
    destruct (scrapeHelper w (adm_jobId a) body (adm_team_id a)
                (adm_pageOptions a) (adm_extractorOptions a) (adm_timeout a)
                (chunk_flags (adm_chunk a)) log0) as [[r | e] log1] eqn:Eh.
    + destruct (dispatch_returned w body a log0 r log1 Eh) as (x & -> & _).
      destruct (dispatch_returned (withQueueBillingOperation o w) body a log0
                  r log1 Eh) as (x' & -> & _).
      reflexivity.
    + rewrite (dispatch_threw w body a log0 e log1 Eh).
      rewrite (dispatch_threw (withQueueBillingOperation o w) body a log0
                 e log1 Eh).
      reflexivity.
  - rewrite (controller_admission_threw _ _ _ _ E').
    now rewrite (controller_admission_threw _ _ _ _ E).
Qed.

(** The billing calls of a run of the controller. *)
Lemma controller_billTeamCalls w body :
  billTeamCalls (snd (run (scrapeController w body))) =
    match helperOutcome w body with
    | Some (a, Returned r) =>
        if success r
        then [(adm_team_id a, adm_sub_id a,
               if includes (mode (adm_extractorOptions a)) "llm-extraction"
               then 5 else 1)]
        else []
    | _ => []
    end.
Proof.
  unfold helperOutcome.
  destruct (run (admission w body)) as [[[resp | a] | e] log0] eqn:E;
    try (apply (controller_not_admitted _ _ _ _ E); intros; discriminate).
  rewrite (controller_after_admission _ _ _ _ E).
  pose proof (admission_run_noBilling _ _ _ _ E) as Hquiet.
  destruct (scrapeHelper w (adm_jobId a) body (adm_team_id a)
              (adm_pageOptions a) (adm_extractorOptions a) (adm_timeout a)
              (chunk_flags (adm_chunk a)) log0) as [[r | e] log1] eqn:Eh;
    destruct (scrapeHelper_frame _ _ _ _ _ _ _ _ _ _ _ Eh) as [Hframe _].
  - destruct (dispatch_returned w body a log0 r log1 Eh) as (x & -> & Hx & _).
    simpl. now rewrite billTeamCalls_app, Hframe, Hquiet, Hx.
  - rewrite (dispatch_threw w body a log0 e log1 Eh). simpl.
    now rewrite billTeamCalls_app, Hframe, Hquiet.
Qed.

(** C3.  In a run of the v0 scrape controller [billTeam] is invoked if
    and only if [scrapeHelper] was called and returned a result with
    [success = true], and then once, with 5 credits when the extractor
    mode contains "llm-extraction" and with 1 credit otherwise; a result
    with return code 408 leads to no billing call; and the answer of the
    controller is the same whatever the billing queue does, a rejection
    being logged only. *)
Theorem billing_follows_success (w : World) (body : Body) :
  billTeamCalls (snd (run (scrapeController w body))) =
    match helperOutcome w body with
    | Some (a, Returned r) =>
        if success r
        then [(adm_team_id a, adm_sub_id a,
               if includes (mode (adm_extractorOptions a)) "llm-extraction"
               then 5 else 1)]
        else []
    | _ => []
    end /\
  (forall a r,
      helperOutcome w body = Some (a, Returned r) ->
      returnCode r = 408 ->
      billTeamCalls (snd (run (scrapeController w body))) = []) /\
  (forall o,
      fst (run (scrapeController (withQueueBillingOperation o w) body)) =
      fst (run (scrapeController w body))) /\
  (forall a r e,
      helperOutcome w body = Some (a, Returned r) ->
      success r = true ->
      WithAuth.bypassed (env w) = false ->
      CreditBilling.queueBillingOperation (billing w) = Threw e ->
      In (LoggerError "Failed to bill team")
         (snd (run (scrapeController w body))) /\
      fst (run (scrapeController w body)) = Returned (Some (respondWith a r))).
Proof.
  pose proof (controller_billTeamCalls w body) as Hcalls.
  split; [exact Hcalls |]. split; [| split].
  - intros a r Hout Hcode. rewrite Hcalls, Hout.
    unfold helperOutcome in Hout.
    destruct (run (admission w body)) as [[[resp | a'] | e] log0];
      try discriminate.
    injection Hout as <- Hout.
    destruct (scrapeHelper w (adm_jobId a') body (adm_team_id a')
                (adm_pageOptions a') (adm_extractorOptions a') (adm_timeout a')
                (chunk_flags (adm_chunk a')) log0) as [o log1] eqn:Eh.
    destruct (scrapeHelper_frame _ _ _ _ _ _ _ _ _ _ _ Eh) as [_ Hres].
    simpl in Hout. destruct (Hres r Hout) as [_ H408].
    now rewrite (H408 Hcode).
  - apply response_ignores_billing.
  - intros a r e Hout Hsuccess Hby Hq.
    unfold helperOutcome in Hout.
    destruct (run (admission w body)) as [[[resp | a'] | e'] log0] eqn:E;
      try discriminate.
    injection Hout as <- Hout.
    rewrite (controller_after_admission _ _ _ _ E).
    destruct (scrapeHelper w (adm_jobId a') body (adm_team_id a')
                (adm_pageOptions a') (adm_extractorOptions a') (adm_timeout a')
                (chunk_flags (adm_chunk a')) log0) as [o log1] eqn:Eh.
    simpl in Hout. subst o.
    destruct (dispatch_returned w body a' log0 r log1 Eh)
      as (x & -> & _ & Hrej).
    simpl. split; [| reflexivity].
    apply in_or_app. right. exact (Hrej Hsuccess e Hby Hq).
Qed.

Lemma billing_follows_success_witness :
  billTeamCalls
    (snd (run (scrapeController
                 (sampleScrapeWorld (Returned (Some sampleDocument)))
                 (sampleBody "https://example.com"
                    (Some {| body_mode := Some "llm-extraction";
                             body_extractionSchema := Some SchemaObject |}))))) =
    [("team-1"%string, Some "sub_1"%string, 5)] /\
  billTeamCalls
    (snd (run (scrapeController
                 (sampleScrapeWorld (Threw (ErrorObj false "timeout")))
                 (sampleBody "https://example.com" None)))) = [].
Proof.
  split.
  - exact (proj1 (billing_follows_success
                    (sampleScrapeWorld (Returned (Some sampleDocument)))
                    (sampleBody "https://example.com"
                       (Some {| body_mode := Some "llm-extraction";
                                body_extractionSchema := Some SchemaObject |})))).
  - exact (proj1 (billing_follows_success
                    (sampleScrapeWorld (Threw (ErrorObj false "timeout")))
                    (sampleBody "https://example.com" None))).
Defined.

(** An admitted request whose URL fails [urlSchema.parse] is answered
    500 with "Invalid URL": the [ZodError] leaves [scrapeHelper] and is
    caught by the controller. *)
Lemma invalid_url_is_answered_500 w body a log0 message :
  run (admission w body) = (Returned (inr a), log0) ->
  urlSchema_parse w (url body) = Threw (ErrorObj true message) ->
  fst (run (scrapeController w body)) =
    Returned (Some {| status := 500; json := ErrorBody "Invalid URL" |}).
Proof.
  intros Hadm Hparse. rewrite (controller_after_admission _ _ _ _ Hadm).
  rewrite (dispatch_threw w body a log0 (ErrorObj true message) log0);
    [reflexivity |].
  unfold scrapeHelper. unfold bind at 1. unfold lift. now rewrite Hparse.
Qed.

(** C8 fails on the code.  An authenticated team with credits posts
    [{url: "not a url"}]: the request is admitted, [urlSchema.parse]
    throws, and the answer is 500 with "Invalid URL", not 400; no job is
    enqueued and nothing is billed. *)
Theorem invalid_url_gets_500_not_400 :
  let w := sampleScrapeWorld (Returned (Some sampleDocument)) in
  let body := sampleBody "not a url" None in
  urlSchema_parse w (url body) = Threw (ErrorObj true "Invalid url") /\
  run (scrapeController w body) =
    (Returned (Some {| status := 500; json := ErrorBody "Invalid URL" |}),
     [Sadd "teams_using_v0" "team-1";
      SentryCaptureException (ErrorObj true "Invalid url");
      LoggerError "Scrape error occcurred"]).
Proof.
  cbv zeta. split; reflexivity.
Qed.



End V0ScrapeSpec.

(* ===================================================================== *)
(** * Properties of the progress streamer *)
(* ===================================================================== *)

Module CrawlStatusWSSpec.
Import CrawlStatusWS.

Lemma includesId_In l x : includesId l x = true <-> In x l.
Proof.
  unfold includesId. rewrite existsb_exists. split.
  - intros (y & Hy & Heq). apply String.eqb_eq in Heq. now subst.
  - intros H. exists x. split; [exact H | apply String.eqb_refl].
Qed.

(** ** One iteration *)

Lemma newlyDoneJobIDs_filter p s :
  newlyDoneJobIDs p s =
  filter (fun x => isTerminal (getJobState p x)) (notDoneJobIDs p s).
Proof.
  unfold newlyDoneJobIDs.
  induction (notDoneJobIDs p s) as [| x l IH]; simpl; [reflexivity |].
  destruct (isTerminal (getJobState p x)); simpl; now rewrite IH.
Qed.

Lemma newlyDoneJobIDs_In p s x :
  In x (newlyDoneJobIDs p s) <->
  In x (getCrawlJobs p) /\ ~ In x (doneJobIDs s) /\
  isTerminal (getJobState p x) = true.
Proof.
  rewrite newlyDoneJobIDs_filter. unfold notDoneJobIDs.
  rewrite !filter_In, negb_true_iff.
  pose proof (includesId_In (doneJobIDs s) x) as Hin.
  destruct (includesId (doneJobIDs s) x).
  - split; [intros [[_ H] _]; discriminate |].
    intros (_ & Hnot & _). destruct Hnot. now apply Hin.
  - split; [intros [[Hj _] Ht] | intros (Hj & _ & Ht)]; repeat split; auto.
    intros H. apply Hin in H. discriminate.
Qed.

Lemma newlyDoneJobIDs_NoDup p s :
  NoDup (getCrawlJobs p) -> NoDup (newlyDoneJobIDs p s).
Proof.
  intros H. rewrite newlyDoneJobIDs_filter. unfold notDoneJobIDs.
  now do 2 apply NoDup_filter.
Qed.

(** The jobs fetched for a list of ids carry ids of that list, in its
    order and without repetition. *)
Lemma definedJobs_ids (getJob : string -> option Job) l :
  (forall x j, getJob x = Some j -> id j = x) ->
  map id (definedJobs (map getJob l)) =
  filter (fun x => match getJob x with Some _ => true | None => false end) l.
Proof.
  intros Hid. induction l as [| x l IH]; simpl; [reflexivity |].
  destruct (getJob x) as [j |] eqn:E; simpl; [| exact IH].
  now rewrite (Hid x j E), IH.
Qed.

Lemma NoDup_map_filter {A B} (g : A -> B) (f : A -> bool) l :
  NoDup (map g l) -> NoDup (map g (filter f l)).
Proof.
  induction l as [| a l IH]; simpl; [auto |].
  intros H. apply NoDup_cons_iff in H as [Hnot Hl].
  destruct (f a); simpl; [| auto].
  constructor; [| auto].
  intros Hin. apply Hnot. apply in_map_iff in Hin as (b & Hb & Hin).
  apply filter_In in Hin as [Hin _]. apply in_map_iff. eauto.
Qed.

Lemma framedJobs_newlyDone p s j :
  In j (framedJobs p s) -> In j (newlyDoneJobs p s).
Proof.
  unfold framedJobs.
  destruct (finished s); [intros [] |].
  destruct (_ =? _); [intros [] |].
  destruct (readyState p =? 1); [| intros []].
  intros H. now apply filter_In in H.
Qed.

Lemma framedJobs_ids_newlyDone p s x :
  wellFormed p ->
  In x (map id (framedJobs p s)) -> In x (newlyDoneJobIDs p s).
Proof.
  intros [_ Hid] Hin. apply in_map_iff in Hin as (j & <- & Hj).
  apply framedJobs_newlyDone in Hj.
  assert (H : In (id j) (map id (newlyDoneJobs p s)))
    by (apply in_map_iff; eauto).
  unfold newlyDoneJobs in H. rewrite (definedJobs_ids _ _ Hid) in H.
  now apply filter_In in H.
Qed.

Lemma framedJobs_NoDup p s :
  wellFormed p -> NoDup (map id (framedJobs p s)).
Proof.
  intros [Hset Hid]. unfold framedJobs.
  destruct (finished s); [constructor |].
  destruct (_ =? _); [constructor |].
  destruct (readyState p =? 1); [| constructor].
  apply NoDup_map_filter. unfold newlyDoneJobs.
  rewrite (definedJobs_ids _ _ Hid).
  now apply NoDup_filter, newlyDoneJobIDs_NoDup.
Qed.

(** What [loop] does to the session. *)
Lemma loop_again p s s' :
  loop p s = (s', true) ->
  doneJobIDs s' = doneJobIDs s ++ newlyDoneJobIDs p s /\
  finished s' = finished s.
Proof.
  unfold loop. destruct (finished s); [discriminate |].
  destruct (_ =? _); [discriminate |].
  intros [= <-]. split; reflexivity.
Qed.

Lemma documentFrames_app l1 l2 :
  documentFrames (l1 ++ l2) = documentFrames l1 ++ documentFrames l2.
Proof.
  induction l1 as [| e l1 IH]; simpl; [reflexivity |].
  destruct e as [[| |] | ]; simpl; now rewrite IH.
Qed.

Lemma sendDocuments_frames p jobs :
  documentFrames (sendDocuments p jobs) =
  if readyState p =? 1 then flat_map frameData jobs else [].
Proof.
  induction jobs as [| j jobs IH]; simpl.
  - now destruct (readyState p =? 1).
  - unfold frameData at 1. destruct (returnvalue j); simpl; [| exact IH].
    rewrite documentFrames_app, IH. unfold send.
    now destruct (readyState p =? 1).
Qed.

Lemma frameData_filter jobs :
  flat_map frameData
    (filter (fun j => match returnvalue j with Some _ => true | None => false end)
       jobs) = flat_map frameData jobs.
Proof.
  induction jobs as [| j jobs IH]; simpl; [reflexivity |].
  unfold frameData at 2. destruct (returnvalue j) eqn:E; simpl; [| exact IH].
  unfold frameData at 1. now rewrite E, IH.
Qed.

(** The document frames [loop] adds are those of [framedJobs]. *)
Lemma loop_frames p s :
  documentFrames (events (fst (loop p s))) =
  documentFrames (events s) ++ flat_map frameData (framedJobs p s).
Proof.
  unfold loop, framedJobs.
  destruct (finished s); [simpl; now rewrite app_nil_r |].
  destruct (_ =? _).
  - simpl. rewrite documentFrames_app. unfold close.
    destruct (readyState p <=? 1); reflexivity.
  - simpl. rewrite documentFrames_app, sendDocuments_frames.
    destruct (readyState p =? 1); [now rewrite frameData_filter | reflexivity].
Qed.

Lemma loop_stops_quiet p s s' :
  loop p s = (s', false) -> framedJobs p s = [].
Proof.
  unfold loop, framedJobs. destruct (finished s); [reflexivity |].
  destruct (_ =? _); [reflexivity | discriminate].
Qed.

(** ** A whole session *)

Lemma session_frames polls s :
  documentFrames (events (pollLoop polls s)) =
  documentFrames (events s) ++ flat_map frameData (framedInSession polls s).
Proof.
  revert s. induction polls as [| p rest IH]; intros s; simpl.
  - now rewrite app_nil_r.
  - pose proof (loop_frames p s) as Hstep.
    destruct (loop p s) as [s' again]. simpl in Hstep.
    rewrite flat_map_app, app_assoc, <- Hstep.
    destruct again; [apply IH | simpl; now rewrite app_nil_r].
Qed.

(** The ids framed in a session are pairwise distinct and were not in
    [doneJobIDs] when the session started polling. *)
Lemma session_fresh polls s :
  Forall wellFormed polls ->
  NoDup (map id (framedInSession polls s)) /\
  forall x, In x (map id (framedInSession polls s)) -> ~ In x (doneJobIDs s).
Proof.
  intros Hwf. revert s.
  induction Hwf as [| p rest Hp _ IH]; intros s; simpl.
  - split; [constructor | intros x []].
  - destruct (loop p s) as [s' again] eqn:E.
    assert (Hhead : forall x, In x (map id (framedJobs p s)) ->
                              In x (newlyDoneJobIDs p s))
      by (intros x; now apply framedJobs_ids_newlyDone).
    rewrite map_app. destruct again.
    + destruct (IH s') as [Hnodup Hfresh].
      destruct (loop_again p s s' E) as [Hdone _].
      split.
      * apply NoDup_app; [now apply framedJobs_NoDup | exact Hnodup |].
        intros x Hx Htail. apply (Hfresh x Htail).
        rewrite Hdone. apply in_or_app. right. now apply Hhead.
      * intros x Hx. apply in_app_or in Hx as [Hx | Hx].
        -- apply Hhead, newlyDoneJobIDs_In in Hx. tauto.
        -- intros Hin. apply (Hfresh x Hx). rewrite Hdone.
           apply in_or_app. now left.
    + rewrite (loop_stops_quiet p s s' E). simpl.
      split; [constructor | intros x []].
Qed.

End CrawlStatusWSSpec.

(* ===================================================================== *)
(** * Computations and their logs *)
(* ===================================================================== *)

Module MonadSpec.

Section Tame.
Context {E : Type} (P : E -> bool).

Lemma tame_ret {A} (a : A) : tame P (@ret E A a).
Proof. split; [reflexivity |]. intros log. cbn. now rewrite app_nil_r. Qed.

Lemma tame_throw {A} e : tame P (@throw E A e).
Proof. split; [reflexivity |]. intros log. cbn. now rewrite app_nil_r. Qed.

Lemma tame_lift {A} (o : Outcome A) : tame P (@lift E A o).
Proof. split; [reflexivity |]. intros log. cbn. now rewrite app_nil_r. Qed.

Lemma tame_emit e : P e = true -> tame P (emit e).
Proof. intros He. split; [cbn; now rewrite He | reflexivity]. Qed.

Lemma tame_bind {A B} (m : M E A) (k : A -> M E B) :
  tame P m -> (forall a, tame P (k a)) -> tame P (bind m k).
Proof.
  intros [Pm Hm] Hk. unfold tame, run in *.
  assert (Hat : forall log,
             bind m k log =
             match fst (m []) with
             | Returned a => (fst (k a []), log ++ snd (m []) ++ snd (k a []))
             | Threw e => (Threw e, log ++ snd (m []))
             end).
  { intros log. unfold bind. rewrite (Hm log).
    destruct (fst (m [])) as [a | e]; [| reflexivity].
    destruct (Hk a) as [_ Hka]. unfold run in Hka.
    rewrite Hka. now rewrite app_assoc. }
  split.
  - rewrite (Hat []). destruct (fst (m [])) as [a | e]; cbn; [| exact Pm].
    destruct (Hk a) as [Pk _]. unfold run in Pk.
    now rewrite forallb_app, Pm, Pk.
  - intros log. rewrite (Hat log), (Hat []).
    destruct (fst (m [])); reflexivity.
Qed.

Lemma tame_try_catch {A} (m : M E A) (h : Thrown -> M E A) :
  tame P m -> (forall e, tame P (h e)) -> tame P (try_catch m h).
Proof.
  intros [Pm Hm] Hh. unfold tame, run in *.
  assert (Hat : forall log,
             try_catch m h log =
             match fst (m []) with
             | Returned a => (Returned a, log ++ snd (m []))
             | Threw e => (fst (h e []), log ++ snd (m []) ++ snd (h e []))
             end).
  { intros log. unfold try_catch. rewrite (Hm log).
    destruct (fst (m [])) as [a | e]; [reflexivity |].
    destruct (Hh e) as [_ Hhe]. unfold run in Hhe.
    rewrite Hhe. now rewrite app_assoc. }
  split.
  - rewrite (Hat []). destruct (fst (m [])) as [a | e]; cbn; [exact Pm |].
    destruct (Hh e) as [Ph _]. unfold run in Ph.
    now rewrite forallb_app, Pm, Ph.
  - intros log. rewrite (Hat log), (Hat []).
    destruct (fst (m [])); reflexivity.
Qed.

Lemma tame_when b (m : M E unit) : tame P m -> tame P (when b m).
Proof. destruct b; [auto | intros _; apply tame_ret]. Qed.

Lemma tame_if {A} (b : bool) (m1 m2 : M E A) :
  tame P m1 -> tame P m2 -> tame P (if b then m1 else m2).
Proof. now destruct b. Qed.
End Tame.

(** A tame computation run after some log: same outcome, its own
    effects appended. *)
Lemma tame_run {E A} (P : E -> bool) (m : M E A) o extra log :
  tame P m -> run m = (o, extra) -> m log = (o, log ++ extra).
Proof. intros [_ Hm] Hrun. rewrite (Hm log), Hrun. reflexivity. Qed.

Lemma tame_effects {E A} (P : E -> bool) (m : M E A) e :
  tame P m -> In e (snd (run m)) -> P e = true.
Proof.
  intros [Pm _] Hin. rewrite forallb_forall in Pm. now apply Pm.
Qed.

Lemma tame_weaken {E A} (P Q : E -> bool) (m : M E A) :
  (forall e, P e = true -> Q e = true) -> tame P m -> tame Q m.
Proof.
  intros HPQ [Pm Hm]. split; [| exact Hm].
  rewrite forallb_forall in *. auto.
Qed.

Create HintDb tame.
#[export] Hint Resolve tame_ret tame_throw tame_lift tame_when tame_if : tame.
#[export] Hint Extern 1 (tame _ (emit _)) =>
  apply tame_emit; reflexivity : tame.

Ltac tame :=
  repeat first
    [ progress auto with tame
    | apply tame_bind; [| intros ?]
    | apply tame_try_catch; [| intros ?]
    | apply tame_when
    | apply tame_if
    | match goal with
      | |- tame _ (match ?x with _ => _ end) => destruct x
      | |- tame _ (let '(_, _) := ?x in _) => destruct x
      end ].

End MonadSpec.

(* ===================================================================== *)
(** * More on the credit check and on billing *)
(* ===================================================================== *)

Module CreditBillingMore.
Import V0 CreditBilling MonadSpec.

Lemma autoCharges_app (l1 l2 : list Effect) :
  autoCharges (l1 ++ l2) = autoCharges l1 ++ autoCharges l2.
Proof.
  induction l1 as [| e l1 IH]; simpl; [reflexivity |].
  destruct e; simpl; rewrite ?IH; reflexivity.
Qed.

Lemma queuedOperations_app (l1 l2 : list Effect) :
  queuedOperations (l1 ++ l2) = queuedOperations l1 ++ queuedOperations l2.
Proof.
  induction l1 as [| e l1 IH]; simpl; [reflexivity |].
  destruct e; simpl; rewrite ?IH; reflexivity.
Qed.

Lemma withAuth_tame {T} P aw (f : M Effect T) (mock : T) :
  P (LoggerWarn "You're bypassing authentication") = true ->
  P WarningCountIncr = true ->
  tame P f -> tame P (WithAuth.withAuth aw f mock).
Proof.
  intros Hwarn Hincr Hf. unfold WithAuth.withAuth.
  apply tame_if; [| exact Hf].
  apply tame_bind; [| intros; apply tame_ret].
  apply tame_when. apply tame_bind; [| intros ?]; now apply tame_emit.
Qed.

Lemma supaCheckTeamCredits_tame w chunk team_id credits :
  tame isCheckEffect (supaCheckTeamCredits w chunk team_id credits).
Proof. unfold supaCheckTeamCredits, loadAutoRecharge. tame. Qed.

Lemma checkTeamCredits_tame w chunk team_id credits :
  tame isCheckEffect (checkTeamCredits w chunk team_id credits).
Proof.
  unfold checkTeamCredits.
  apply withAuth_tame; [reflexivity | reflexivity |].
  apply supaCheckTeamCredits_tame.
Qed.

(** The log of a credit check carries no billing-queue operation. *)
Lemma checkEffects_queue_nothing log :
  forallb isCheckEffect log = true -> queuedOperations log = [].
Proof.
  induction log as [| e log IH]; simpl; [reflexivity |].
  rewrite andb_true_iff. intros [He Hlog].
  destruct e; try discriminate; auto.
Qed.

Lemma loadAutoRecharge_no_charge w team_id o log :
  run (loadAutoRecharge w team_id) = (o, log) -> autoCharges log = [].
Proof.
  unfold run, loadAutoRecharge, bind, lift, emit, ret.
  destruct (getValue w) as [[cached |] | e];
    [ | destruct (teamsRow w) as [[d |] | e'] | ];
    intros H; injection H as _ <-; reflexivity.
Qed.

(** ** [withAuth] and [checkTeamCredits] *)

(** X1.  A preview team (id ["preview"], or starting with ["preview_"]
    or ["env_"]) passes every credit check with unlimited remaining
    credits, whatever its chunk (a null one included) and the credits
    asked for, in every configuration; the check then reads no setting,
    attempts no recharge and sends no notification. *)
Theorem preview_team_is_always_admitted (w : World)
    (chunk : option AuthCreditUsageChunk) (team_id : string) (credits : Z) :
  team_id = "preview" \/
  startsWith team_id "preview_" = true \/
  startsWith team_id "env_" = true ->
  exists r log,
    run (checkTeamCredits w chunk team_id credits) = (Returned r, log) /\
    success r = true /\
    remainingCredits r = Infinity /\
    notifications log = [] /\
    autoCharges log = [] /\
    (WithAuth.bypassed (WithAuth.env (auth w)) = false -> log = []).
Proof.
  intros Hteam.
  assert (Hpreview : isPreviewTeam team_id = true).
  { unfold isPreviewTeam. destruct Hteam as [-> | [-> | ->]];
      rewrite ?orb_true_r; reflexivity. }
  unfold run, checkTeamCredits, WithAuth.withAuth, supaCheckTeamCredits.
  rewrite Hpreview.
  destruct (WithAuth.bypassed (WithAuth.env (auth w))).
  - destruct (Nat.ltb (WithAuth.warningCount (auth w)) 5);
      eexists _, _; (split; [reflexivity |]); repeat split; discriminate.
  - eexists _, _. split; [reflexivity |]. repeat split.
Qed.

Lemma preview_team_is_always_admitted_witness :
  exists r log,
    run (checkTeamCredits sampleBillingWorld None "preview_playground" 1000000) =
      (Returned r, log) /\
    success r = true /\ remainingCredits r = Infinity /\ log = [].
Proof.
  destruct (preview_team_is_always_admitted sampleBillingWorld None
              "preview_playground" 1000000)
    as (r & log & Hrun & Hs & Hrem & _ & _ & Hlog).
  - right. left. reflexivity.
  - exists r, log. repeat split; auto.
Defined.

(** X2.  With neither DB authentication nor an allow-list configured,
    [checkTeamCredits] admits every team with unlimited remaining
    credits without looking at the chunk or at any store, and it logs
    its warning only while the warning counter is below 5. *)
Theorem bypass_admits_everything (w : World)
    (chunk : option AuthCreditUsageChunk) (team_id : string) (credits : Z) :
  useDbAuthentication (WithAuth.env (auth w)) = false ->
  WithAuth.hasAllowedKeys (WithAuth.env (auth w)) = false ->
  exists r,
    run (checkTeamCredits w chunk team_id credits) =
      (Returned r,
       if Nat.ltb (WithAuth.warningCount (auth w)) 5
       then [LoggerWarn "You're bypassing authentication"; WarningCountIncr]
       else []) /\
    success r = true /\
    remainingCredits r = Infinity /\
    message r = "No DB, bypassed".
Proof.
  intros Hdb Hkeys.
  unfold run, checkTeamCredits, WithAuth.withAuth, WithAuth.bypassed.
  rewrite Hdb, Hkeys. simpl negb. simpl andb.
  destruct (Nat.ltb (WithAuth.warningCount (auth w)) 5);
    eexists; (split; [reflexivity |]); repeat split.
Qed.

Lemma bypass_admits_everything_witness :
  (exists r,
      run (checkTeamCredits (bypassWorld 4) None "team-1" 1) =
        (Returned r,
         [LoggerWarn "You're bypassing authentication"; WarningCountIncr]) /\
      success r = true) /\
  (exists r,
      run (checkTeamCredits (bypassWorld 5) (Some (sampleChunk 900 500))
             "team-1" 1) = (Returned r, []) /\
      success r = true).
Proof.
  split.
  - destruct (bypass_admits_everything (bypassWorld 4) None "team-1" 1
                eq_refl eq_refl) as (r & Hrun & Hs & _).
    exists r. split; [exact Hrun | exact Hs].
  - destruct (bypass_admits_everything (bypassWorld 5)
                (Some (sampleChunk 900 500)) "team-1" 1
                eq_refl eq_refl) as (r & Hrun & Hs & _).
    exists r. split; [exact Hrun | exact Hs].
Defined.

(** X3.  When the team is on auto-recharge, has fewer remaining credits
    than its threshold, the call is not an extract call and the recharge
    succeeds, the check admits with the recharge's message, remaining
    credits and chunk, however many credits are asked for and however
    far the old chunk is over its total; it makes exactly one recharge
    attempt and sends no notification. *)
Theorem successful_recharge_admits (w : World) (c : AuthCreditUsageChunk)
    (team_id : string) (credits : Z) (threshold : Z) (log0 : list Effect)
    (r0 : AutoChargeResult) :
  isPreviewTeam team_id = false ->
  WithAuth.bypassed (WithAuth.env (auth w)) = false ->
  run (loadAutoRecharge w team_id) = (Returned (true, threshold), log0) ->
  remaining_credits c < threshold ->
  truthy (is_extract c) = false ->
  autoCharge w = Returned r0 ->
  ac_success r0 = true ->
  run (checkTeamCredits w (Some c) team_id credits) =
    (Returned {| success := true;
                 message := ac_message r0;
                 remainingCredits := Fin (ac_remainingCredits r0);
                 chunk := Some (ac_chunk r0) |},
     log0 ++ [LoggerInfo "Auto-recharge triggered"; AutoCharge c threshold]) /\
  notifications (snd (run (checkTeamCredits w (Some c) team_id credits))) = [] /\
  autoCharges (snd (run (checkTeamCredits w (Some c) team_id credits))) =
    [(c, threshold)].
Proof.
  intros Hteam Hby Hload Hlow Hextract Hcharge Hok.
  pose proof (CreditBillingSpec.loadAutoRecharge_quiet _ _ _ _ Hload) as Hquiet.
  pose proof (loadAutoRecharge_no_charge _ _ _ _ Hload) as Hquiet'.
  assert (Hrun :
    run (checkTeamCredits w (Some c) team_id credits) =
      (Returned {| success := true;
                   message := ac_message r0;
                   remainingCredits := Fin (ac_remainingCredits r0);
                   chunk := Some (ac_chunk r0) |},
       log0 ++ [LoggerInfo "Auto-recharge triggered"; AutoCharge c threshold])).
  { unfold run in *. unfold checkTeamCredits, WithAuth.withAuth.
    rewrite Hby. unfold supaCheckTeamCredits. rewrite Hteam.
    unfold bind at 1. rewrite Hload.
    apply Z.ltb_lt in Hlow. rewrite Hlow, Hextract. simpl andb.
    unfold bind, emit, lift, ret. rewrite Hcharge, Hok.
    now rewrite <- app_assoc. }
  rewrite Hrun. simpl snd.
  rewrite CreditBillingSpec.notifications_app, autoCharges_app, Hquiet, Hquiet'.
  repeat split.
Qed.

Lemma successful_recharge_admits_witness :
  exists r log,
    run (checkTeamCredits (rechargingWorld (sampleChunk 0 1500))
           (Some (sampleChunk 900 500)) "team-1" 250) = (Returned r, log) /\
    success r = true /\
    chunk r = Some (sampleChunk 0 1500) /\
    notifications log = [].
Proof.
  destruct (successful_recharge_admits (rechargingWorld (sampleChunk 0 1500))
              (sampleChunk 900 500) "team-1" 250 1000
              [SetValue "team_auto_recharge_team-1"
                 {| auto_recharge := true; auto_recharge_threshold := 1000 |} 300]
              {| ac_success := true;
                 ac_message := "Auto-recharge successful";
                 ac_remainingCredits := 1000;
                 ac_chunk := sampleChunk 0 1500 |})
    as (Hrun & Hnote & _).
  - reflexivity.
  - reflexivity.
  - reflexivity.
  - reflexivity.
  - reflexivity.
  - reflexivity.
  - reflexivity.
  - eexists _, _. split; [exact Hrun |]. simpl.
    split; [reflexivity |]. split; [reflexivity |].
    rewrite Hrun in Hnote. exact Hnote.
Defined.

(** X4.  Whatever the stores answer, one credit check sends at most one
    notification and makes at most one recharge attempt; a LIMIT_REACHED
    notification goes only with a denial and an APPROACHING_LIMIT
    notification only with an admission. *)
Theorem at_most_one_notification (w : World)
    (chunk : option AuthCreditUsageChunk) (team_id : string) (credits : Z) :
  (length (notifications
             (snd (run (supaCheckTeamCredits w chunk team_id credits)))) <= 1)%nat /\
  (length (autoCharges
             (snd (run (supaCheckTeamCredits w chunk team_id credits)))) <= 1)%nat /\
  (In LIMIT_REACHED
      (notifications (snd (run (supaCheckTeamCredits w chunk team_id credits)))) ->
   exists r,
     fst (run (supaCheckTeamCredits w chunk team_id credits)) = Returned r /\
     success r = false) /\
  (In APPROACHING_LIMIT
      (notifications (snd (run (supaCheckTeamCredits w chunk team_id credits)))) ->
   exists r,
     fst (run (supaCheckTeamCredits w chunk team_id credits)) = Returned r /\
     success r = true).
Proof.
  unfold run, supaCheckTeamCredits, loadAutoRecharge.
  unfold bind, lift, emit, ret, throw, when.
  destruct (isPreviewTeam team_id);
    [simpl; repeat split; auto; intros [] |].
  destruct chunk as [c |]; [| simpl; repeat split; auto; intros []].
  destruct (getValue w) as [[cached |] | e];
    [ | destruct (teamsRow w) as [[d |] | e'] | ];
    cbv beta iota;
    repeat match goal with
           | |- context [if ?b then _ else _] => destruct b
           | |- context [match autoCharge w with _ => _ end] =>
               destruct (autoCharge w)
           end;
    simpl; repeat split; auto; try lia;
    try (intros [H | H]; try discriminate H; try destruct H; eauto);
    try (intros []).
Qed.

Lemma at_most_one_notification_witness :
  notifications
    (snd (run (supaCheckTeamCredits sampleBillingWorld
                 (Some (sampleChunk 600 500)) "team-1" 1))) = [LIMIT_REACHED] /\
  (length (autoCharges
             (snd (run (supaCheckTeamCredits sampleBillingWorld
                          (Some (sampleChunk 600 500)) "team-1" 1)))) <= 1)%nat.
Proof.
  split; [reflexivity |].
  exact (proj1 (proj2 (at_most_one_notification sampleBillingWorld
                         (Some (sampleChunk 600 500)) "team-1" 1))).
Defined.

(** ** [supaBillTeam] *)

(** X5.  The deprecated [supaBillTeam] never throws and never reports a
    failure: it warns, hands exactly one operation with its arguments to
    the batch-billing queue and answers "Billing operation queued"; a
    rejection of the queue is only logged and captured. *)
Theorem supaBillTeam_always_reports_success (w : World) (team_id : string)
    (subscription_id : option string) (credits : Z) (is_extract : bool) :
  fst (run (supaBillTeam w team_id subscription_id credits is_extract)) =
    Returned {| bill_success := true;
                bill_message := "Billing operation queued" |} /\
  queuedOperations
    (snd (run (supaBillTeam w team_id subscription_id credits is_extract))) =
    [(team_id, subscription_id, credits, is_extract)] /\
  (forall err,
      queueBillingOperation w = Threw err ->
      exists warning,
        snd (run (supaBillTeam w team_id subscription_id credits is_extract)) =
          [LoggerWarn warning;
           QueueBillingOperation team_id subscription_id credits is_extract;
           LoggerError "Error queuing billing operation";
           SentryCaptureException err]) /\
  (forall b,
      queueBillingOperation w = Returned b ->
      exists warning,
        snd (run (supaBillTeam w team_id subscription_id credits is_extract)) =
          [LoggerWarn warning;
           QueueBillingOperation team_id subscription_id credits is_extract]).
Proof.
  unfold run, supaBillTeam, try_catch, bind, emit, lift, ret.
  destruct (queueBillingOperation w) as [b | err]; simpl.
  - repeat split; [discriminate |]. intros b' _. eexists. reflexivity.
  - repeat split; [| discriminate]. intros err' [= <-]. eexists. reflexivity.
Qed.

Lemma supaBillTeam_always_reports_success_witness :
  fst (run (supaBillTeam (rechargingWorld (sampleChunk 0 1500))
              "team-1" None 5 false)) =
    Returned {| bill_success := true;
                bill_message := "Billing operation queued" |} /\
  queueBillingOperation (rechargingWorld (sampleChunk 0 1500)) =
    Threw (ErrorObj false "queue is down").
Proof.
  split; [| reflexivity].
  exact (proj1 (supaBillTeam_always_reports_success
                  (rechargingWorld (sampleChunk 0 1500))
                  "team-1" None 5 false)).
Defined.

(** ** [countCreditsAndRemainingForCurrentBillingPeriod] *)

(** Sums of non-negative rows that stay safe are exact. *)
Lemma reduceSum_from rows acc :
  Forall (fun x => 0 <= x) rows ->
  0 <= acc ->
  isSafeInteger (acc + fold_right Z.add 0 rows) = true ->
  fold_left Number_add rows acc = acc + fold_right Z.add 0 rows.
Proof.
  intros Hrows. revert acc.
  induction Hrows as [| x rows Hx Hrows IH]; intros acc Hacc Hsafe; simpl.
  - lia.
  - assert (Hsum : 0 <= fold_right Z.add 0 rows).
    { clear - Hrows. induction Hrows; simpl; lia. }
    simpl in Hsafe. apply JsSpec.isSafeInteger_bounds in Hsafe.
    unfold Number_add at 2. rewrite JsSpec.roundToDouble_small by lia.
    rewrite IH; [lia | lia |].
    apply JsSpec.isSafeInteger_bounds. lia.
Qed.

Lemma reduceSum_exact rows :
  Forall (fun x => 0 <= x) rows ->
  isSafeInteger (fold_right Z.add 0 rows) = true ->
  reduceSum rows = fold_right Z.add 0 rows /\ 0 <= reduceSum rows.
Proof.
  intros Hrows Hsafe. unfold reduceSum.
  rewrite (reduceSum_from rows 0 Hrows (Z.le_refl 0) Hsafe). split; [lia |].
  clear Hsafe. induction Hrows; simpl; lia.
Qed.

(** X6.  Of the count of a billing period, when the coupon credits and
    the usage rows are non-negative, the price is non-negative and the
    sums stay within the safe integers (so that no sum of the source
    is rounded): the coupon credits are the sum over the active
    coupons (none counts as 0) and the used credits the sum of the
    usage rows.  For a team without subscription the total is the 500
    free credits plus the coupon credits, and remaining + used = total.
    For a team with a subscription the total is the price's credits
    alone, while the remaining credits also count the coupons, so that
    remaining + used = total + coupon credits. *)
Theorem period_count_balance (l : Ledger) (team_id : string) (c : CreditsCount) :
  let couponRows := nullish (coupons l) [] in
  let usageRows :=
    match subscription l with
    | None => nullish (creditUsagesFree l) []
    | Some _ => nullish (creditUsagesPeriod l) []
    end in
  let base :=
    match subscription l with
    | None => 500
    | Some _ => nullish (priceCredits l) 0
    end in
  countCreditsAndRemainingForCurrentBillingPeriod l team_id = Returned c ->
  Forall (fun x => 0 <= x) couponRows ->
  Forall (fun x => 0 <= x) usageRows ->
  0 <= base ->
  isSafeInteger (base + fold_right Z.add 0 couponRows) = true ->
  isSafeInteger (fold_right Z.add 0 usageRows) = true ->
  couponCredits l = fold_right Z.add 0 couponRows /\
  totalCreditsUsed c = fold_right Z.add 0 usageRows /\
  match subscription l with
  | None =>
      creditUsagesFree l <> None /\
      totalCredits c = 500 + couponCredits l /\
      cc_remainingCredits c + totalCreditsUsed c = totalCredits c
  | Some _ =>
      creditUsagesPeriod l <> None /\
      priceCredits l = Some (totalCredits c) /\
      cc_remainingCredits c + totalCreditsUsed c =
        totalCredits c + couponCredits l
  end.
Proof.
  cbv zeta. intros Hcount Hcoupons Husage Hbase Hsafe1 Hsafe2.
  assert (Hc0 : 0 <= fold_right Z.add 0 (nullish (coupons l) [])).
  { clear - Hcoupons. induction Hcoupons; simpl; lia. }
  assert (Hcc : couponCredits l = fold_right Z.add 0 (nullish (coupons l) [])).
  { unfold couponCredits.
    destruct (coupons l) as [[| x rest] |]; try reflexivity.
    apply reduceSum_exact; [exact Hcoupons |].
    apply JsSpec.isSafeInteger_bounds.
    apply JsSpec.isSafeInteger_bounds in Hsafe1. lia. }
  destruct (reduceSum_exact _ Husage Hsafe2) as [Hused Hused0].
  apply JsSpec.isSafeInteger_bounds in Hsafe1, Hsafe2.
  split; [exact Hcc |].
  revert Hcount. unfold countCreditsAndRemainingForCurrentBillingPeriod.
  destruct (subscription l) as [s |].
  - destruct (creditUsagesPeriod l) as [rows |]; [| discriminate].
    destruct (priceCredits l) as [p |]; [| discriminate].
    intros [= <-]. cbn [totalCreditsUsed cc_remainingCredits totalCredits].
    cbn [nullish] in *. rewrite Hcc, Hused.
    unfold Number_subtract, Number_add.
    rewrite (JsSpec.roundToDouble_small (p + _)) by lia.
    rewrite JsSpec.roundToDouble_small by lia.
    repeat split; try lia; discriminate.
  - destruct (creditUsagesFree l) as [rows |]; [| discriminate].
    intros [= <-]. cbn [totalCreditsUsed cc_remainingCredits totalCredits].
    cbn [nullish] in *. rewrite Hcc, Hused. unfold FREE_CREDITS.
    unfold Number_subtract, Number_add.
    rewrite (JsSpec.roundToDouble_small (500 + _)) by lia.
    rewrite JsSpec.roundToDouble_small by lia.
    repeat split; try lia; discriminate.
Qed.

Lemma period_count_balance_witness :
  countCreditsAndRemainingForCurrentBillingPeriod sampleLedger "team-1" =
    Returned {| totalCreditsUsed := 3200;
                cc_remainingCredits := -50;
                totalCredits := 3000 |} /\
  -50 + 3200 = 3000 + couponCredits sampleLedger.
Proof.
  split; [reflexivity |].
  refine (proj2 (proj2 (proj2 (proj2
           (period_count_balance sampleLedger "team-1"
              {| totalCreditsUsed := 3200;
                 cc_remainingCredits := -50;
                 totalCredits := 3000 |} eq_refl _ _ _ eq_refl eq_refl))))).
  - repeat constructor; simpl; lia.
  - repeat constructor; simpl; lia.
  - simpl. lia.
Defined.

(** Without the bounds the balance can fail: a free team with one
    coupon of [2^53] credits and one credit used has [2^53 + 500]
    credits in total and, by rounding, [2^53 + 500] remaining. *)
Lemma rounded_balance_is_off :
  let l := {| subscription := None;
              coupons := Some [2 ^ 53];
              creditUsagesFree := Some [1];
              creditUsagesPeriod := None;
              priceCredits := None |} in
  exists c,
    countCreditsAndRemainingForCurrentBillingPeriod l "team-1" = Returned c /\
    cc_remainingCredits c = totalCredits c /\
    totalCreditsUsed c = 1.
Proof.
  cbv zeta. eexists. split; [reflexivity |]. split; vm_compute; reflexivity.
Qed.

End CreditBillingMore.

(* ===================================================================== *)
(** * More on the v0 scrape dispatch *)
(* ===================================================================== *)

Module V0ScrapeMore.
Import V0 V0Scrape MonadSpec V0ScrapeSpec.

Lemma scrapeJobs_app (l1 l2 : list Effect) :
  scrapeJobs (l1 ++ l2) = scrapeJobs l1 ++ scrapeJobs l2.
Proof.
  induction l1 as [| e l1 IH]; simpl; [reflexivity |].
  destruct e; simpl; rewrite ?IH; reflexivity.
Qed.

Lemma waits_app (l1 l2 : list Effect) :
  waits (l1 ++ l2) = waits l1 ++ waits l2.
Proof.
  induction l1 as [| e l1 IH]; simpl; [reflexivity |].
  destruct e; simpl; rewrite ?IH; reflexivity.
Qed.

Lemma removedJobs_app (l1 l2 : list Effect) :
  removedJobs (l1 ++ l2) = removedJobs l1 ++ removedJobs l2.
Proof.
  induction l1 as [| e l1 IH]; simpl; [reflexivity |].
  destruct e; simpl; rewrite ?IH; reflexivity.
Qed.

(** A log of admission effects touches neither the scrape queue nor the
    billing. *)
Lemma admissionEffects_quiet log :
  forallb isAdmissionEffect log = true ->
  scrapeJobs log = [] /\ waits log = [] /\ removedJobs log = [] /\
  billTeamCalls log = [] /\ CreditBilling.queuedOperations log = [].
Proof.
  induction log as [| e log IH]; simpl; [repeat split |].
  rewrite andb_true_iff. intros [He Hlog].
  destruct e; try discriminate; auto.
Qed.

Lemma checkEffects_quiet log :
  forallb CreditBilling.isCheckEffect log = true ->
  scrapeJobs log = [] /\ waits log = [] /\ removedJobs log = [] /\
  billTeamCalls log = [] /\ CreditBilling.queuedOperations log = [].
Proof.
  intros H. apply admissionEffects_quiet.
  rewrite forallb_forall in *. intros e He. specialize (H e He).
  unfold isAdmissionEffect. destruct e; auto.
Qed.

(** ** The controller up to the credit check *)

(** What [admission] does once the team is authenticated, is not on
    forced zero data retention and passes the schema test: it records
    the team, runs the credit check for one credit and goes by its
    answer. *)
Lemma admission_after_check w body team_id chunk :
  authenticateUser w = Returned (AuthSuccess team_id chunk) ->
  truthy (chunk_flag forceZDR chunk) = false ->
  isLlmExtraction (mergedExtractorOptions w body) &&
    negb (schemaIsObject (extractionSchema (mergedExtractorOptions w body))) = false ->
  run (admission w body) =
    match run (CreditBilling.checkTeamCredits (billing w) chunk team_id 1) with
    | (Returned r, extra) =>
        if CreditBilling.success r then
          (Returned (inr {| adm_team_id := team_id;
                            adm_chunk := chunk;
                            adm_pageOptions :=
                              if isLlmExtraction (mergedExtractorOptions w body)
                              then
                                {| includeRawHtml := includeRawHtml (mergedPageOptions w body);
                                   includeHtml := includeHtml (mergedPageOptions w body);
                                   includeMarkdown := includeMarkdown (mergedPageOptions w body);
                                   includeExtract := includeExtract (mergedPageOptions w body);
                                   onlyMainContent := Some true |}
                              else mergedPageOptions w body;
                            adm_extractorOptions := mergedExtractorOptions w body;
                            adm_timeout := effectiveTimeout w body;
                            adm_jobId := uuidv4 w |}),
           Sadd "teams_using_v0" team_id :: extra)
        else
          (Returned (inl {| status := 402;
                            json := ErrorBody insufficientCreditsMessage |}),
           Sadd "teams_using_v0" team_id :: extra)
    | (Threw e, extra) =>
        (Returned (inl {| status := 500;
                          json := ErrorBody creditCheckErrorMessage |}),
         Sadd "teams_using_v0" team_id :: extra ++ [LoggerError (thrownString e)])
    end.
Proof.
  intros Hauth Hzdr Hschema.
  pose proof (CreditBillingMore.checkTeamCredits_tame (billing w) chunk team_id 1)
    as [_ Hcheck].
  unfold run in *. unfold admission. unfold bind at 1. unfold lift.
  rewrite Hauth, Hzdr. unfold bind at 1. unfold emit at 1.
  fold (mergedPageOptions w body) (mergedExtractorOptions w body).
  rewrite Hschema. fold (effectiveTimeout w body).
  unfold bind at 1. unfold try_catch. unfold bind at 1.
  rewrite (Hcheck ([] ++ [Sadd "teams_using_v0" team_id])).
  destruct (CreditBilling.checkTeamCredits (billing w) chunk team_id 1 [])
    as [[r | e] extra]; simpl fst; simpl snd.
  - unfold bind, ret. destruct (CreditBilling.success r); reflexivity.
  - unfold bind, emit, ret. reflexivity.
Qed.

Lemma admission_tame w body : tame isAdmissionEffect (admission w body).
Proof.
  assert (Hcheck : forall chunk team_id,
             tame isAdmissionEffect
               (CreditBilling.checkTeamCredits (billing w) chunk team_id 1)).
  { intros chunk team_id.
    apply (tame_weaken CreditBilling.isCheckEffect);
      [| apply CreditBillingMore.checkTeamCredits_tame].
    intros e He. unfold isAdmissionEffect. destruct e; auto. }
  unfold admission. tame.
Qed.

Lemma admission_quiet w body o log :
  run (admission w body) = (o, log) ->
  scrapeJobs log = [] /\ waits log = [] /\ removedJobs log = [] /\
  billTeamCalls log = [] /\ CreditBilling.queuedOperations log = [].
Proof.
  intros H. apply admissionEffects_quiet.
  destruct (admission_tame w body) as [P _]. now rewrite H in P.
Qed.

(** The refusals before the credit check. *)
Lemma admission_refused_early w body :
  match authenticateUser w with
  | Threw e => run (admission w body) = (Threw e, [])
  | Returned (AuthFailure status error) =>
      run (admission w body) =
        (Returned (inl {| status := status; json := ErrorBody error |}), [])
  | Returned (AuthSuccess team_id chunk) =>
      if truthy (chunk_flag forceZDR chunk) then
        run (admission w body) =
          (Returned (inl {| status := 400; json := ErrorBody forceZDRMessage |}),
           [])
      else
        isLlmExtraction (mergedExtractorOptions w body) &&
          negb (schemaIsObject
                  (extractionSchema (mergedExtractorOptions w body))) = true ->
        run (admission w body) =
          (Returned (inl {| status := 400; json := ErrorBody schemaMessage |}),
           [Sadd "teams_using_v0" team_id])
  end.
Proof.
  destruct (authenticateUser w) as [[st err | team_id chunk] | e] eqn:Hauth.
  - unfold run, admission, bind, lift. now rewrite Hauth.
  - destruct (truthy (chunk_flag forceZDR chunk)) eqn:Hzdr.
    + unfold run, admission, bind, lift. now rewrite Hauth, Hzdr.
    + intros Hschema. unfold run, admission. unfold bind at 1. unfold lift.
      rewrite Hauth, Hzdr. unfold bind at 1. unfold emit at 1.
      fold (mergedPageOptions w body) (mergedExtractorOptions w body).
      now rewrite Hschema.
  - unfold run, admission, bind, lift. now rewrite Hauth.
Qed.

Lemma admission_early_status w body resp log :
  run (admission w body) = (Returned (inl resp), log) ->
  (exists err, authenticateUser w = Returned (AuthFailure (status resp) err)) \/
  In (status resp) [400; 402; 500].
Proof.
  pose proof (admission_refused_early w body) as Hearly.
  destruct (authenticateUser w) as [[st err | team_id chunk] | e] eqn:Hauth.
  - rewrite Hearly. intros [= <- _]. left. now exists err.
  - destruct (truthy (chunk_flag forceZDR chunk)) eqn:Hzdr.
    + rewrite Hearly. intros [= <- _]. right. simpl. auto.
    + destruct (isLlmExtraction (mergedExtractorOptions w body) &&
                negb (schemaIsObject
                        (extractionSchema (mergedExtractorOptions w body))))
        eqn:Hschema.
      * rewrite (Hearly eq_refl). intros [= <- _]. right. simpl. auto.
      * rewrite (admission_after_check w body team_id chunk Hauth Hzdr Hschema).
        destruct (run (CreditBilling.checkTeamCredits (billing w) chunk team_id 1))
          as [[r | e] extra].
        -- destruct (CreditBilling.success r); [discriminate |].
           intros [= <- _]. right. simpl. auto.
        -- intros [= <- _]. right. simpl. auto.
  - rewrite Hearly. discriminate.
Qed.

Lemma scrapeHelper_codes w jobId body team_id po eo timeout flags log r log' :
  scrapeHelper w jobId body team_id po eo timeout flags log = (Returned r, log') ->
  In (returnCode r) [200; 400; 403; 408; 500].
Proof.
  unfold scrapeHelper, waitSpan.
  unfold bind, lift, emit, try_catch, ret, throw.
  destruct (urlSchema_parse w (url body)) as [[u |] | e];
    [ destruct (isUrlBlocked w u flags);
      [ | destruct (getJobPriority w) as [p | e];
          [ destruct (addScrapeJob w) as [[] | e];
            [ destruct (waitForJob w) as [[d |] | e];
              [ | | destruct (isTimeoutError e); [| destruct (isLlmError e)] ]
            | ]
          | ] ]
    | | ];
    intros H; try discriminate H; injection H as <- _; simpl;
    repeat (first [left; reflexivity | right]).
Qed.

(** X7.  The v0 scrape controller always answers: it never throws and
    never returns without a response, whatever the auth service, the
    credit check, the URL schema, the queue or the billing do.  The
    status is the one of a failed authentication, or one of 200, 400,
    402, 403, 408 and 500. *)
Theorem scrapeController_always_answers (w : World) (body : Body) :
  exists resp log,
    run (scrapeController w body) = (Returned (Some resp), log) /\
    ((exists err,
         authenticateUser w = Returned (AuthFailure (status resp) err)) \/
     In (status resp) [200; 400; 402; 403; 408; 500]).
Proof.
  destruct (run (admission w body)) as [[[resp | a] | e] log0] eqn:E.
  - rewrite (controller_answers_early _ _ _ _ E). eexists _, _.
    split; [reflexivity |].
    destruct (admission_early_status _ _ _ _ E) as [H | H]; [now left |].
    right. simpl in *. tauto.
  - rewrite (controller_after_admission _ _ _ _ E).
    destruct (scrapeHelper w (adm_jobId a) body (adm_team_id a)
                (adm_pageOptions a) (adm_extractorOptions a) (adm_timeout a)
                (chunk_flags (adm_chunk a)) log0) as [[r | e] log1] eqn:Eh.
    + destruct (dispatch_returned w body a log0 r log1 Eh) as (x & -> & _).
      eexists _, _. split; [reflexivity |]. right.
      pose proof (scrapeHelper_codes _ _ _ _ _ _ _ _ _ _ _ Eh) as H.
      unfold respondWith. simpl in *. tauto.
    + rewrite (dispatch_threw w body a log0 e log1 Eh).
      eexists _, _. split; [reflexivity |]. right. simpl. tauto.
  - rewrite (controller_admission_threw _ _ _ _ E). eexists _, _.
    split; [reflexivity |]. right. simpl. tauto.
Qed.

Lemma scrapeController_always_answers_witness :
  exists resp log,
    run (scrapeController
           (sampleWorldWith CreditBilling.sampleBillingWorld None false
              (Threw (StringVal "redis is down")) (Returned None))
           (sampleBody "https://example.com" None)) =
      (Returned (Some resp), log) /\
    status resp = 500.
Proof.
  destruct (scrapeController_always_answers
              (sampleWorldWith CreditBilling.sampleBillingWorld None false
                 (Threw (StringVal "redis is down")) (Returned None))
              (sampleBody "https://example.com" None))
    as (resp & log & Hrun & _).
  exists resp, log. split; [exact Hrun |].
  vm_compute in Hrun. injection Hrun as <- _. reflexivity.
Defined.

(** X8.  For a request from an authenticated team that is not on forced
    zero data retention and passes the schema test, the credit check for
    one credit decides: when it answers [success = false] the controller
    answers 402 with the upgrade message, and when it throws the
    controller logs the error and answers 500 with the contact message.
    In both cases no job is enqueued or waited for and nothing is
    billed. *)
Theorem failed_credit_check_stops_the_request (w : World) (body : Body)
    (team_id : string) (chunk : option AuthCreditUsageChunk) :
  authenticateUser w = Returned (AuthSuccess team_id chunk) ->
  truthy (chunk_flag forceZDR chunk) = false ->
  isLlmExtraction (mergedExtractorOptions w body) &&
    negb (schemaIsObject (extractionSchema (mergedExtractorOptions w body))) = false ->
  (forall r,
      fst (run (CreditBilling.checkTeamCredits (billing w) chunk team_id 1)) =
        Returned r ->
      CreditBilling.success r = false ->
      fst (run (scrapeController w body)) =
        Returned (Some {| status := 402;
                          json := ErrorBody insufficientCreditsMessage |})) /\
  (forall e,
      fst (run (CreditBilling.checkTeamCredits (billing w) chunk team_id 1)) =
        Threw e ->
      fst (run (scrapeController w body)) =
        Returned (Some {| status := 500;
                          json := ErrorBody creditCheckErrorMessage |}) /\
      In (LoggerError (thrownString e)) (snd (run (scrapeController w body)))) /\
  ((forall r,
       fst (run (CreditBilling.checkTeamCredits (billing w) chunk team_id 1)) =
         Returned r -> CreditBilling.success r = false) ->
   scrapeJobs (snd (run (scrapeController w body))) = [] /\
   waits (snd (run (scrapeController w body))) = [] /\
   billTeamCalls (snd (run (scrapeController w body))) = []).
Proof.
  intros Hauth Hzdr Hschema.
  pose proof (admission_after_check w body team_id chunk Hauth Hzdr Hschema)
    as Hadm.
  destruct (run (CreditBilling.checkTeamCredits (billing w) chunk team_id 1))
    as [[r | e] extra]; simpl fst.
  - split; [| split].
    + intros r' [= <-] Hr. rewrite Hr in Hadm.
      now rewrite (controller_answers_early _ _ _ _ Hadm).
    + intros e' He. discriminate He.
    + intros Hdenied. rewrite (Hdenied r eq_refl) in Hadm.
      destruct (admission_quiet _ _ _ _ Hadm) as (Hjobs & Hwaits & _ & Hbill & _).
      rewrite (controller_answers_early _ _ _ _ Hadm). simpl snd.
      repeat split; assumption.
  - destruct (admission_quiet _ _ _ _ Hadm) as (Hjobs & Hwaits & _ & Hbill & _).
    rewrite (controller_answers_early _ _ _ _ Hadm). simpl.
    split; [intros r' Hr; discriminate Hr |]. split.
    + intros e' [= <-]. split; [reflexivity |].
      right. apply in_or_app. right. now left.
    + intros _. repeat split; assumption.
Qed.

Lemma failed_credit_check_stops_the_request_witness :
  fst (run (scrapeController
              (sampleWorldWith CreditBilling.sampleBillingWorld
                 (Some (CreditBilling.sampleChunk 500 500)) false
                 (Returned tt) (Returned None))
              (sampleBody "https://example.com" None))) =
    Returned (Some {| status := 402;
                      json := ErrorBody insufficientCreditsMessage |}).
Proof.
  refine (proj1 (failed_credit_check_stops_the_request
                   (sampleWorldWith CreditBilling.sampleBillingWorld
                      (Some (CreditBilling.sampleChunk 500 500)) false
                      (Returned tt) (Returned None))
                   (sampleBody "https://example.com" None)
                   "team-1" (Some (CreditBilling.sampleChunk 500 500))
                   eq_refl eq_refl eq_refl) _ eq_refl eq_refl).
Defined.

(** X9.  A team whose chunk is null (and that is neither a preview team
    nor served in bypass mode) cannot scrape on v0: the credit check
    throws before it reads anything, and the controller answers 500
    with the contact message, having only recorded the team and logged
    the error. *)
Theorem null_chunk_is_answered_500 (w : World) (body : Body) (team_id : string) :
  authenticateUser w = Returned (AuthSuccess team_id None) ->
  isLlmExtraction (mergedExtractorOptions w body) &&
    negb (schemaIsObject (extractionSchema (mergedExtractorOptions w body))) = false ->
  CreditBilling.isPreviewTeam team_id = false ->
  WithAuth.bypassed (env w) = false ->
  run (scrapeController w body) =
    (Returned (Some {| status := 500;
                       json := ErrorBody creditCheckErrorMessage |}),
     [Sadd "teams_using_v0" team_id;
      LoggerError "NULL ACUC passed to supaCheckTeamCredits"]).
Proof.
  intros Hauth Hschema Hteam Hby.
  pose proof (admission_after_check w body team_id None Hauth eq_refl Hschema)
    as Hadm.
  assert (Hcheck :
    run (CreditBilling.checkTeamCredits (billing w) None team_id 1) =
      (Threw (ErrorObj false "NULL ACUC passed to supaCheckTeamCredits"), [])).
  { unfold run, CreditBilling.checkTeamCredits, WithAuth.withAuth.
    unfold env in Hby. rewrite Hby.
    unfold CreditBilling.supaCheckTeamCredits. now rewrite Hteam. }
  rewrite Hcheck in Hadm.
  now rewrite (controller_answers_early _ _ _ _ Hadm).
Qed.

Lemma null_chunk_is_answered_500_witness :
  run (scrapeController
         (sampleWorldWith CreditBilling.sampleBillingWorld None false
            (Returned tt) (Returned None))
         (sampleBody "https://example.com" None)) =
    (Returned (Some {| status := 500;
                       json := ErrorBody creditCheckErrorMessage |}),
     [Sadd "teams_using_v0" "team-1";
      LoggerError "NULL ACUC passed to supaCheckTeamCredits"]).
Proof.
  apply (null_chunk_is_answered_500
           (sampleWorldWith CreditBilling.sampleBillingWorld None false
              (Returned tt) (Returned None))
           (sampleBody "https://example.com" None) "team-1");
    reflexivity.
Defined.

(** X10.  Requests refused before the credit check.  A failed
    authentication is answered with its own status and error and
    nothing else happens; a team on forced zero data retention is
    answered 400 and nothing is recorded, not even the team in
    [teams_using_v0]; a request in an llm-extraction mode whose
    extraction schema is not an object is answered 400 after the team
    is recorded, without any credit check; and when the auth service
    throws, the answer is 500 with the error's message. *)
Theorem refused_before_the_credit_check (w : World) (body : Body) :
  (forall st err,
      authenticateUser w = Returned (AuthFailure st err) ->
      run (scrapeController w body) =
        (Returned (Some {| status := st; json := ErrorBody err |}), [])) /\
  (forall team_id chunk,
      authenticateUser w = Returned (AuthSuccess team_id chunk) ->
      truthy (chunk_flag forceZDR chunk) = true ->
      run (scrapeController w body) =
        (Returned (Some {| status := 400; json := ErrorBody forceZDRMessage |}),
         [])) /\
  (forall team_id chunk,
      authenticateUser w = Returned (AuthSuccess team_id chunk) ->
      truthy (chunk_flag forceZDR chunk) = false ->
      includes (mode (mergedExtractorOptions w body)) "llm-extraction" = true ->
      extractionSchema (mergedExtractorOptions w body) <> SchemaObject ->
      run (scrapeController w body) =
        (Returned (Some {| status := 400; json := ErrorBody schemaMessage |}),
         [Sadd "teams_using_v0" team_id])) /\
  (forall e,
      authenticateUser w = Threw e ->
      run (scrapeController w body) =
        (Returned (Some {| status := 500; json := ErrorBody (errorMessage e) |}),
         [SentryCaptureException e; LoggerError "Scrape error occcurred"])).
Proof.
  pose proof (admission_refused_early w body) as Hearly.
  split; [| split; [| split]].
  - intros st err Hauth. rewrite Hauth in Hearly.
    now rewrite (controller_answers_early _ _ _ _ Hearly).
  - intros team_id chunk Hauth Hzdr. rewrite Hauth, Hzdr in Hearly.
    now rewrite (controller_answers_early _ _ _ _ Hearly).
  - intros team_id chunk Hauth Hzdr Hllm Hschema.
    rewrite Hauth, Hzdr in Hearly.
    assert (H : isLlmExtraction (mergedExtractorOptions w body) &&
                negb (schemaIsObject
                        (extractionSchema (mergedExtractorOptions w body))) =
                true).
    { unfold isLlmExtraction. rewrite Hllm.
      destruct (extractionSchema (mergedExtractorOptions w body));
        try reflexivity. now destruct Hschema. }
    now rewrite (controller_answers_early _ _ _ _ (Hearly H)).
  - intros e Hauth. rewrite Hauth in Hearly.
    now rewrite (controller_admission_threw _ _ _ _ Hearly).
Qed.

Lemma refused_before_the_credit_check_witness :
  run (scrapeController
         (sampleWorldWith CreditBilling.sampleBillingWorld (Some zdrChunk)
            false (Returned tt) (Returned (Some sampleDocument)))
         (sampleBody "https://example.com" None)) =
    (Returned (Some {| status := 400; json := ErrorBody forceZDRMessage |}), []) /\
  run (scrapeController
         (sampleScrapeWorld (Returned (Some sampleDocument)))
         (sampleBody "https://example.com" (llmOptions None))) =
    (Returned (Some {| status := 400; json := ErrorBody schemaMessage |}),
     [Sadd "teams_using_v0" "team-1"]).
Proof.
  split.
  - apply (proj1 (proj2 (refused_before_the_credit_check
             (sampleWorldWith CreditBilling.sampleBillingWorld (Some zdrChunk)
                false (Returned tt) (Returned (Some sampleDocument)))
             (sampleBody "https://example.com" None)))
             "team-1" (Some zdrChunk)); reflexivity.
  - apply (proj1 (proj2 (proj2 (refused_before_the_credit_check
             (sampleScrapeWorld (Returned (Some sampleDocument)))
             (sampleBody "https://example.com" (llmOptions None)))))
             "team-1" (Some (CreditBilling.sampleChunk 100 500)));
      try reflexivity. discriminate.
Defined.

(** ** [scrapeHelper] and the queue *)

(** X11.  An admitted request for a blocklisted URL is answered 403
    with the blocklist message and [success = false]; the controller's
    log is the one of the admission: no job is enqueued, nothing is
    waited for and nothing is billed. *)
Theorem blocklisted_url_is_answered_403 (w : World) (body : Body)
    (a : AdmittedRequest) (log0 : list Effect) (u : string) :
  run (admission w body) = (Returned (inr a), log0) ->
  urlSchema_parse w (url body) = Returned (Some u) ->
  isUrlBlocked w u (chunk_flags (adm_chunk a)) = true ->
  run (scrapeController w body) =
    (Returned (Some {| status := 403;
                       json := ResultBody
                         {| success := false;
                            error := Some (BLOCKLISTED_URL_MESSAGE w);
                            data := None;
                            returnCode := 403 |} |}),
     log0) /\
  scrapeJobs log0 = [] /\ waits log0 = [] /\ billTeamCalls log0 = [].
Proof.
  intros Hadm Hparse Hblocked.
  destruct (admission_quiet _ _ _ _ Hadm) as (Hjobs & Hwaits & _ & Hbill & _).
  split; [| auto].
  rewrite (controller_after_admission _ _ _ _ Hadm).
  assert (Hhelper :
    scrapeHelper w (adm_jobId a) body (adm_team_id a) (adm_pageOptions a)
      (adm_extractorOptions a) (adm_timeout a) (chunk_flags (adm_chunk a)) log0 =
      (Returned {| success := false;
                   error := Some (BLOCKLISTED_URL_MESSAGE w);
                   data := None;
                   returnCode := 403 |}, log0)).
  { unfold scrapeHelper. unfold bind at 1. unfold lift.
    now rewrite Hparse, Hblocked. }
  destruct (dispatch_returned w body a log0 _ _ Hhelper) as (x & Hd & Hx & _).
  rewrite Hd. simpl in Hx.
  unfold dispatch in Hd. unfold bind at 1 in Hd. rewrite Hhelper in Hd.
  simpl in Hd. unfold ret in Hd. injection Hd as Hd.
  rewrite <- Hd. reflexivity.
Qed.

Lemma blocklisted_url_is_answered_403_witness :
  fst (run (scrapeController
              (sampleWorldWith CreditBilling.sampleBillingWorld
                 (Some (CreditBilling.sampleChunk 100 500)) true
                 (Returned tt) (Returned (Some sampleDocument)))
              (sampleBody "https://example.com" None))) =
    Returned (Some {| status := 403;
                      json := ResultBody
                        {| success := false;
                           error := Some "URL is blocked";
                           data := None;
                           returnCode := 403 |} |}).
Proof.
  exact (f_equal fst
           (proj1 (blocklisted_url_is_answered_403
              (sampleWorldWith CreditBilling.sampleBillingWorld
                 (Some (CreditBilling.sampleChunk 100 500)) true
                 (Returned tt) (Returned (Some sampleDocument)))
              (sampleBody "https://example.com" None)
              {| adm_team_id := "team-1";
                 adm_chunk := Some (CreditBilling.sampleChunk 100 500);
                 adm_pageOptions := defaultPageOptions sampleDefaults;
                 adm_extractorOptions := defaultExtractorOptions sampleDefaults;
                 adm_timeout := 100;
                 adm_jobId := "9c4e" |}
              [Sadd "teams_using_v0" "team-1"] "https://example.com"
              eq_refl eq_refl eq_refl))).
Defined.

(** The queue calls of [scrapeHelper], path by path. *)
Lemma scrapeHelper_discipline (w : World) (jobId : string)
    (body : Body) (team_id : string) (pageOptions : PageOptions)
    (extractorOptions : ExtractorOptions) (timeout : Z)
    (flags : option TeamFlags) :
  let o := fst (run (scrapeHelper w jobId body team_id pageOptions
                       extractorOptions timeout flags)) in
  let log := snd (run (scrapeHelper w jobId body team_id pageOptions
                         extractorOptions timeout flags)) in
  removedJobs log =
    match o with
    | Returned r => if success r then [jobId] else []
    | Threw _ => []
    end /\
  (length (scrapeJobs log) <= 1)%nat /\
  (length (waits log) <= 1)%nat /\
  (forall job j p,
      In (job, j, p) (scrapeJobs log) ->
      j = jobId /\ job_mode job = "single_urls" /\ job_team_id job = team_id /\
      job_is_scrape job = true /\ job_zeroDataRetention job = false) /\
  (forall j t, In (j, t) (waits log) -> j = jobId /\ t = timeout) /\
  (removedJobs log <> [] -> waits log <> []) /\
  (waits log <> [] -> scrapeJobs log <> []).
Proof.
  cbv zeta. unfold run, scrapeHelper, waitSpan.
  unfold bind, lift, emit, try_catch, ret, throw.
  destruct (urlSchema_parse w (url body)) as [[u |] | e];
    [ destruct (isUrlBlocked w u flags);
      [ | destruct (getJobPriority w) as [p | e];
          [ destruct (addScrapeJob w) as [[] | e];
            [ destruct (waitForJob w) as [[d |] | e];
              [ | | destruct (isTimeoutError e); [| destruct (isLlmError e)] ]
            | ]
          | ] ]
    | | ];
    simpl; repeat split; auto; try discriminate;
    try match goal with
        | H : False |- _ => destruct H
        | H : _ \/ False |- _ =>
            destruct H as [H | []];
            first [ injection H as <- <- <- | injection H as <- <- ];
            reflexivity
        | H : ?x <> ?x |- _ => now destruct H
        end.
Qed.

(** The calls of [scrapeHelper] on the queue, in the order of the log:
    a prefix of enqueue, wait, remove. *)
Lemma scrapeHelper_queue_order (w : World) (jobId : string)
    (body : Body) (team_id : string) (pageOptions : PageOptions)
    (extractorOptions : ExtractorOptions) (timeout : Z)
    (flags : option TeamFlags) :
  let log := snd (run (scrapeHelper w jobId body team_id pageOptions
                         extractorOptions timeout flags)) in
  filter isQueueEffect log = [] \/
  exists job p,
    filter isQueueEffect log = [AddScrapeJob job jobId p] \/
    filter isQueueEffect log =
      [AddScrapeJob job jobId p; WaitForJob jobId timeout] \/
    filter isQueueEffect log =
      [AddScrapeJob job jobId p; WaitForJob jobId timeout; RemoveJob jobId].
Proof.
  cbv zeta. unfold run, scrapeHelper, waitSpan.
  unfold bind, lift, emit, try_catch, ret, throw.
  destruct (urlSchema_parse w (url body)) as [[u |] | e];
    [ destruct (isUrlBlocked w u flags);
      [ | destruct (getJobPriority w) as [p | e];
          [ destruct (addScrapeJob w) as [[] | e];
            [ destruct (waitForJob w) as [[d |] | e];
              [ | | destruct (isTimeoutError e); [| destruct (isLlmError e)] ]
            | ]
          | ] ]
    | | ];
    simpl; first [ now left | right; eexists _, _; tauto ].
Qed.

(** X12.  Of any call of [scrapeHelper], whatever the outside answers
    (the queue's [remove] taken to return): the removal of the job from
    the queue is asked for exactly when the helper reports success, and
    not after a timeout, an extraction error or any thrown error; at
    most one job is enqueued and at most one wait is made, both under
    the given job id; the enqueued job is a [single_urls] scrape job of
    the team with zero data retention off; and the calls on the queue
    are, in the order they are made, a prefix of: enqueue the job,
    wait for it, remove it.  So the wait comes only after the enqueue
    and the removal only after the wait. *)
Theorem job_is_removed_exactly_on_success (w : World) (jobId : string)
    (body : Body) (team_id : string) (pageOptions : PageOptions)
    (extractorOptions : ExtractorOptions) (timeout : Z)
    (flags : option TeamFlags) :
  let o := fst (run (scrapeHelper w jobId body team_id pageOptions
                       extractorOptions timeout flags)) in
  let log := snd (run (scrapeHelper w jobId body team_id pageOptions
                         extractorOptions timeout flags)) in
  removedJobs log =
    match o with
    | Returned r => if success r then [jobId] else []
    | Threw _ => []
    end /\
  (length (scrapeJobs log) <= 1)%nat /\
  (length (waits log) <= 1)%nat /\
  (forall job j p,
      In (job, j, p) (scrapeJobs log) ->
      j = jobId /\ job_mode job = "single_urls" /\ job_team_id job = team_id /\
      job_is_scrape job = true /\ job_zeroDataRetention job = false) /\
  (forall j t, In (j, t) (waits log) -> j = jobId /\ t = timeout) /\
  (filter isQueueEffect log = [] \/
   exists job p,
     filter isQueueEffect log = [AddScrapeJob job jobId p] \/
     filter isQueueEffect log =
       [AddScrapeJob job jobId p; WaitForJob jobId timeout] \/
     filter isQueueEffect log =
       [AddScrapeJob job jobId p; WaitForJob jobId timeout; RemoveJob jobId]).
Proof.
  cbv zeta.
  pose proof (scrapeHelper_discipline w jobId body team_id pageOptions
                extractorOptions timeout flags) as H.
  cbv zeta in H. destruct H as (H1 & H2 & H3 & H4 & H5 & _).
  repeat (split; [assumption |]).
  exact (scrapeHelper_queue_order w jobId body team_id pageOptions
           extractorOptions timeout flags).
Qed.

(** X13.  A failure of the queue is fatal but answered: when resolving
    the priority or enqueueing the job throws for an admitted request
    with a valid, allowed URL, the controller captures the error and
    answers 500 with its message; nothing is waited for, removed or
    billed. *)
Theorem queue_failure_is_answered_500 (w : World) (body : Body)
    (a : AdmittedRequest) (log0 : list Effect) (u : string) (e : Thrown) :
  run (admission w body) = (Returned (inr a), log0) ->
  urlSchema_parse w (url body) = Returned (Some u) ->
  isUrlBlocked w u (chunk_flags (adm_chunk a)) = false ->
  getJobPriority w = Threw e \/
  (exists p, getJobPriority w = Returned p /\ addScrapeJob w = Threw e) ->
  fst (run (scrapeController w body)) =
    Returned (Some {| status := 500; json := ErrorBody (errorMessage e) |}) /\
  In (SentryCaptureException e) (snd (run (scrapeController w body))) /\
  waits (snd (run (scrapeController w body))) = [] /\
  removedJobs (snd (run (scrapeController w body))) = [] /\
  billTeamCalls (snd (run (scrapeController w body))) = [].
Proof.
  intros Hadm Hparse Hallowed Hqueue.
  destruct (admission_quiet _ _ _ _ Hadm) as (_ & Hwaits & Hremoved & Hbill & _).
  rewrite (controller_after_admission _ _ _ _ Hadm).
  assert (Hhelper : exists extra,
    scrapeHelper w (adm_jobId a) body (adm_team_id a) (adm_pageOptions a)
      (adm_extractorOptions a) (adm_timeout a) (chunk_flags (adm_chunk a)) log0 =
      (Threw e, log0 ++ extra) /\
    waits extra = [] /\ removedJobs extra = [] /\ billTeamCalls extra = []).
  { unfold scrapeHelper. unfold bind at 1. unfold lift.
    rewrite Hparse, Hallowed. unfold bind at 1.
    destruct Hqueue as [-> | (p & -> & Henqueue)].
    - exists []. now rewrite app_nil_r.
    - unfold bind, emit. rewrite Henqueue. eexists. split; [reflexivity |].
      repeat split. }
  destruct Hhelper as (extra & Hhelper & Hw & Hr & Hb).
  rewrite (dispatch_threw w body a log0 e _ Hhelper). simpl.
  split; [reflexivity |].
  split; [apply in_or_app; right; now left |].
  rewrite !waits_app, !removedJobs_app, !billTeamCalls_app.
  rewrite Hwaits, Hremoved, Hbill, Hw, Hr, Hb. repeat split.
Qed.

Lemma queue_failure_is_answered_500_witness :
  fst (run (scrapeController
              (sampleWorldWith CreditBilling.sampleBillingWorld
                 (Some (CreditBilling.sampleChunk 100 500)) false
                 (Threw (StringVal "redis is down"))
                 (Returned (Some sampleDocument)))
              (sampleBody "https://example.com" None))) =
    Returned (Some {| status := 500; json := ErrorBody "redis is down" |}).
Proof.
  refine (proj1 (queue_failure_is_answered_500
            (sampleWorldWith CreditBilling.sampleBillingWorld
               (Some (CreditBilling.sampleChunk 100 500)) false
               (Threw (StringVal "redis is down"))
               (Returned (Some sampleDocument)))
            (sampleBody "https://example.com" None)
            {| adm_team_id := "team-1";
               adm_chunk := Some (CreditBilling.sampleChunk 100 500);
               adm_pageOptions := defaultPageOptions sampleDefaults;
               adm_extractorOptions := defaultExtractorOptions sampleDefaults;
               adm_timeout := 100;
               adm_jobId := "9c4e" |}
            [Sadd "teams_using_v0" "team-1"] "https://example.com"
            (StringVal "redis is down") eq_refl eq_refl eq_refl _)).
  right. exists 10. split; reflexivity.
Defined.

(** ** The whole run of the controller *)

Lemma scrapeHelper_tame w jobId body team_id po eo timeout flags :
  tame isHelperEffect (scrapeHelper w jobId body team_id po eo timeout flags).
Proof. unfold scrapeHelper, waitSpan. tame. Qed.

(** An early response of [admission] is an error body. *)
Lemma admission_early_body w body resp log :
  run (admission w body) = (Returned (inl resp), log) ->
  exists err, json resp = ErrorBody err.
Proof.
  pose proof (admission_refused_early w body) as Hearly.
  destruct (authenticateUser w) as [[st err | team_id chunk] | e] eqn:Hauth.
  - rewrite Hearly. intros [= <- _]. eexists. reflexivity.
  - destruct (truthy (chunk_flag forceZDR chunk)) eqn:Hzdr.
    + rewrite Hearly. intros [= <- _]. eexists. reflexivity.
    + destruct (isLlmExtraction (mergedExtractorOptions w body) &&
                negb (schemaIsObject
                        (extractionSchema (mergedExtractorOptions w body))))
        eqn:Hschema.
      * rewrite (Hearly eq_refl). intros [= <- _]. eexists. reflexivity.
      * rewrite (admission_after_check w body team_id chunk Hauth Hzdr Hschema).
        destruct (run (CreditBilling.checkTeamCredits (billing w) chunk team_id 1))
          as [[r | e] extra].
        -- destruct (CreditBilling.success r); [discriminate |].
           intros [= <- _]. eexists. reflexivity.
        -- intros [= <- _]. eexists. reflexivity.
  - rewrite Hearly. discriminate.
Qed.

(** What an admitted request carries to [scrapeHelper]. *)
Lemma admission_admitted_fields w body a log :
  run (admission w body) = (Returned (inr a), log) ->
  authenticateUser w = Returned (AuthSuccess (adm_team_id a) (adm_chunk a)) /\
  truthy (chunk_flag forceZDR (adm_chunk a)) = false /\
  adm_jobId a = uuidv4 w /\
  adm_timeout a = effectiveTimeout w body /\
  adm_extractorOptions a = mergedExtractorOptions w body /\
  includeRawHtml (adm_pageOptions a) = includeRawHtml (mergedPageOptions w body) /\
  includeHtml (adm_pageOptions a) = includeHtml (mergedPageOptions w body) /\
  includeMarkdown (adm_pageOptions a) = includeMarkdown (mergedPageOptions w body) /\
  includeExtract (adm_pageOptions a) = includeExtract (mergedPageOptions w body) /\
  onlyMainContent (adm_pageOptions a) =
    (if isLlmExtraction (mergedExtractorOptions w body) then Some true
     else onlyMainContent (mergedPageOptions w body)) /\
  (isLlmExtraction (mergedExtractorOptions w body) = true ->
   extractionSchema (mergedExtractorOptions w body) = SchemaObject) /\
  exists r extra,
    run (CreditBilling.checkTeamCredits (billing w) (adm_chunk a)
           (adm_team_id a) 1) = (Returned r, extra) /\
    CreditBilling.success r = true /\
    log = Sadd "teams_using_v0" (adm_team_id a) :: extra.
Proof.
  pose proof (admission_refused_early w body) as Hearly.
  destruct (authenticateUser w) as [[st err | team_id chunk] | e] eqn:Hauth;
    try (rewrite Hearly; discriminate).
  destruct (truthy (chunk_flag forceZDR chunk)) eqn:Hzdr;
    [rewrite Hearly; discriminate |].
  destruct (isLlmExtraction (mergedExtractorOptions w body) &&
            negb (schemaIsObject
                    (extractionSchema (mergedExtractorOptions w body))))
    eqn:Hschema; [rewrite (Hearly eq_refl); discriminate |].
  rewrite (admission_after_check w body team_id chunk Hauth Hzdr Hschema).
  destruct (run (CreditBilling.checkTeamCredits (billing w) chunk team_id 1))
    as [[r | e] extra] eqn:Hcheck; [| discriminate].
  destruct (CreditBilling.success r) eqn:Hr; [| discriminate].
  intros [= <- <-]. simpl.
  destruct (isLlmExtraction (mergedExtractorOptions w body)) eqn:Hllm; simpl;
    repeat split; auto; try discriminate;
    try (eexists _, _; rewrite Hcheck; repeat split; auto).
  intros _. simpl in Hschema.
  destruct (extractionSchema (mergedExtractorOptions w body));
    try discriminate; reflexivity.
Qed.

(** The run of [dispatch] once [scrapeHelper] has returned: the answer,
    and after the helper's log the billing call and what the detached
    [billTeam] leaves. *)
Lemma dispatch_log w body a log r log1 :
  scrapeHelper w (adm_jobId a) body (adm_team_id a) (adm_pageOptions a)
    (adm_extractorOptions a) (adm_timeout a) (chunk_flags (adm_chunk a)) log =
    (Returned r, log1) ->
  dispatch w body a log =
    (Returned (Some (respondWith a r)),
     log1 ++
     if success r then
       BillTeam (adm_team_id a) (adm_sub_id a)
         (creditsToBeBilled (adm_extractorOptions a)) ::
       billTeamLog w (adm_team_id a) (adm_sub_id a)
         (creditsToBeBilled (adm_extractorOptions a))
     else []).
Proof.
  intros Hhelper. unfold dispatch. unfold bind at 1. rewrite Hhelper.
  fold (adm_sub_id a). fold (respondWith a r).
  assert (Hpos : (0 <? creditsToBeBilled (adm_extractorOptions a)) = true).
  { rewrite creditsToBeBilled_cases. now destruct (includes _ _). }
  destruct (success r); [| unfold ret; now rewrite app_nil_r].
  rewrite Hpos. unfold when, billTeamLog.
  unfold CreditBilling.billTeam, WithAuth.withAuth, env.
  cbn [CreditBilling.auth CreditBilling.afterWithAuth WithAuth.env
       CreditBilling.queueBillingOperation].
  change (WithAuth.env (WithAuth.afterCall (CreditBilling.auth (billing w))))
    with (WithAuth.env (CreditBilling.auth (billing w))).
  destruct (WithAuth.bypassed (WithAuth.env (CreditBilling.auth (billing w)))).
  - unfold when.
    destruct (Nat.ltb (WithAuth.warningCount
                         (WithAuth.afterCall (CreditBilling.auth (billing w)))) 5);
      unfold try_catch, bind, emit, ret; rewrite <- ?app_assoc; reflexivity.
  - unfold try_catch, bind, emit, lift, ret.
    destruct (CreditBilling.queueBillingOperation (billing w));
      rewrite <- ?app_assoc; reflexivity.
Qed.

Lemma billTeamLog_queue w team_id sub credits :
  scrapeJobs (billTeamLog w team_id sub credits) = [] /\
  waits (billTeamLog w team_id sub credits) = [] /\
  removedJobs (billTeamLog w team_id sub credits) = [] /\
  billTeamCalls (billTeamLog w team_id sub credits) = [] /\
  CreditBilling.queuedOperations (billTeamLog w team_id sub credits) =
    if WithAuth.bypassed (env w) then [] else [(team_id, sub, credits, false)].
Proof.
  unfold billTeamLog.
  destruct (WithAuth.bypassed (env w)).
  - destruct (Nat.ltb _ 5); repeat split.
  - destruct (CreditBilling.queueBillingOperation (billing w)); repeat split.
Qed.

Lemma helperEffects_quiet log :
  forallb isHelperEffect log = true ->
  billTeamCalls log = [] /\ CreditBilling.queuedOperations log = [].
Proof.
  induction log as [| e log IH]; simpl; [repeat split |].
  rewrite andb_true_iff. intros [He Hlog].
  destruct e; try discriminate; auto.
Qed.

(** The log of a run of the controller for an admitted request: the
    admission, then the helper, then the billing or the capture of a
    thrown error. *)
Lemma controller_log w body a log0 :
  run (admission w body) = (Returned (inr a), log0) ->
  exists after,
    snd (run (scrapeController w body)) =
      log0 ++
      snd (run (scrapeHelper w (adm_jobId a) body (adm_team_id a)
                  (adm_pageOptions a) (adm_extractorOptions a) (adm_timeout a)
                  (chunk_flags (adm_chunk a)))) ++ after /\
    scrapeJobs after = [] /\ waits after = [] /\ removedJobs after = [] /\
    CreditBilling.queuedOperations after =
      (if WithAuth.bypassed (env w) then []
       else map (fun c => (fst (fst c), snd (fst c), snd c, false))
              (billTeamCalls after)).
Proof.
  intros Hadm. rewrite (controller_after_admission _ _ _ _ Hadm).
  destruct (scrapeHelper_tame w (adm_jobId a) body (adm_team_id a)
              (adm_pageOptions a) (adm_extractorOptions a) (adm_timeout a)
              (chunk_flags (adm_chunk a))) as [_ Hhelper].
  specialize (Hhelper log0).
  destruct (run (scrapeHelper w (adm_jobId a) body (adm_team_id a)
                   (adm_pageOptions a) (adm_extractorOptions a) (adm_timeout a)
                   (chunk_flags (adm_chunk a)))) as [[r | e] hlog];
    simpl fst in Hhelper; simpl snd in *.
  - rewrite (dispatch_log w body a log0 r _ Hhelper). simpl snd.
    rewrite <- app_assoc. eexists. split; [reflexivity |].
    destruct (billTeamLog_queue w (adm_team_id a) (adm_sub_id a)
                (creditsToBeBilled (adm_extractorOptions a)))
      as (H1 & H2 & H3 & H4 & H5).
    destruct (success r); simpl; [| destruct (WithAuth.bypassed (env w)); auto].
    rewrite H1, H2, H3, H4, H5.
    destruct (WithAuth.bypassed (env w)); auto.
  - rewrite (dispatch_threw w body a log0 e _ Hhelper). simpl snd.
    rewrite <- app_assoc. eexists. split; [reflexivity |]. simpl.
    destruct (WithAuth.bypassed (env w)); auto.
Qed.

(** X14.  In any run of the v0 scrape controller at most one job is
    enqueued and at most one wait is made, both under the id drawn for
    the request, the job for the authenticated team; and the wait uses
    the timeout of the request body when it has one, else 90000 ms when
    the extractor mode contains "llm-extraction", else the default
    timeout. *)
Theorem one_job_one_wait_per_request (w : World) (body : Body) :
  (length (scrapeJobs (snd (run (scrapeController w body)))) <= 1)%nat /\
  (length (waits (snd (run (scrapeController w body)))) <= 1)%nat /\
  (forall job j p,
      In (job, j, p) (scrapeJobs (snd (run (scrapeController w body)))) ->
      j = uuidv4 w /\
      exists chunk,
        authenticateUser w = Returned (AuthSuccess (job_team_id job) chunk)) /\
  (forall j t,
      In (j, t) (waits (snd (run (scrapeController w body)))) ->
      j = uuidv4 w /\
      t = match timeout body with
          | Some ms => ms
          | None =>
              if includes (mode (mergedExtractorOptions w body)) "llm-extraction"
              then 90000 else defaultTimeout (defaults w)
          end).
Proof.
  destruct (run (admission w body)) as [[[resp | a] | e] log0] eqn:E.
  - destruct (admission_quiet _ _ _ _ E) as (Hjobs & Hwaits & _).
    rewrite (controller_answers_early _ _ _ _ E). simpl snd.
    rewrite Hjobs, Hwaits. simpl. repeat split; auto; contradiction.
  - destruct (admission_quiet _ _ _ _ E) as (Hjobs & Hwaits & _).
    destruct (controller_log w body a log0 E) as (after & -> & Aj & Aw & _).
    destruct (admission_admitted_fields w body a log0 E)
      as (Hauth & _ & Hid & Htimeout & _).
    destruct (scrapeHelper_discipline w (adm_jobId a) body (adm_team_id a)
                (adm_pageOptions a) (adm_extractorOptions a) (adm_timeout a)
                (chunk_flags (adm_chunk a)))
      as (_ & Hlen & Hlenw & Hjob & Hwait & _).
    rewrite !scrapeJobs_app, !waits_app, Hjobs, Hwaits, Aj, Aw, !app_nil_r.
    simpl app. split; [exact Hlen |]. split; [exact Hlenw |]. split.
    + intros job j p Hin. destruct (Hjob job j p Hin) as (-> & _ & Hteam & _).
      split; [exact Hid |]. exists (adm_chunk a). now rewrite Hteam.
    + intros j t Hin. destruct (Hwait j t Hin) as [-> ->].
      split; [exact Hid |]. rewrite Htimeout. unfold effectiveTimeout.
      unfold isLlmExtraction. now destruct (timeout body).
  - destruct (admission_quiet _ _ _ _ E) as (Hjobs & Hwaits & _).
    rewrite (controller_admission_threw _ _ _ _ E). simpl snd.
    rewrite scrapeJobs_app, waits_app, Hjobs, Hwaits. simpl.
    repeat split; auto; contradiction.
Qed.

(** X15.  Of the operations that reach the batch-billing queue in a run
    of the controller: in bypass mode there is none, although
    [billTeam] is called; otherwise there is exactly one per [billTeam]
    call, for the same team, subscription and credits, and never marked
    as an extract. *)
Theorem billing_queue_follows_billTeam (w : World) (body : Body) :
  CreditBilling.queuedOperations (snd (run (scrapeController w body))) =
    if WithAuth.bypassed (env w) then []
    else map (fun c => (fst (fst c), snd (fst c), snd c, false))
           (billTeamCalls (snd (run (scrapeController w body)))).
Proof.
  destruct (run (admission w body)) as [[[resp | a] | e] log0] eqn:E.
  - destruct (admission_quiet _ _ _ _ E) as (_ & _ & _ & Hbill & Hq).
    rewrite (controller_answers_early _ _ _ _ E). simpl snd.
    rewrite Hbill, Hq. now destruct (WithAuth.bypassed (env w)).
  - destruct (admission_quiet _ _ _ _ E) as (_ & _ & _ & Hbill & Hq).
    destruct (controller_log w body a log0 E) as (after & -> & _ & _ & _ & Hafter).
    destruct (scrapeHelper_tame w (adm_jobId a) body (adm_team_id a)
                (adm_pageOptions a) (adm_extractorOptions a) (adm_timeout a)
                (chunk_flags (adm_chunk a))) as [Phelper _].
    destruct (helperEffects_quiet _ Phelper) as [Hb Hhq].
    rewrite !CreditBillingMore.queuedOperations_app, !billTeamCalls_app.
    rewrite Hbill, Hq, Hb, Hhq. simpl app. exact Hafter.
  - destruct (admission_quiet _ _ _ _ E) as (_ & _ & _ & Hbill & Hq).
    rewrite (controller_admission_threw _ _ _ _ E). simpl snd.
    rewrite CreditBillingMore.queuedOperations_app, billTeamCalls_app.
    rewrite Hbill, Hq. now destruct (WithAuth.bypassed (env w)).
Qed.

(** ** Stripping *)

Lemma stripResult_fields po d :
  (truthy (includeRawHtml po) = false ->
   truthy_str (v0_rawHtml (stripResult po d)) = false) /\
  (truthy (includeRawHtml po) = true ->
   v0_rawHtml (stripResult po d) = v0_rawHtml d) /\
  (truthy (includeExtract po) = true -> truthy (includeMarkdown po) = false ->
   truthy_str (v0_markdown (stripResult po d)) = false) /\
  (truthy (includeExtract po) = false \/ truthy (includeMarkdown po) = true ->
   v0_markdown (stripResult po d) = v0_markdown d) /\
  v0_content (stripResult po d) = v0_content d.
Proof.
  unfold stripResult.
  destruct (truthy (includeRawHtml po)), (truthy (includeExtract po)),
    (truthy (includeMarkdown po)), (truthy_str (v0_rawHtml d)) eqn:Hraw,
    (truthy_str (v0_markdown d)) eqn:Hmd; simpl;
    rewrite ?Hraw, ?Hmd; simpl;
    repeat split; auto; try discriminate;
    try (intros [H | H]; discriminate H).
Qed.

(** X16.  In every response of the controller that carries a document:
    [rawHtml] is absent or empty unless the merged page options ask for
    it with [includeRawHtml]; and [markdown] is absent or empty when
    [includeExtract] is set and [includeMarkdown] is not. *)
Theorem response_document_is_stripped (w : World) (body : Body)
    (resp : Response) (r : ScrapeResult) (d : V0Document) :
  fst (run (scrapeController w body)) = Returned (Some resp) ->
  json resp = ResultBody r ->
  data r = Some d ->
  (truthy (includeRawHtml (mergedPageOptions w body)) = false ->
   truthy_str (v0_rawHtml d) = false) /\
  (truthy (includeExtract (mergedPageOptions w body)) = true ->
   truthy (includeMarkdown (mergedPageOptions w body)) = false ->
   truthy_str (v0_markdown d) = false).
Proof.
  intros Hrun Hjson Hdata.
  destruct (run (admission w body)) as [[[resp' | a] | e] log0] eqn:E.
  - rewrite (controller_answers_early _ _ _ _ E) in Hrun.
    injection Hrun as <-.
    destruct (admission_early_body _ _ _ _ E) as [err Herr]. congruence.
  - destruct (admission_admitted_fields w body a log0 E)
      as (_ & _ & _ & _ & _ & Hraw & _ & Hmd & Hextract & _).
    rewrite (controller_after_admission _ _ _ _ E) in Hrun.
    destruct (scrapeHelper w (adm_jobId a) body (adm_team_id a)
                (adm_pageOptions a) (adm_extractorOptions a) (adm_timeout a)
                (chunk_flags (adm_chunk a)) log0) as [[r0 | e] log1] eqn:Eh.
    + rewrite (dispatch_log w body a log0 r0 log1 Eh) in Hrun.
      injection Hrun as <-. unfold respondWith in Hjson. simpl in Hjson.
      injection Hjson as <-. simpl in Hdata.
      destruct (data r0) as [d0 |]; [| discriminate].
      injection Hdata as <-.
      destruct (stripResult_fields (adm_pageOptions a) d0)
        as (H1 & _ & H3 & _).
      rewrite Hraw, Hmd, Hextract in *. split; auto.
    + rewrite (dispatch_threw w body a log0 e log1 Eh) in Hrun.
      injection Hrun as <-. discriminate Hjson.
  - rewrite (controller_admission_threw _ _ _ _ E) in Hrun.
    injection Hrun as <-. discriminate Hjson.
Qed.

Lemma response_document_is_stripped_witness :
  exists resp r d,
    fst (run (scrapeController
                (sampleScrapeWorld (Returned (Some sampleDocument)))
                (sampleBody "https://example.com" (llmOptions (Some SchemaObject))))) =
      Returned (Some resp) /\
    json resp = ResultBody r /\ data r = Some d /\
    truthy_str (v0_rawHtml d) = false /\
    v0_markdown d = Some "# Title".
Proof.
  eexists _, _, _. split; [reflexivity |]. split; [reflexivity |].
  split; [reflexivity |]. split; [| reflexivity].
  refine (proj1 (response_document_is_stripped
            (sampleScrapeWorld (Returned (Some sampleDocument)))
            (sampleBody "https://example.com" (llmOptions (Some SchemaObject)))
            _ _ _ eq_refl eq_refl eq_refl) eq_refl).
Defined.

(** X17.  Of the document [scrapeHelper] hands to the legacy transform:
    its [index] and [provider] are gone and its [markdown] and other
    fields are untouched; its [html] is absent or empty unless
    [includeHtml] is set, in which case it is untouched; its [rawHtml]
    is absent or empty when [includeRawHtml] is not set and the mode is
    "llm-extraction-from-raw-html", and untouched otherwise.  Stripping
    twice is stripping once. *)
Theorem stripDocument_fields (po : PageOptions) (eo : ExtractorOptions)
    (d : Document) :
  index (stripDocument po eo d) = None /\
  provider (stripDocument po eo d) = None /\
  markdown (stripDocument po eo d) = markdown d /\
  rest (stripDocument po eo d) = rest d /\
  (truthy (includeHtml po) = false ->
   truthy_str (html (stripDocument po eo d)) = false) /\
  (truthy (includeHtml po) = true -> html (stripDocument po eo d) = html d) /\
  (truthy (includeRawHtml po) = false ->
   mode eo = "llm-extraction-from-raw-html" ->
   truthy_str (rawHtml (stripDocument po eo d)) = false) /\
  (truthy (includeRawHtml po) = true \/
   mode eo <> "llm-extraction-from-raw-html" ->
   rawHtml (stripDocument po eo d) = rawHtml d) /\
  stripDocument po eo (stripDocument po eo d) = stripDocument po eo d.
Proof.
  unfold stripDocument. simpl.
  destruct (String.eqb_spec (mode eo) "llm-extraction-from-raw-html")
    as [Hmode | Hmode];
    destruct (truthy (includeHtml po)), (truthy (includeRawHtml po)),
      (truthy_str (html d)) eqn:Hh, (truthy_str (rawHtml d)) eqn:Hr; simpl;
    rewrite ?Hh, ?Hr; simpl;
    repeat split; auto; try discriminate; try contradiction;
    try (intros [H | H]; (discriminate H || contradiction)).
Qed.

Lemma stripDocument_fields_witness :
  rawHtml (stripDocument (defaultPageOptions sampleDefaults)
             {| mode := "llm-extraction-from-raw-html";
                extractionSchema := SchemaObject |} sampleDocument) = None /\
  rawHtml (stripDocument (defaultPageOptions sampleDefaults)
             (defaultExtractorOptions sampleDefaults) sampleDocument) =
    Some "<html></html>".
Proof.
  split; [reflexivity |].
  refine (proj1 (proj2 (proj2 (proj2 (proj2 (proj2 (proj2 (proj2
            (stripDocument_fields (defaultPageOptions sampleDefaults)
               (defaultExtractorOptions sampleDefaults) sampleDocument))))))))
            _).
  right. discriminate.
Defined.

End V0ScrapeMore.

(* ===================================================================== *)
(** * More on the v1 crawl kickoff *)
(* ===================================================================== *)

Module V1CrawlMore.
Import V1Crawl MonadSpec V1CrawlSpec.

(** The robots block, case by case. *)
Lemma fetchRobots_run w sc log :
  fetchRobots w sc log =
    match getRobotsTxt w with
    | Threw _ => (Returned sc, log ++ [LoggerDebug robotsFailed])
    | Returned robots =>
        let sc1 :=
          {| sc_originUrl := sc_originUrl sc;
             sc_crawlerOptions := sc_crawlerOptions sc;
             sc_scrapeOptions := sc_scrapeOptions sc;
             sc_internalOptions := sc_internalOptions sc;
             sc_team_id := sc_team_id sc;
             sc_createdAt := sc_createdAt sc;
             sc_maxConcurrency := sc_maxConcurrency sc;
             sc_zeroDataRetention := sc_zeroDataRetention sc;
             sc_robots := Some robots |} in
        match getRobotsCrawlDelay w with
        | Threw _ => (Returned sc1, log ++ [LoggerDebug robotsFailed])
        | Returned (Some d) =>
            if noUserDelay sc then
              (Returned
                 {| sc_originUrl := sc_originUrl sc;
                    sc_crawlerOptions :=
                      {| lg_includes := lg_includes (sc_crawlerOptions sc);
                         lg_excludes := lg_excludes (sc_crawlerOptions sc);
                         lg_limit := lg_limit (sc_crawlerOptions sc);
                         lg_delay := Some d |};
                    sc_scrapeOptions := sc_scrapeOptions sc;
                    sc_internalOptions := sc_internalOptions sc;
                    sc_team_id := sc_team_id sc;
                    sc_createdAt := sc_createdAt sc;
                    sc_maxConcurrency := sc_maxConcurrency sc;
                    sc_zeroDataRetention := sc_zeroDataRetention sc;
                    sc_robots := Some robots |}, log)
            else (Returned sc1, log)
        | Returned None => (Returned sc1, log)
        end
    end.
Proof.
  unfold fetchRobots, noUserDelay, robotsFailed.
  destruct (getRobotsTxt w) as [robots | e]; [| reflexivity].
  destruct (getRobotsCrawlDelay w) as [[d |] | e]; try reflexivity.
  simpl. destruct (lg_delay (sc_crawlerOptions sc)) as [d0 |];
    [destruct (d0 =? 0) |]; reflexivity.
Qed.

(** What the robots block never touches. *)
Lemma fetchRobots_preserves w sc log sc' log' :
  fetchRobots w sc log = (Returned sc', log') ->
  sc_originUrl sc' = sc_originUrl sc /\
  sc_scrapeOptions sc' = sc_scrapeOptions sc /\
  sc_internalOptions sc' = sc_internalOptions sc /\
  sc_team_id sc' = sc_team_id sc /\
  sc_createdAt sc' = sc_createdAt sc /\
  sc_maxConcurrency sc' = sc_maxConcurrency sc /\
  sc_zeroDataRetention sc' = sc_zeroDataRetention sc /\
  lg_includes (sc_crawlerOptions sc') = lg_includes (sc_crawlerOptions sc) /\
  lg_excludes (sc_crawlerOptions sc') = lg_excludes (sc_crawlerOptions sc) /\
  lg_limit (sc_crawlerOptions sc') = lg_limit (sc_crawlerOptions sc) /\
  exists debug,
    log' = log ++ debug /\ savedCrawls debug = [] /\ kickoffJobs debug = [].
Proof.
  rewrite fetchRobots_run.
  destruct (getRobotsTxt w) as [robots | e].
  - cbv zeta.
    destruct (getRobotsCrawlDelay w) as [[d |] | e];
      [destruct (noUserDelay sc) | |];
      intros [= <- <-]; simpl; repeat split;
      solve [ exists []; now rewrite app_nil_r
            | eexists; repeat split ].
  - intros [= <- <-]. repeat split. eexists. repeat split.
Qed.

Lemma fetchRobots_returns w sc log :
  exists sc' log', fetchRobots w sc log = (Returned sc', log').
Proof.
  rewrite fetchRobots_run.
  destruct (getRobotsTxt w) as [robots | e]; [| eexists _, _; reflexivity].
  cbv zeta.
  destruct (getRobotsCrawlDelay w) as [[d |] | e];
    [destruct (noUserDelay sc) | |]; eexists _, _; reflexivity.
Qed.

(** The run of the controller for an admitted request, in full. *)
Lemma crawlController_run w req :
  zdrRejected req = false ->
  first_RegExp_error (RegExp_error w) (pathEntries (body req)) = None ->
  exists sc pre,
    fetchRobots w (initialStoredCrawl w req)
      [LoggerDebug ("Crawl " ++ uuidv4 w ++ " starting")%string;
       LogCrawl (uuidv4 w) (auth_team_id req);
       LoggerDebug "Determined limit"] = (Returned sc, pre) /\
    run (crawlController w req) =
      (Returned {| status := 200;
                   json := OkResponse (uuidv4 w) (statusUrl w req) |},
       pre ++ [SaveCrawl (uuidv4 w) sc;
               AddScrapeJobToBullMQ (kickoffJobFor w req sc) (randomUUID w) 10]).
Proof.
  intros Hzdr Hpaths. rewrite paths_error_entries in Hpaths.
  destruct (fetchRobots_returns w (initialStoredCrawl w req)
              [LoggerDebug ("Crawl " ++ uuidv4 w ++ " starting")%string;
               LogCrawl (uuidv4 w) (auth_team_id req);
               LoggerDebug "Determined limit"]) as (sc & pre & Hrobots).
  exists sc, pre. split; [exact Hrobots |].
  unfold run, crawlController. rewrite Hzdr.
  destruct (paths_error (RegExp_error w) (includePaths (body req)));
    [discriminate |].
  rewrite Hpaths. unfold bind, emit, ret.
  match goal with
  | |- context [fetchRobots w ?s ?l] =>
      change (fetchRobots w s l)
        with (fetchRobots w (initialStoredCrawl w req)
                [LoggerDebug ("Crawl " ++ uuidv4 w ++ " starting")%string;
                 LogCrawl (uuidv4 w) (auth_team_id req);
                 LoggerDebug "Determined limit"])
  end.
  rewrite Hrobots. rewrite <- app_assoc. reflexivity.
Qed.

(** The run of the controller for a request it refuses. *)
Lemma crawlController_refused w req :
  zdrRejected req = true \/
  first_RegExp_error (RegExp_error w) (pathEntries (body req)) <> None ->
  exists err log,
    run (crawlController w req) =
      (Returned {| status := 400; json := ErrorResponse err |}, log) /\
    savedCrawls log = [] /\ kickoffJobs log = [].
Proof.
  intros Hrefused. unfold run, crawlController.
  destruct (zdrRejected req); [eexists _, _; repeat split |].
  destruct Hrefused as [H | Hpaths]; [discriminate |].
  rewrite paths_error_entries in Hpaths.
  destruct (paths_error (RegExp_error w) (includePaths (body req)));
    [eexists _, _; repeat split |].
  destruct (paths_error (RegExp_error w) (excludePaths (body req)));
    [eexists _, _; repeat split | now destruct Hpaths].
Qed.

Lemma first_RegExp_error_found compile l :
  first_RegExp_error compile l <> None <->
  exists y, In y l /\ compile y <> None.
Proof.
  induction l as [| x l IH]; simpl.
  - split; [intros H; now destruct H | intros (y & [] & _)].
  - destruct (compile x) as [m |] eqn:E.
    + split; [| discriminate]. intros _. exists x. split; [now left |].
      now rewrite E.
    + rewrite IH. split; intros (y & Hy & Hc).
      * exists y. split; [now right | exact Hc].
      * destruct Hy as [<- | Hy]; [congruence |]. now exists y.
Qed.

Lemma first_RegExp_error_all compile l :
  first_RegExp_error compile l = None ->
  forall y, In y l -> compile y = None.
Proof.
  intros Hnone y Hy. destruct (compile y) eqn:E; [| reflexivity].
  exfalso. apply (proj2 (first_RegExp_error_found compile l)); [| exact Hnone].
  exists y. split; [exact Hy |]. now rewrite E.
Qed.

(** X18.  With the body parsed and the store and the queue taken to
    return, the v1 crawl controller answers 200 or 400.  It answers
    200 exactly for a
    request that passes the zero-data-retention check and whose paths
    all compile (a failing robots fetch does not matter), and then its
    last two calls are [saveCrawl] and the enqueueing of one kickoff
    job at priority 10, in this order and nowhere else in the run: the
    record is saved under the id of the answer, the job carries that
    id as [crawl_id], the request's URL and webhook, the team of the
    request and the record's scrape and internal options.  It answers
    400 with an error otherwise, and then no crawl is saved and no job
    is enqueued. *)
Theorem crawl_is_saved_exactly_when_answered_200 (w : World) (req : Request) :
  exists resp log,
    run (crawlController w req) = (Returned resp, log) /\
    ((status resp = 200 /\
      zdrRejected req = false /\
      (forall y, In y (pathEntries (body req)) -> RegExp_error w y = None) /\
      exists sc job pre,
        log = pre ++ [SaveCrawl (uuidv4 w) sc;
                      AddScrapeJobToBullMQ job (randomUUID w) 10] /\
        savedCrawls pre = [] /\ kickoffJobs pre = [] /\
        json resp = OkResponse (uuidv4 w) (statusUrl w req) /\
        job_crawl_id job = uuidv4 w /\
        job_mode job = "kickoff" /\
        job_v1 job = true /\
        job_url job = url (body req) /\
        job_webhook job = webhook (body req) /\
        job_team_id job = auth_team_id req /\
        sc_originUrl sc = url (body req) /\
        sc_team_id sc = auth_team_id req /\
        job_internalOptions job = sc_internalOptions sc /\
        job_scrapeOptions job = sc_scrapeOptions sc) \/
     (status resp = 400 /\
      (exists err, json resp = ErrorResponse err) /\
      savedCrawls log = [] /\ kickoffJobs log = [] /\
      (zdrRejected req = true \/
       exists y, In y (pathEntries (body req)) /\ RegExp_error w y <> None))).
Proof.
  destruct (zdrRejected req) eqn:Hzdr.
  - destruct (crawlController_refused w req (or_introl Hzdr))
      as (err & log & Hrun & Hsaved & Hjobs).
    eexists _, log. split; [exact Hrun |]. right.
    repeat split; eauto. now exists err.
  - destruct (first_RegExp_error (RegExp_error w) (pathEntries (body req)))
      as [m |] eqn:Hpaths.
    + assert (Hne : first_RegExp_error (RegExp_error w)
                      (pathEntries (body req)) <> None) by congruence.
      destruct (crawlController_refused w req (or_intror Hne))
        as (err & log & Hrun & Hsaved & Hjobs).
      eexists _, log. split; [exact Hrun |]. right.
      repeat split; eauto; [now exists err |]. right.
      now apply first_RegExp_error_found.
    + destruct (crawlController_run w req Hzdr Hpaths)
        as (sc & pre & Hrobots & Hrun).
      destruct (fetchRobots_preserves _ _ _ _ _ Hrobots)
        as (Hurl & Hso & Hio & Hteam & _ & _ & _ & _ & _ & _ &
            debug & -> & Hds & Hdj).
      eexists _, _. split; [exact Hrun |]. left.
      split; [reflexivity |]. split; [reflexivity |].
      split; [now apply first_RegExp_error_all |].
      eexists sc, _, _. split; [reflexivity |].
      rewrite savedCrawls_app, kickoffJobs_app, Hds, Hdj. simpl.
      repeat split; auto.
Qed.

Lemma effectiveZDR_truthy req :
  truthy (effectiveZDR req) =
  truthy (chunk_flag forceZDR (acuc req)) ||
  truthy (zeroDataRetention (body req)).
Proof.
  unfold effectiveZDR, or_else.
  destruct (truthy (chunk_flag forceZDR (acuc req))) eqn:H; [exact H | reflexivity].
Qed.

(** X19.  Of every crawl record the controller saves: zero data
    retention is on in it exactly when the team is forced onto it or
    the request asks for it, and in either case the team has [forceZDR]
    or [allowZDR]; the record's internal options carry the same value,
    and the kickoff job is marked with it as a boolean. *)
Theorem saved_crawl_zero_data_retention (w : World) (req : Request)
    (id : string) (sc : StoredCrawl) :
  In (id, sc) (savedCrawls (snd (run (crawlController w req)))) ->
  (truthy (sc_zeroDataRetention sc) = true <->
   truthy (chunk_flag forceZDR (acuc req)) = true \/
   truthy (zeroDataRetention (body req)) = true) /\
  (truthy (sc_zeroDataRetention sc) = true ->
   truthy (chunk_flag forceZDR (acuc req)) = true \/
   truthy (chunk_flag allowZDR (acuc req)) = true) /\
  io_zeroDataRetention (sc_internalOptions sc) = sc_zeroDataRetention sc /\
  (forall job p,
      In (job, p) (kickoffJobs (snd (run (crawlController w req)))) ->
      job_zeroDataRetention job = truthy (sc_zeroDataRetention sc) /\
      job_internalOptions job = sc_internalOptions sc).
Proof.
  destruct (zdrRejected req) eqn:Hzdr.
  { destruct (crawlController_refused w req (or_introl Hzdr))
      as (err & log & Hrun & Hsaved & _).
    rewrite Hrun. simpl snd. rewrite Hsaved. intros []. }
  destruct (first_RegExp_error (RegExp_error w) (pathEntries (body req)))
    as [m |] eqn:Hpaths.
  { assert (Hne : first_RegExp_error (RegExp_error w)
                    (pathEntries (body req)) <> None) by congruence.
    destruct (crawlController_refused w req (or_intror Hne))
      as (err & log & Hrun & Hsaved & _).
    rewrite Hrun. simpl snd. rewrite Hsaved. intros []. }
  destruct (crawlController_run w req Hzdr Hpaths)
    as (sc' & pre & Hrobots & Hrun).
  destruct (fetchRobots_preserves _ _ _ _ _ Hrobots)
    as (_ & _ & Hio & _ & _ & _ & Hz & _ & _ & _ & debug & -> & Hds & Hdj).
  rewrite Hrun. simpl snd.
  cbn [savedCrawls kickoffJobs].
  rewrite !savedCrawls_app, !kickoffJobs_app.
  rewrite Hds, Hdj. simpl.
  intros [[= <- <-] | []].
  rewrite Hz, Hio. simpl. rewrite effectiveZDR_truthy.
  split; [apply orb_true_iff |]. split; [| split; [reflexivity |]].
  - unfold zdrRejected in Hzdr.
    destruct (truthy (chunk_flag forceZDR (acuc req))),
      (truthy (zeroDataRetention (body req))),
      (truthy (chunk_flag allowZDR (acuc req)));
      simpl in *; auto; discriminate.
  - intros job p [[= <- <-] | []]. simpl.
    now rewrite effectiveZDR_truthy.
Qed.

Lemma saved_crawl_zero_data_retention_witness :
  exists sc,
    savedCrawls (snd (run (crawlController sampleCrawlWorld forcedZdrRequest))) =
      [("3f2a"%string, sc)] /\
    truthy (sc_zeroDataRetention sc) = true /\
    zeroDataRetention (body forcedZdrRequest) = None.
Proof.
  eexists. split; [reflexivity |]. split; [| reflexivity].
  refine (proj2 (proj1 (saved_crawl_zero_data_retention sampleCrawlWorld
                          forcedZdrRequest "3f2a" _ _)) _).
  - left. reflexivity.
  - left. reflexivity.
Defined.

(** X20.  Of every crawl record the controller saves, whatever the
    robots fetch does (it never fails the crawl): the robots file is in
    the record exactly when it could be fetched; the record's delay is
    the crawl delay of the robots file exactly when the file was
    fetched, it gives a delay and the request set none (an absent or
    zero delay), and the request's delay in every other case; the
    record's limit is the clamped one, untouched by the robots block;
    the kickoff job keeps the request's delay; and the debug line
    about robots is logged exactly when the fetch or the delay lookup
    threw. *)
Theorem robots_delay_adoption (w : World) (req : Request) (id : string)
    (sc : StoredCrawl) :
  In (id, sc) (savedCrawls (snd (run (crawlController w req)))) ->
  sc_robots sc =
    match getRobotsTxt w with
    | Returned robots => Some robots
    | Threw _ => None
    end /\
  lg_delay (sc_crawlerOptions sc) =
    match getRobotsTxt w, getRobotsCrawlDelay w with
    | Returned _, Returned (Some d) =>
        match delay (body req) with
        | None => Some d
        | Some user => if user =? 0 then Some d else Some user
        end
    | _, _ => delay (body req)
    end /\
  lg_limit (sc_crawlerOptions sc) =
    Math_min (remainingCreditsOf w req) (Fin (limit (body req))) /\
  (forall job p,
      In (job, p) (kickoffJobs (snd (run (crawlController w req)))) ->
      co_delay (job_crawlerOptions job) = delay (body req)) /\
  (In (LoggerDebug robotsFailed) (snd (run (crawlController w req))) <->
   match getRobotsTxt w, getRobotsCrawlDelay w with
   | Returned _, Returned _ => False
   | _, _ => True
   end).
Proof.
  destruct (zdrRejected req) eqn:Hzdr.
  { destruct (crawlController_refused w req (or_introl Hzdr))
      as (err & log & Hrun & Hsaved & _).
    rewrite Hrun. simpl snd. rewrite Hsaved. intros []. }
  destruct (first_RegExp_error (RegExp_error w) (pathEntries (body req)))
    as [m |] eqn:Hpaths.
  { assert (Hne : first_RegExp_error (RegExp_error w)
                    (pathEntries (body req)) <> None) by congruence.
    destruct (crawlController_refused w req (or_intror Hne))
      as (err & log & Hrun & Hsaved & _).
    rewrite Hrun. simpl snd. rewrite Hsaved. intros []. }
  destruct (crawlController_run w req Hzdr Hpaths)
    as (sc' & pre & Hrobots & Hrun).
  rewrite Hrun. cbn [snd].
  destruct (fetchRobots_preserves _ _ _ _ _ Hrobots)
    as (_ & _ & _ & _ & _ & _ & _ & _ & _ & Hlimit & debug & Hpre & Hds & Hdj).
  rewrite savedCrawls_app, kickoffJobs_app, Hpre, savedCrawls_app,
    kickoffJobs_app, Hds, Hdj.
  simpl. intros [[= <- <-] | []].
  assert (Hjob : forall job p,
             (kickoffJobFor w req sc', 10) = (job, p) \/ False ->
             co_delay (job_crawlerOptions job) = delay (body req)).
  { intros job p [[= <- _] | []]. reflexivity. }
  assert (Hstart : forall x : Effect,
             In x [LoggerDebug ("Crawl " ++ uuidv4 w ++ " starting")%string;
                   LogCrawl (uuidv4 w) (auth_team_id req);
                   LoggerDebug "Determined limit"] ->
             x <> LoggerDebug robotsFailed).
  { intros x [<- | [<- | [<- | []]]]; discriminate. }
  rewrite fetchRobots_run in Hrobots. unfold noUserDelay in Hrobots.
  rewrite Hlimit. split; [| split; [| split; [reflexivity | split; [exact Hjob |]]]].
  - destruct (getRobotsTxt w) as [robots | e].
    + cbv zeta in Hrobots.
      destruct (getRobotsCrawlDelay w) as [[d |] | e];
        [destruct (lg_delay _) as [u |]; [destruct (u =? 0) |] | |];
        injection Hrobots as <- _; reflexivity.
    + injection Hrobots as <- _; reflexivity.
  - destruct (getRobotsTxt w) as [robots | e].
    + cbv zeta in Hrobots.
      destruct (getRobotsCrawlDelay w) as [[d |] | e].
      * change (lg_delay (sc_crawlerOptions (initialStoredCrawl w req)))
          with (delay (body req)) in Hrobots.
        destruct (delay (body req)) as [u |] eqn:Hd; [destruct (u =? 0) |];
          injection Hrobots as <- _; cbn; rewrite ?Hd; reflexivity.
      * injection Hrobots as <- _; reflexivity.
      * injection Hrobots as <- _; reflexivity.
    + injection Hrobots as <- _; reflexivity.
  - assert (Hiff : forall A B C D : Prop,
               ~ A -> ~ B -> ~ C -> ((A \/ B \/ C \/ D) <-> D)) by tauto.
    rewrite Hiff, in_app_iff by discriminate.
    destruct (getRobotsTxt w) as [robots | e].
    + cbv zeta in Hrobots.
      destruct (getRobotsCrawlDelay w) as [[d |] | e];
        [destruct (lg_delay _) as [u |]; [destruct (u =? 0) |] | |];
        injection Hrobots as _ Hlog; rewrite Hpre in Hlog;
        cbn in Hlog; inversion Hlog; subst debug; simpl;
        intuition (try discriminate; auto).
    + injection Hrobots as _ Hlog. rewrite Hpre in Hlog.
      cbn in Hlog. inversion Hlog. subst debug. simpl.
      intuition (try discriminate; auto).
Qed.

Lemma robots_delay_adoption_witness :
  exists sc,
    savedCrawls
      (snd (run (crawlController
                   (robotsWorld (Returned "User-agent: *") (Returned (Some 3)))
                   (sampleCrawlRequest [] None None None)))) =
      [("3f2a"%string, sc)] /\
    delay (body (sampleCrawlRequest [] None None None)) = None /\
    lg_delay (sc_crawlerOptions sc) = Some 3.
Proof.
  eexists. split; [reflexivity |]. split; [reflexivity |].
  refine (proj1 (proj2 (robots_delay_adoption
                          (robotsWorld (Returned "User-agent: *")
                             (Returned (Some 3)))
                          (sampleCrawlRequest [] None None None) "3f2a" _ _))).
  left. reflexivity.
Defined.

End V1CrawlMore.

(* ===================================================================== *)
(** * More on the progress streamer *)
(* ===================================================================== *)

Module CrawlStatusWSMore.
Import CrawlStatusWS CrawlStatusWSSpec.

Lemma loop_stops p s s' :
  loop p s = (s', false) ->
  doneJobIDs s' = doneJobIDs s /\ finished s' = finished s /\
  (events s' = events s \/
   events s' = events s ++ [Close 1000 DoneMessage]).
Proof.
  unfold loop. destruct (finished s) eqn:Hfin;
    [intros [= <-]; split; [| split]; auto |].
  destruct (_ =? _); [| discriminate].
  intros [= <-]. simpl. split; [| split]; auto. unfold close.
  destruct (readyState p <=? 1); [now right | left; now rewrite app_nil_r].
Qed.

Lemma sendDocuments_are_frames p jobs :
  forallb isDocumentFrame (sendDocuments p jobs) = true.
Proof.
  induction jobs as [| j jobs IH]; simpl; [reflexivity |].
  destruct (returnvalue j); [| exact IH].
  rewrite forallb_app, IH. unfold send.
  now destruct (readyState p =? 1).
Qed.

Lemma loop_again_events p s s' :
  loop p s = (s', true) ->
  events s' = events s ++ sendDocuments p (newlyDoneJobs p s).
Proof.
  unfold loop. destruct (finished s); [discriminate |].
  destruct (_ =? _); [discriminate |]. now intros [= <-].
Qed.

(** X22.  What the poll loop of a session puts on the socket is a run
    of document frames followed by at most one closing, the normal one
    with code 1000 and a [done] message: nothing is sent after the
    closing and completion is signalled at most once.  A session
    already marked finished sends nothing. *)
Theorem poll_loop_closes_once_and_last (polls : list Poll) (s : Session) :
  (exists frames closing,
      events (pollLoop polls s) = events s ++ frames ++ closing /\
      forallb isDocumentFrame frames = true /\
      (closing = [] \/ closing = [Close 1000 DoneMessage])) /\
  (finished s = true -> pollLoop polls s = s).
Proof.
  split.
  - revert s. induction polls as [| p rest IH]; intros s; simpl.
    + exists [], []. rewrite app_nil_r. auto.
    + destruct (loop p s) as [s' [|]] eqn:E.
      * destruct (IH s') as (frames & closing & Hev & Hframes & Hclosing).
        exists (sendDocuments p (newlyDoneJobs p s) ++ frames), closing.
        rewrite Hev, (loop_again_events p s s' E), <- !app_assoc.
        split; [reflexivity |]. split; [| exact Hclosing].
        now rewrite forallb_app, sendDocuments_are_frames, Hframes.
      * destruct (loop_stops p s s' E) as (_ & _ & [Hev | Hev]).
        -- exists [], []. rewrite Hev, app_nil_r. auto.
        -- exists [], [Close 1000 DoneMessage]. rewrite Hev. auto.
  - intros Hfin. destruct polls as [| p rest]; [reflexivity |].
    simpl. unfold loop. now rewrite Hfin.
Qed.

(** ** The catch-up *)

Lemma validJobStatuses_ids throttled l :
  map fst (validJobStatuses throttled l) =
  map fst
    (filter (fun x => includesId throttled (fst x) ||
                      match snd x with failed | unknown => false | _ => true end)
       l).
Proof.
  induction l as [| [x st] l IH]; simpl; [reflexivity |].
  destruct (includesId throttled x); simpl; [now rewrite IH |].
  destruct st; simpl; now rewrite IH.
Qed.

Lemma validJobStatuses_every throttled l :
  forallb (fun x => isCompleted (snd x)) (validJobStatuses throttled l) =
  forallb (fun x => negb (includesId throttled (fst x)) &&
                    match snd x with
                    | completed | failed | unknown => true
                    | _ => false
                    end) l.
Proof.
  induction l as [| [x st] l IH]; simpl; [reflexivity |].
  destruct (includesId throttled x); simpl; [reflexivity |].
  destruct st; simpl; try reflexivity; exact IH.
Qed.

Lemma filter_map_length {A B} (f : A -> B) (P : B -> bool) l :
  length (filter P (map f l)) = length (filter (fun x => P (f x)) l).
Proof.
  induction l as [| a l IH]; simpl; [reflexivity |].
  destruct (P (f a)); simpl; now rewrite IH.
Qed.

(** X24.  Only the owner gets a catch-up.  A snapshot of a crawl is put
    on the socket only when the crawl exists and its team is the
    authenticated team of the request.  Otherwise (no such crawl, or a
    crawl of another team) [crawlStatusWS] starts no session: there are
    no session variables for a poll loop, and all it does on the socket
    is one closing with an error message, code 1008 "Job not found"
    when the crawl does not exist and code 3003 "Forbidden" when it is
    another team's, sent when the socket is connecting or open. *)
Theorem catchup_only_for_the_owner (c : Connect) :
  (forall snapshot, In (SendCatchup snapshot) (fst (crawlStatusWS c)) ->
     exists sc, getCrawl c = Some sc /\ team_id sc = auth_team_id c) /\
  ((forall sc, getCrawl c = Some sc -> team_id sc <> auth_team_id c) ->
     snd (crawlStatusWS c) = None /\
     catchups (fst (crawlStatusWS c)) = [] /\
     fst (crawlStatusWS c) =
       if readyState (atConnect c) <=? 1 then
         [match getCrawl c with
          | Some _ => CloseAtStart 3003 (ErrorMessage "Forbidden")
          | None => CloseAtStart 1008 (ErrorMessage "Job not found")
          end]
       else []).
Proof.
  unfold crawlStatusWS. destruct (getCrawl c) as [sc |] eqn:Hsc.
  - destruct (String.eqb (team_id sc) (auth_team_id c)) eqn:Hteam; simpl.
    + apply String.eqb_eq in Hteam. split.
      * intros _ _. now exists sc.
      * intros Hother. now destruct (Hother sc eq_refl).
    + split.
      * intros snapshot.
        destruct (readyState (atConnect c) <=? 1); simpl;
          [intros [H | []]; discriminate | intros []].
      * intros _.
        now destruct (readyState (atConnect c) <=? 1).
  - simpl. split.
    + intros snapshot.
      destruct (readyState (atConnect c) <=? 1); simpl;
        [intros [H | []]; discriminate | intros []].
    + intros _. now destruct (readyState (atConnect c) <=? 1).
Qed.

Lemma catchup_only_for_the_owner_witness :
  snd (crawlStatusWS (sampleConnect "team-2" [])) = None /\
  catchups (fst (crawlStatusWS (sampleConnect "team-2" []))) = [] /\
  fst (crawlStatusWS (sampleConnect "team-2" [])) =
    [CloseAtStart 3003 (ErrorMessage "Forbidden")].
Proof.
  refine (proj2 (catchup_only_for_the_owner (sampleConnect "team-2" [])) _).
  intros sc [= <-]. simpl. discriminate.
Defined.

End CrawlStatusWSMore.

(* ===================================================================== *)
(** * The crawl-status session under interleaving *)
(* ===================================================================== *)

Module CrawlStatusWSControllerSpec.
Import CrawlStatusWS CrawlStatusWSSpec CrawlStatusWSMore
  CrawlStatusWSController.

(** ** Sessions, step by step *)

Lemma session_app steps1 steps2 s :
  session (steps1 ++ steps2) s = session steps2 (session steps1 s).
Proof.
  revert s. induction steps1 as [| st steps1 IH]; intros s; simpl; auto.
Qed.

Lemma framedIn_app steps1 steps2 s :
  framedIn (steps1 ++ steps2) s =
  framedIn steps1 s ++ framedIn steps2 (session steps1 s).
Proof.
  revert s. induction steps1 as [| st steps1 IH]; intros s; simpl; auto.
  now rewrite IH, app_assoc.
Qed.

Lemma documentCalls_app cs1 cs2 :
  documentCalls (cs1 ++ cs2) = documentCalls cs1 ++ documentCalls cs2.
Proof.
  induction cs1 as [| c cs1 IH]; simpl; [reflexivity |].
  destruct c as [[[| |] |] | |]; simpl; now rewrite IH.
Qed.

Lemma documentCalls_Ws evs :
  documentCalls (map Ws evs) = documentFrames evs.
Proof.
  induction evs as [| e evs IH]; simpl; [reflexivity |].
  destruct e as [[| |] |]; simpl; now rewrite IH.
Qed.

Lemma documentCalls_closing ready code msg :
  documentCalls (closing ready code msg) = [].
Proof. unfold closing. now destruct (ready <=? 1). Qed.

(** [map fst (filter ... (map ...))] of [loop] is a plain filter. *)
Lemma newlyDone_filter (f : string -> JobState) l :
  map fst (filter (fun x => isTerminal (snd x)) (map (fun x => (x, f x)) l)) =
  filter (fun x => isTerminal (f x)) l.
Proof.
  induction l as [| x l IH]; simpl; [reflexivity |].
  destruct (isTerminal (f x)); simpl; now rewrite IH.
Qed.

(** The document frames a step adds are those of the jobs it frames. *)
Lemma step_frames st s :
  documentCalls (st_calls (step st s)) =
  documentCalls (st_calls s) ++ flat_map frameData (framedBy st s).
Proof.
  destruct st as [c | ready e id | ready error | p |]; simpl.
  - unfold crawlStatusWS_resumes, framedBy.
    destruct (st_catchup s)
      as [| team | sc | sc | sc jobIDs | sc jobStatuses | stat tot ids
          | stat tot nd dat | stat |];
      simpl; rewrite ?app_nil_r; try reflexivity.
    + destruct (getCrawl c) as [sc |]; simpl;
        [destruct (negb _); simpl |];
        rewrite ?documentCalls_app, ?documentCalls_closing, ?app_nil_r;
        reflexivity.
    + rewrite documentCalls_app.
      destruct (readyState (atConnect c) =? 1); simpl;
        now rewrite app_nil_r.
    + destruct (isScraping stat); simpl;
        rewrite ?documentCalls_app, ?documentCalls_closing, ?app_nil_r;
        reflexivity.
  - unfold crawlStatusWSController_catches, framedBy.
    destruct (st_catchup s); simpl;
      rewrite ?documentCalls_app; simpl;
      rewrite ?documentCalls_closing, ?app_nil_r; reflexivity.
  - unfold crawlStatusWSController_refuses, framedBy.
    destruct (st_catchup s); simpl;
      rewrite ?documentCalls_app, ?documentCalls_closing, ?app_nil_r;
      reflexivity.
  - unfold loop_resumes, framedBy.
    destruct (st_loop s) as [| | | notDone | newlyDone]; simpl;
      rewrite ?app_nil_r; try reflexivity.
    + now destruct (st_finished s).
    + destruct (_ =? _); simpl;
        rewrite ?documentCalls_app, ?documentCalls_closing, ?app_nil_r;
        reflexivity.
    + rewrite documentCalls_app, documentCalls_Ws, sendDocuments_frames.
      destruct (readyState p =? 1); [| reflexivity].
      unfold hasReturnvalue. now rewrite frameData_filter.
  - unfold loop_rejects, framedBy.
    destruct (st_loop s); simpl; now rewrite app_nil_r.
Qed.

Lemma session_document_frames steps s :
  documentCalls (st_calls (session steps s)) =
  documentCalls (st_calls s) ++ flat_map frameData (framedIn steps s).
Proof.
  revert s. induction steps as [| st steps IH]; intros s; simpl.
  - now rewrite app_nil_r.
  - now rewrite IH, step_frames, flat_map_app, app_assoc.
Qed.

(** C9.  At most one document frame per child job and session is what
    [loop] aims at with [doneJobIDs], and it does not hold of every
    session.  The timer of [loop] is armed
    (line 445) before the catch-up assigns [doneJobIDs] (line 447).
    When the store is slow to answer [getDoneJobsOrdered], a first run
    of [loop] completes before the assignment: it frames the jobs it
    finds completed and pushes their ids, and the assignment then
    replaces the list by the one of the store.  A job that the store
    does not list as done is framed again by the next run.  Here, with
    child jobs ["a"] and ["b"] both completed, polls that see them as a
    set and fetch each under its own id, and a store that lists only
    ["a"], the document of job ["b"] is sent twice. *)
Theorem document_frame_sent_twice :
  Forall wellFormedStep raceSteps /\
  documentCalls (st_calls (session raceSteps initial)) =
    ["doc a"; "doc b"; "doc b"] /\
  documentCalls (st_calls (session raceSteps initial)) =
    flat_map frameData (framedIn raceSteps initial) /\
  map id (framedIn raceSteps initial) = ["a"; "b"; "b"] /\
  count_occ string_dec (map id (framedIn raceSteps initial)) "b" = 2%nat /\
  ~ NoDup (map id (framedIn raceSteps initial)).
Proof.
  assert (Hwf : wellFormed racePoll).
  { split.
    - repeat constructor; simpl; intuition discriminate.
    - intros x j [= <-]. reflexivity. }
  split.
  { unfold raceSteps, tick. simpl.
    repeat (apply Forall_cons; [first [exact I | exact Hwf] |]).
    apply Forall_nil. }
  split; [reflexivity |].
  split; [exact (session_document_frames raceSteps initial) |].
  split; [reflexivity |]. split; [reflexivity |].
  intros H. change (NoDup ["a"; "b"; "b"]%string) in H.
  inversion H as [| ? ? _ H']. inversion H' as [| ? ? Hin _].
  apply Hin. now left.
Qed.

(** ** At most once, unless the assignment comes late *)

Lemma framedBy_ids p l :
  wellFormed p ->
  map id (filter hasReturnvalue (definedJobs (map (getJob p) l))) =
  filter (fun x => match getJob p x with
                   | Some j => hasReturnvalue j
                   | None => false
                   end) l.
Proof.
  intros [_ Hid]. induction l as [| x l IH]; simpl; [reflexivity |].
  destruct (getJob p x) as [j |] eqn:E; simpl; [| exact IH].
  destruct (hasReturnvalue j); simpl; [| exact IH].
  now rewrite (Hid x j E), IH.
Qed.

Lemma framedBy_within st s x :
  wellFormedStep st ->
  In x (map id (framedBy st s)) -> In x (pendingIds (st_loop s)).
Proof.
  intros Hwf. unfold framedBy.
  destruct st as [c | ready e id | ready error | p |]; try (intros []);
    destruct (st_loop s) as [| | | notDone | newlyDone]; try (intros []).
  destruct (readyState p =? 1); [| intros []].
  rewrite (framedBy_ids p newlyDone Hwf). intros H.
  now apply filter_In in H.
Qed.

Lemma framedBy_NoDup st s :
  wellFormedStep st -> NoDup (pendingIds (st_loop s)) ->
  NoDup (map id (framedBy st s)).
Proof.
  intros Hwf Hnodup. unfold framedBy.
  destruct st as [c | ready e id | ready error | p |]; try constructor;
    destruct (st_loop s) as [| | | notDone | newlyDone]; try constructor.
  destruct (readyState p =? 1); [| constructor].
  rewrite (framedBy_ids p newlyDone Hwf). now apply NoDup_filter.
Qed.

(** A step that frames nothing leaves the ids framed so far in order,
    unless it is the assignment. *)
Lemma step_keeps st s F :
  wellFormedStep st ->
  framedSoFar s F ->
  (forall c sc, st = CatchupResolves c -> st_catchup s = AwaitDoneJobs sc ->
                F = []) ->
  framedSoFar (step st s) (F ++ map id (framedBy st s)).
Proof.
  intros Hwf (HF & Hdone & Hpend & Hfresh) Hassign.
  destruct st as [c | ready e id | ready error | p |].
  - (* the catch-up resolves *)
    change (framedBy (CatchupResolves c) s) with (@nil Job).
    simpl map. rewrite app_nil_r. simpl step.
    unfold crawlStatusWS_resumes.
    destruct (st_catchup s)
      as [| team | sc | sc | sc jobIDs | sc jobStatuses | stat tot ids
          | stat tot nd dat | stat |] eqn:Hpc;
      try (repeat split; assumption).
    + destruct (getCrawl c) as [sc |]; [destruct (negb _) |];
        repeat split; try assumption; simpl; try constructor;
        intros x [].
    + rewrite (Hassign c sc eq_refl eq_refl) in *.
      repeat split; simpl; try assumption; try constructor; intros x [].
    + destruct (isScraping stat); repeat split; assumption.
  - change (framedBy (CatchupRejects ready e id) s) with (@nil Job).
    simpl map. rewrite app_nil_r. simpl step.
    unfold crawlStatusWSController_catches.
    destruct (st_catchup s); repeat split; assumption.
  - change (framedBy (AuthRefuses ready error) s) with (@nil Job).
    simpl map. rewrite app_nil_r. simpl step.
    unfold crawlStatusWSController_refuses.
    destruct (st_catchup s); repeat split; assumption.
  - (* [loop] resumes *)
    pose proof (framedBy_within (LoopResolves p) s) as Hwithin.
    pose proof (framedBy_NoDup (LoopResolves p) s Hwf Hpend) as Hnodup.
    simpl step. unfold loop_resumes, framedBy in *.
    destruct (st_loop s) as [| | | notDone | newlyDone] eqn:Hloop;
      simpl map in *; rewrite ?app_nil_r; unfold framedSoFar;
      simpl st_loop; simpl st_doneJobIDs; rewrite ?Hloop.
    + repeat split; assumption.
    + destruct (st_finished s); repeat split; simpl; try assumption;
        try constructor; intros x [].
    + destruct (_ =? _); simpl.
      * repeat split; simpl; try assumption; try constructor; intros x [].
      * repeat split; simpl; try assumption.
        -- apply NoDup_filter. exact (proj1 Hwf).
        -- intros x Hx HxF. apply filter_In in Hx as [_ Hx].
           apply negb_true_iff in Hx.
           apply Hdone, includesId_In in HxF. congruence.
    + rewrite newlyDone_filter. repeat split; simpl; try assumption.
      * now apply NoDup_filter.
      * intros x Hx. apply filter_In in Hx as [Hx _]. now apply Hfresh.
    + simpl in Hpend, Hfresh. repeat split; simpl.
      * apply NoDup_app; [exact HF | exact Hnodup |].
        intros x HxF Hx. apply (Hfresh x); [| exact HxF].
        now apply (Hwithin x Hwf).
      * intros x Hx. apply in_app_or in Hx as [Hx | Hx]; apply in_or_app.
        -- left. now apply Hdone.
        -- right. now apply (Hwithin x Hwf).
      * constructor.
      * intros x [].
  - change (framedBy LoopRejects s) with (@nil Job).
    simpl map. rewrite app_nil_r. simpl step. unfold loop_rejects.
    destruct (st_loop s) eqn:Hloop; unfold framedSoFar; simpl;
      rewrite ?Hloop in *; repeat split;
      first [assumption | apply NoDup_nil | intros x []].
Qed.

Lemma session_keeps steps :
  forall s F,
    Forall wellFormedStep steps ->
    framedSoFar s F ->
    (forall pre c post sc,
        steps = pre ++ CatchupResolves c :: post ->
        st_catchup (session pre s) = AwaitDoneJobs sc ->
        F ++ map id (framedIn pre s) = []) ->
    NoDup (F ++ map id (framedIn steps s)) /\
    framedSoFar (session steps s) (F ++ map id (framedIn steps s)).
Proof.
  induction steps as [| st steps IH]; intros s F Hwf Hinv Hassign; simpl.
  - rewrite app_nil_r. split; [exact (proj1 Hinv) | exact Hinv].
  - apply Forall_cons_iff in Hwf as [Hst Hwf].
    rewrite map_app, app_assoc.
    apply IH; [exact Hwf | |].
    + apply step_keeps; [exact Hst | exact Hinv |].
      intros c sc -> Hpc.
      pose proof (Hassign [] c steps sc eq_refl Hpc) as H.
      simpl in H. now rewrite app_nil_r in H.
    + intros pre c post sc -> Hpc.
      pose proof (Hassign (st :: pre) c post sc eq_refl Hpc) as H.
      simpl in H. now rewrite map_app, app_assoc in H.
Qed.

(** Once the catch-up is past its assignment it stays past it. *)
Lemma past_assignment_step st s :
  beforeAssignment (st_catchup s) = false ->
  beforeAssignment (st_catchup (step st s)) = false.
Proof.
  destruct st as [c0 | ready e id | ready error | p |]; simpl;
    unfold crawlStatusWS_resumes, crawlStatusWSController_catches,
      crawlStatusWSController_refuses, loop_resumes, loop_rejects;
    destruct (st_catchup s)
      as [| team | sc | sc | sc jobIDs | sc jobStatuses | stat tot ids
          | stat tot nd dat | stat |] eqn:Hc;
    try discriminate; intros _; simpl; rewrite ?Hc; try reflexivity;
    try (now destruct (isScraping stat));
    destruct (st_loop s); simpl; rewrite ?Hc; try reflexivity;
    try (now destruct (st_finished s); simpl; rewrite Hc);
    now destruct (_ =? _); simpl; rewrite Hc.
Qed.

Lemma past_assignment_stays steps s :
  beforeAssignment (st_catchup s) = false ->
  beforeAssignment (st_catchup (session steps s)) = false.
Proof.
  revert s. induction steps as [| st steps IH]; intros s Hs; [exact Hs |].
  simpl. apply IH. now apply past_assignment_step.
Qed.

(** X23.  In any interleaving of the catch-up and the poll loop, with
    awaits that resolve or reject in any order: if no document frame
    has been sent when the catch-up assigns [doneJobIDs] (in
    particular if the assignment comes before the first run of [loop]
    ends, or never comes), then no child job is framed twice in the
    session, and the document frames sent are exactly those of the
    framed jobs.  The polls are taken to see the child jobs as a set
    and to fetch each job under its own id. *)
Theorem framed_at_most_once_unless_raced (steps : list Step) :
  Forall wellFormedStep steps ->
  (forall pre c post sc,
      steps = pre ++ CatchupResolves c :: post ->
      st_catchup (session pre initial) = AwaitDoneJobs sc ->
      framedIn pre initial = []) ->
  NoDup (map id (framedIn steps initial)) /\
  (forall x,
      (count_occ string_dec (map id (framedIn steps initial)) x <= 1)%nat) /\
  documentCalls (st_calls (session steps initial)) =
    flat_map frameData (framedIn steps initial).
Proof.
  intros Hwf Hassign.
  assert (Hnodup : NoDup (map id (framedIn steps initial))).
  { apply (session_keeps steps initial [] Hwf).
    - repeat split; simpl; try constructor; intros x [].
    - intros pre c post sc Hsteps Hpc. simpl.
      now rewrite (Hassign pre c post sc Hsteps Hpc). }
  split; [exact Hnodup |]. split; [now apply NoDup_count_occ |].
  exact (session_document_frames steps initial).
Qed.

Lemma framed_at_most_once_unless_raced_witness :
  NoDup (map id (framedIn orderlySteps initial)) /\
  documentCalls (st_calls (session orderlySteps initial)) = ["doc b"%string].
Proof.
  assert (Hwf : wellFormed racePoll).
  { split.
    - repeat constructor; simpl; intuition discriminate.
    - intros x j [= <-]. reflexivity. }
  destruct (framed_at_most_once_unless_raced orderlySteps)
    as (Hnodup & _ & Hframes).
  - unfold orderlySteps, tick. simpl.
    repeat (apply Forall_cons; [first [exact I | exact Hwf] |]).
    apply Forall_nil.
  - intros pre c post sc Hsteps Hpc.
    unfold orderlySteps, tick in Hsteps. simpl in Hsteps.
    destruct pre as [| s1 [| s2 [| s3 pre]]].
    + reflexivity.
    + injection Hsteps as <- _. reflexivity.
    + injection Hsteps as <- <- _. reflexivity.
    + exfalso. injection Hsteps as <- <- <- _.
      simpl session in Hpc.
      match type of Hpc with
      | st_catchup (session pre ?s0) = _ =>
          pose proof (past_assignment_stays pre s0 eq_refl) as H
      end.
      rewrite Hpc in H. discriminate.
  - split; [exact Hnodup | exact Hframes].
Defined.

(** ** What a step of one coroutine leaves to the other *)

Lemma loop_step_frame st s :
  isLoopStep st = true ->
  st_catchup (step st s) = st_catchup s /\
  st_finished (step st s) = st_finished s.
Proof.
  destruct st as [c | ready e id | ready error | p |]; try discriminate;
    intros _; simpl; unfold loop_resumes, loop_rejects;
    destruct (st_loop s); simpl; auto.
  - destruct (st_finished s) eqn:E; simpl; auto.
  - destruct (_ =? _); simpl; auto.
Qed.

Lemma catchup_step_frame st s :
  isLoopStep st = false ->
  (st_loop (step st s) = st_loop s \/ st_loop (step st s) = Armed) /\
  (st_doneJobIDs (step st s) = st_doneJobIDs s \/
   exists c sc, st = CatchupResolves c /\ st_catchup s = AwaitDoneJobs sc /\
                st_doneJobIDs (step st s) = getDoneJobsOrdered c) /\
  (st_finished s = true -> st_finished (step st s) = true).
Proof.
  destruct st as [c | ready e id | ready error | p |]; try discriminate;
    intros _; simpl;
    unfold crawlStatusWS_resumes, crawlStatusWSController_catches,
      crawlStatusWSController_refuses;
    destruct (st_catchup s)
      as [| team | sc | sc | sc jobIDs | sc jobStatuses | stat tot ids
          | stat tot nd dat | stat |] eqn:Hpc;
    simpl; auto.
  - destruct (getCrawl c) as [sc |]; [destruct (negb _) |]; simpl; auto.
  - split; [auto |]. split; [| auto]. right. now exists c, sc.
  - destruct (isScraping stat); simpl; auto.
Qed.

Lemma observed_weaken hist hist' s :
  (forall st, In st hist -> In st hist') ->
  observed hist s -> observed hist' s.
Proof.
  intros Hsub. unfold observed.
  destruct (st_loop s); auto; intros H x Hx.
  - destruct (H x Hx) as (p & Hp & Hj). exists p. auto.
  - destruct (H x Hx) as (p & p' & Hp & Hp' & Hj). exists p, p'. auto.
Qed.

Lemma observed_step hist st s :
  observed hist s -> observed (hist ++ [st]) (step st s).
Proof.
  intros Hobs.
  assert (Hkeep : forall s',
             st_loop s' = st_loop s \/ st_loop s' = Armed \/
             st_loop s' = Unarmed ->
             observed (hist ++ [st]) s').
  { intros s' [Hsame | [Harmed | Hunarmed]].
    - apply (observed_weaken hist).
      + intros st0 H. apply in_or_app. now left.
      + unfold observed in *. now rewrite Hsame.
    - unfold observed. now rewrite Harmed.
    - unfold observed. now rewrite Hunarmed. }
  destruct (isLoopStep st) eqn:Hkind.
  - destruct st as [c | ready e id | ready error | p |]; try discriminate.
    + (* [loop] resumes *)
      simpl. unfold loop_resumes.
      destruct (st_loop s) as [| | | notDone | newlyDone] eqn:Hloop.
      * apply Hkeep. now left.
      * destruct (st_finished s); [apply Hkeep; auto |].
        unfold observed. simpl. exact I.
      * destruct (_ =? _); [apply Hkeep; auto |].
        unfold observed. simpl. intros x Hx.
        apply filter_In in Hx as [Hx _]. exists p. split; [| exact Hx].
        apply in_or_app. right. now left.
      * unfold observed. simpl. rewrite newlyDone_filter. intros x Hx.
        apply filter_In in Hx as [Hx Hterm].
        unfold observed in Hobs. rewrite Hloop in Hobs.
        destruct (Hobs x Hx) as (q & Hq & Hj). exists q, p.
        rewrite !in_app_iff. simpl. auto.
      * apply Hkeep. auto.
    + simpl. unfold loop_rejects.
      destruct (st_loop s) eqn:Hloop; apply Hkeep; simpl; auto.
  - apply Hkeep.
    destruct (catchup_step_frame st s Hkind) as [[H | H] _]; auto.
Qed.

Lemma session_snoc steps st s :
  session (steps ++ [st]) s = step st (session steps s).
Proof. now rewrite session_app. Qed.

Lemma pending_observed steps : observed steps (session steps initial).
Proof.
  induction steps as [| st steps IH] using rev_ind; [exact I |].
  rewrite session_snoc. now apply observed_step.
Qed.

(** X21.  In any interleaving, once the catch-up is past its
    assignment of [doneJobIDs] (or has ended without it), the list
    only grows, by appending: what it was stays a prefix of what it
    becomes; every id added was a child job for one of the polls of
    the session and was observed as completed or failed by one of
    them; and [finished], once set, stays set.  Before the assignment
    this does not hold: the assignment replaces the list. *)
Theorem doneJobIDs_grows_after_the_assignment (pre post : list Step) :
  beforeAssignment (st_catchup (session pre initial)) = false ->
  exists added,
    st_doneJobIDs (session (pre ++ post) initial) =
      st_doneJobIDs (session pre initial) ++ added /\
    (forall x, In x added ->
       exists p p',
         In (LoopResolves p) (pre ++ post) /\
         In (LoopResolves p') (pre ++ post) /\
         In x (getCrawlJobs p) /\ isTerminal (getJobState p' x) = true) /\
    (st_finished (session pre initial) = true ->
     st_finished (session (pre ++ post) initial) = true).
Proof.
  intros Hpast.
  induction post as [| st post IH] using rev_ind.
  - exists []. rewrite !app_nil_r. split; [reflexivity |].
    split; [intros x [] | auto].
  - destruct IH as (added & Hdone & Hsrc & Hfin).
    rewrite app_assoc, session_snoc.
    pose proof (pending_observed (pre ++ post)) as Hobs.
    pose proof (past_assignment_stays post (session pre initial) Hpast)
      as Hpast'.
    rewrite <- session_app in Hpast'.
    set (s := session (pre ++ post) initial) in *.
    assert (Hsub : forall x,
               (exists p p',
                   In (LoopResolves p) (pre ++ post) /\
                   In (LoopResolves p') (pre ++ post) /\
                   In x (getCrawlJobs p) /\
                   isTerminal (getJobState p' x) = true) ->
               exists p p',
                 In (LoopResolves p) ((pre ++ post) ++ [st]) /\
                 In (LoopResolves p') ((pre ++ post) ++ [st]) /\
                 In x (getCrawlJobs p) /\
                 isTerminal (getJobState p' x) = true).
    { intros x (p & p' & Hp & Hp' & H). exists p, p'.
      split; [apply in_or_app; now left |].
      split; [apply in_or_app; now left | exact H]. }
    destruct (isLoopStep st) eqn:Hkind.
    + destruct (loop_step_frame st s Hkind) as [_ Hf]. rewrite Hf.
      destruct st as [c | ready e id | ready error | p |]; try discriminate.
      * simpl. unfold loop_resumes.
        destruct (st_loop s) as [| | | notDone | newlyDone] eqn:Hloop;
          try (exists added; simpl; split; [exact Hdone |];
               split; [intros x Hx; apply Hsub; auto | exact Hfin]).
        -- destruct (st_finished s); exists added; simpl;
             (split; [exact Hdone |]);
             (split; [intros x Hx; apply Hsub; auto | exact Hfin]).
        -- destruct (_ =? _); exists added; simpl;
             (split; [exact Hdone |]);
             (split; [intros x Hx; apply Hsub; auto | exact Hfin]).
        -- exists (added ++ newlyDone). simpl.
           split; [now rewrite Hdone, app_assoc |].
           split; [| exact Hfin].
           intros x Hx. apply in_app_or in Hx as [Hx | Hx];
             apply Hsub; [auto |].
           unfold observed in Hobs. rewrite Hloop in Hobs. auto.
      * simpl. unfold loop_rejects.
        destruct (st_loop s); exists added; simpl;
          (split; [exact Hdone |]);
          (split; [intros x Hx; apply Hsub; auto | exact Hfin]).
    + destruct (catchup_step_frame st s Hkind)
        as (_ & [Hsame | (c & sc & _ & Hpc & _)] & Hf).
      * exists added. rewrite Hsame.
        split; [exact Hdone |].
        split; [intros x Hx; apply Hsub; auto | auto].
      * rewrite Hpc in Hpast'. discriminate.
Qed.

Lemma doneJobIDs_grows_after_the_assignment_witness :
  exists added,
    st_doneJobIDs (session orderlySteps initial) = ["a"%string] ++ added.
Proof.
  destruct (doneJobIDs_grows_after_the_assignment
              [CatchupResolves raceConnect; CatchupResolves raceConnect;
               CatchupResolves raceConnect]
              (tick racePoll ++ tick racePoll) eq_refl)
    as (added & Hdone & _).
  exists added. exact Hdone.
Defined.

(** ** The catch-up frame *)

Lemma catchupCalls_app cs1 cs2 :
  catchupCalls (cs1 ++ cs2) = catchupCalls cs1 ++ catchupCalls cs2.
Proof.
  induction cs1 as [| c cs1 IH]; simpl; [reflexivity |].
  destruct c; simpl; now rewrite IH.
Qed.

Lemma catchupCalls_Ws evs : catchupCalls (map Ws evs) = [].
Proof. induction evs; simpl; auto. Qed.

Lemma catchupCalls_closing ready code msg :
  catchupCalls (closing ready code msg) = [].
Proof. unfold closing. now destruct (ready <=? 1). Qed.

Lemma loop_step_catchupCalls st s :
  isLoopStep st = true ->
  catchupCalls (st_calls (step st s)) = catchupCalls (st_calls s).
Proof.
  destruct st as [c | ready e id | ready error | p |]; try discriminate;
    intros _; simpl; unfold loop_resumes, loop_rejects;
    destruct (st_loop s); simpl; auto.
  - now destruct (st_finished s).
  - destruct (_ =? _); simpl; [| reflexivity].
    now rewrite catchupCalls_app, catchupCalls_closing, app_nil_r.
  - now rewrite catchupCalls_app, catchupCalls_Ws, app_nil_r.
Qed.

Lemma fromAnswers_weaken hist hist' status total :
  (forall st, In st hist -> In st hist') ->
  fromAnswers hist status total -> fromAnswers hist' status total.
Proof.
  intros Hsub (c0 & sc & cj & cs & ct & H0 & Hsc & Hj & Hs & Ht & H).
  exists c0, sc, cj, cs, ct. repeat split; auto; apply H.
Qed.

Lemma catchupSound_weaken hist hist' s :
  (forall st, In st hist -> In st hist') ->
  catchupSound hist s -> catchupSound hist' s.
Proof.
  intros Hsub (Hpc & Hnone & Hsent). split; [| split; [exact Hnone |]].
  - destruct (st_catchup s); auto.
    + destruct Hpc as (c0 & H0 & Hsc). exists c0. auto.
    + destruct Hpc as (c0 & H0 & Hsc). exists c0. auto.
    + destruct Hpc as (c0 & cj & H0 & Hsc & Hj & H). exists c0, cj. auto.
    + destruct Hpc as (c0 & cj & cs & H0 & Hsc & Hj & Hs & H).
      exists c0, cj, cs. repeat split; auto.
    + now apply (fromAnswers_weaken hist).
    + now apply (fromAnswers_weaken hist).
  - intros snapshot Hin. destruct (Hsent snapshot Hin) as [Hc Hfrom].
    split; [exact Hc | now apply (fromAnswers_weaken hist)].
Qed.

Lemma catchupSound_step hist st s :
  catchupSound hist s -> catchupSound (hist ++ [st]) (step st s).
Proof.
  intros Hsound.
  assert (Hsub : forall st0, In st0 hist -> In st0 (hist ++ [st])).
  { intros st0 H. apply in_or_app. now left. }
  assert (Hlast : In st (hist ++ [st])).
  { apply in_or_app. right. now left. }
  pose proof (catchupSound_weaken hist (hist ++ [st]) s Hsub Hsound)
    as (Hpc & Hnone & Hsent).
  clear Hsound Hsub.
  destruct (isLoopStep st) eqn:Hkind.
  { destruct (loop_step_frame st s Hkind) as [Hsame _].
    pose proof (loop_step_catchupCalls st s Hkind) as Hcalls.
    unfold catchupSound. rewrite Hsame, Hcalls. auto. }
  destruct st as [c | ready e id | ready error | p |]; try discriminate;
    simpl step.
  - (* the catch-up resolves *)
    unfold crawlStatusWS_resumes, catchupSound.
    destruct (st_catchup s)
      as [| team | sc | sc | sc jobIDs | sc jobStatuses | stat tot ids
          | stat tot nd dat | stat |] eqn:Hcatch; simpl.
    + auto.
    + destruct (getCrawl c) as [sc |] eqn:Hsc;
        [destruct (negb _) |]; simpl;
        rewrite ?catchupCalls_app, ?catchupCalls_closing, ?app_nil_r,
          ?Hnone; simpl;
        (split; [| split; [first [reflexivity | lia] |]]);
        first [exact I | exact Hsent | intros snapshot [] | idtac].
      exists c. auto.
    + refine (conj _ (conj Hnone Hsent)).
      destruct Hpc as (c0 & H0 & Hsc). exists c0. auto.
    + refine (conj _ (conj Hnone Hsent)).
      destruct Hpc as (c0 & H0 & Hsc). exists c0, c. auto.
    + refine (conj _ (conj Hnone Hsent)).
      destruct Hpc as (c0 & cj & H0 & Hsc & Hj & ->).
      exists c0, cj, c. repeat split; auto.
    + refine (conj _ (conj Hnone Hsent)).
      destruct Hpc as (c0 & cj & cs & H0 & Hsc & Hj & Hs & ->).
      exists c0, sc, cj, cs, c. unfold validAtConnect.
      rewrite length_map. repeat split; auto.
    + exact (conj Hpc (conj Hnone Hsent)).
    + rewrite catchupCalls_app, Hnone.
      destruct (readyState (atConnect c) =? 1); simpl.
      * split; [exact I |]. split; [lia |].
        intros snapshot [<- | []]. simpl. auto.
      * split; [exact I |]. split; [lia |]. intros snapshot [].
    + destruct (isScraping stat); simpl;
        rewrite ?catchupCalls_app, ?catchupCalls_closing, ?app_nil_r;
        exact (conj I (conj Hnone Hsent)).
    + rewrite Hcatch. exact (conj I (conj Hnone Hsent)).
  - unfold crawlStatusWSController_catches, catchupSound.
    destruct (st_catchup s) eqn:Hcatch; simpl;
      rewrite ?Hcatch, ?catchupCalls_app; simpl;
      rewrite ?catchupCalls_closing, ?app_nil_r, ?Hnone; simpl;
      (split; [exact I |]);
      (split; [first [lia | exact Hnone] |]);
      first [exact Hsent | intros snapshot []].
  - unfold crawlStatusWSController_refuses, catchupSound.
    destruct (st_catchup s) eqn:Hcatch; simpl;
      rewrite ?Hcatch, ?catchupCalls_app, ?catchupCalls_closing,
        ?app_nil_r, ?Hnone; simpl;
      (split; [first [exact Hpc | exact I] |]);
      (split; [first [reflexivity | lia | exact Hnone] |]);
      first [exact Hsent | intros snapshot []].
Qed.

Lemma catchup_sound steps : catchupSound steps (session steps initial).
Proof.
  induction steps as [| st steps IH] using rev_ind.
  - split; [exact I | split; [reflexivity | intros snapshot []]].
  - rewrite session_snoc. now apply catchupSound_step.
Qed.

(** The status of lines 478 to 483, case by case. *)
Lemma statusOf_cases sc cj cs ct :
  (statusOf sc (validAtConnect cj cs ct) = status_cancelled <->
   truthy (cancelled sc) = true) /\
  (statusOf sc (validAtConnect cj cs ct) = status_completed <->
   truthy (cancelled sc) = false /\
   forall x, In x (getCrawlJobs (atConnect cj)) ->
     includesId (throttledJobs ct) x = false /\
     (getJobState (atConnect cs) x = completed \/
      getJobState (atConnect cs) x = failed \/
      getJobState (atConnect cs) x = unknown)).
Proof.
  assert (Hevery :
    forallb (fun x => isCompleted (snd x)) (validAtConnect cj cs ct) = true <->
    forall x, In x (getCrawlJobs (atConnect cj)) ->
      includesId (throttledJobs ct) x = false /\
      (getJobState (atConnect cs) x = completed \/
       getJobState (atConnect cs) x = failed \/
       getJobState (atConnect cs) x = unknown)).
  { unfold validAtConnect. rewrite validJobStatuses_every, forallb_forall.
    split.
    - intros H x Hx.
      specialize (H (x, getJobState (atConnect cs) x)
                    (in_map (fun x => (x, getJobState (atConnect cs) x)) _ x Hx)).
      simpl in H. apply andb_true_iff in H as [Hth Hst].
      apply negb_true_iff in Hth. split; [exact Hth |].
      destruct (getJobState (atConnect cs) x); auto; discriminate.
    - intros H [x st] Hin. apply in_map_iff in Hin as (y & [= <- <-] & Hy).
      destruct (H y Hy) as [Hth Hst]. simpl. rewrite Hth. simpl.
      destruct Hst as [-> | [-> | ->]]; reflexivity. }
  unfold statusOf. destruct (truthy (cancelled sc)).
  - split; [tauto |]. split; [discriminate | intros [[=] _]].
  - destruct (forallb _ _) eqn:Hall.
    + split; [split; discriminate |].
      split; [intros _; split; [reflexivity | now apply Hevery] | reflexivity].
    + split; [split; discriminate |].
      split; [discriminate |]. intros [_ H]. apply Hevery in H. discriminate.
Qed.

Lemma validAtConnect_length cj cs ct :
  length (validAtConnect cj cs ct) =
  length
    (filter (fun x => includesId (throttledJobs ct) x ||
                      match getJobState (atConnect cs) x with
                      | failed | unknown => false
                      | _ => true
                      end)
       (getCrawlJobs (atConnect cj))).
Proof.
  unfold validAtConnect.
  rewrite <- (length_map fst), validJobStatuses_ids, length_map.
  exact (filter_map_length
           (fun x => (x, getJobState (atConnect cs) x))
           (fun x => includesId (throttledJobs ct) (fst x) ||
                     match snd x with failed | unknown => false | _ => true end)
           (getCrawlJobs (atConnect cj))).
Qed.

(** X25.  Of the catch-up frame, in any interleaving with the poll
    loop and whatever rejects: a session sends at most one; when it
    is sent the crawl was found and every number in it comes from
    answers given to the catch-up.  [total] and [creditsUsed] are both
    the number of child jobs that are in the team's
    concurrency-limited set or whose queue state is neither [failed]
    nor [unknown], hence at most the number of child jobs.  The status
    is [cancelled] exactly when the stored crawl's [cancelled] is
    truthy, and [completed] exactly when it is not and every child job
    is outside the concurrency-limited set and in state [completed],
    [failed] or [unknown] (so also without child jobs, or when all of
    them failed). *)
Theorem catchup_frame_numbers (steps : list Step)
    (snapshot : CrawlStatusResponse) :
  In snapshot (catchupCalls (st_calls (session steps initial))) ->
  catchupCalls (st_calls (session steps initial)) = [snapshot] /\
  creditsUsed snapshot = total snapshot /\
  exists c0 sc cj cs ct,
    In (CatchupResolves c0) steps /\ getCrawl c0 = Some sc /\
    In (CatchupResolves cj) steps /\ In (CatchupResolves cs) steps /\
    In (CatchupResolves ct) steps /\
    total snapshot =
      length
        (filter (fun x => includesId (throttledJobs ct) x ||
                          match getJobState (atConnect cs) x with
                          | failed | unknown => false
                          | _ => true
                          end)
           (getCrawlJobs (atConnect cj))) /\
    (total snapshot <= length (getCrawlJobs (atConnect cj)))%nat /\
    (status snapshot = status_cancelled <-> truthy (cancelled sc) = true) /\
    (status snapshot = status_completed <->
     truthy (cancelled sc) = false /\
     forall x, In x (getCrawlJobs (atConnect cj)) ->
       includesId (throttledJobs ct) x = false /\
       (getJobState (atConnect cs) x = completed \/
        getJobState (atConnect cs) x = failed \/
        getJobState (atConnect cs) x = unknown)).
Proof.
  intros Hin.
  destruct (catchup_sound steps) as (_ & Hcount & Hsent).
  destruct (Hsent snapshot Hin)
    as (Hcredits & c0 & sc & cj & cs & ct & H0 & Hsc & Hj & Hs & Ht
        & Hstatus & Htotal).
  split.
  { assert (Hlen : (length (catchupCalls (st_calls (session steps initial)))
                    <= 1)%nat).
    { destruct (st_catchup (session steps initial)); try exact Hcount;
        rewrite Hcount in Hin; destruct Hin. }
    destruct (catchupCalls (st_calls (session steps initial)))
      as [| a [| b rest]]; [destruct Hin | | simpl in Hlen; lia].
    destruct Hin as [-> | []]. reflexivity. }
  split; [exact Hcredits |].
  exists c0, sc, cj, cs, ct.
  rewrite Htotal, Hstatus, validAtConnect_length.
  repeat (split; [assumption |]).
  split; [reflexivity |]. split; [apply filter_length_le |].
  exact (statusOf_cases sc cj cs ct).
Qed.

Lemma catchup_frame_numbers_witness :
  let steps :=
    raceSteps ++
    [CatchupResolves raceConnect; CatchupResolves raceConnect;
     CatchupResolves raceConnect; CatchupResolves raceConnect;
     CatchupResolves raceConnect] in
  let snapshot :=
    {| status := status_completed;
       total := 2;
       completedCount := 2;
       creditsUsed := 2;
       expiresAt := "2025-01-02T00:00:00.000Z";
       data := [Some "doc a"; Some "doc b"]%string |} in
  catchupCalls (st_calls (session steps initial)) = [snapshot] /\
  length (getDoneJobsOrdered raceConnect) = 1%nat.
Proof.
  cbv zeta. split; [| reflexivity].
  exact (proj1 (catchup_frame_numbers
                  (raceSteps ++
                   [CatchupResolves raceConnect; CatchupResolves raceConnect;
                    CatchupResolves raceConnect; CatchupResolves raceConnect;
                    CatchupResolves raceConnect])
                  {| status := status_completed;
                     total := 2;
                     completedCount := 2;
                     creditsUsed := 2;
                     expiresAt := "2025-01-02T00:00:00.000Z";
                     data := [Some "doc a"; Some "doc b"]%string |}
                  (or_introl eq_refl))).
Defined.

(** ** How a session ends *)

Lemma settled_step st s :
  st_catchup s = Settled ->
  st_catchup (step st s) = Settled /\
  st_finished (step st s) = st_finished s.
Proof.
  intros Hs. destruct (isLoopStep st) eqn:Hkind.
  - destruct (loop_step_frame st s Hkind) as [-> ->]. auto.
  - destruct st as [c | ready e id | ready error | p |]; try discriminate;
      simpl;
      unfold crawlStatusWS_resumes, crawlStatusWSController_catches,
        crawlStatusWSController_refuses;
      rewrite Hs; auto.
Qed.

Lemma settled_stays steps s :
  st_catchup s = Settled ->
  st_catchup (session steps s) = Settled /\
  st_finished (session steps s) = st_finished s.
Proof.
  revert s. induction steps as [| st steps IH]; intros s Hs; [auto |].
  simpl. destruct (settled_step st s Hs) as [Hc Hf].
  destruct (IH (step st s) Hc) as [Hc' Hf']. split; congruence.
Qed.

Lemma settled_catchupCalls steps s :
  st_catchup s = Settled ->
  catchupCalls (st_calls (session steps s)) = catchupCalls (st_calls s).
Proof.
  revert s. induction steps as [| st steps IH]; intros s Hs; [reflexivity |].
  simpl. rewrite (IH _ (proj1 (settled_step st s Hs))).
  destruct (isLoopStep st) eqn:Hkind.
  - now apply loop_step_catchupCalls.
  - destruct st as [c | ready e id | ready error | p |]; try discriminate;
      simpl;
      unfold crawlStatusWS_resumes, crawlStatusWSController_catches,
        crawlStatusWSController_refuses;
      now rewrite Hs.
Qed.

Lemma calls_grow_step st s :
  exists more, st_calls (step st s) = st_calls s ++ more.
Proof.
  destruct st as [c | ready e id | ready error | p |]; simpl;
    unfold crawlStatusWS_resumes, crawlStatusWSController_catches,
      crawlStatusWSController_refuses, loop_resumes, loop_rejects.
  - destruct (st_catchup s)
      as [| team | sc | sc | sc jobIDs | sc jobStatuses | stat tot ids
          | stat tot nd dat | stat |];
      try (destruct (getCrawl c) as [sc |]; [destruct (negb _) |]);
      try (destruct (isScraping stat));
      simpl; first [ now eexists | exists []; now rewrite app_nil_r ].
  - destruct (st_catchup s); simpl;
      first [ now eexists | exists []; now rewrite app_nil_r ].
  - destruct (st_catchup s); simpl;
      first [ now eexists | exists []; now rewrite app_nil_r ].
  - destruct (st_loop s);
      try (destruct (st_finished s)); try (destruct (_ =? _));
      simpl; first [ now eexists | exists []; now rewrite app_nil_r ].
  - destruct (st_loop s); simpl; exists []; now rewrite app_nil_r.
Qed.

Lemma calls_grow steps s :
  exists more, st_calls (session steps s) = st_calls s ++ more.
Proof.
  revert s. induction steps as [| st steps IH]; intros s; simpl.
  - exists []. now rewrite app_nil_r.
  - destruct (IH (step st s)) as (more2 & ->).
    destruct (calls_grow_step st s) as (more1 & ->).
    exists (more1 ++ more2). now rewrite app_assoc.
Qed.

(** [finished] is only ever set as the catch-up ends. *)
Lemma finished_means_settled steps :
  st_finished (session steps initial) = true ->
  st_catchup (session steps initial) = Settled.
Proof.
  induction steps as [| st steps IH] using rev_ind; [discriminate |].
  rewrite session_snoc. set (s := session steps initial) in *.
  destruct (isLoopStep st) eqn:Hkind.
  - destruct (loop_step_frame st s Hkind) as [-> ->]. exact IH.
  - destruct (st_finished s) eqn:Hfin.
    + intros _. exact (proj1 (settled_step st s (IH eq_refl))).
    + destruct st as [c | ready e id | ready error | p |]; try discriminate;
        simpl;
        unfold crawlStatusWS_resumes, crawlStatusWSController_catches,
          crawlStatusWSController_refuses;
        destruct (st_catchup s)
          as [| team | sc | sc | sc jobIDs | sc jobStatuses | stat tot ids
              | stat tot nd dat | stat |];
        try (destruct (getCrawl c) as [sc |]; [destruct (negb _) |]);
        try (destruct (isScraping stat));
        simpl; rewrite ?Hfin; try discriminate; reflexivity.
Qed.

(** X26.  In any interleaving, [finished] is set exactly when the
    awaited send of the catch-up frame resolves with a status other
    than [scraping]: never earlier, never by the poll loop, and never
    when an await of the catch-up rejects.  The same step asks for the
    normal closing (1000, [done]) when the socket is connecting or
    open, and ends the catch-up; [finished] then stays set. *)
Theorem finished_exactly_by_the_catchup (steps : list Step) :
  (st_finished (session steps initial) = true ->
   exists pre c post stat,
     steps = pre ++ CatchupResolves c :: post /\
     st_catchup (session pre initial) = AwaitSend stat /\
     isScraping stat = false) /\
  (forall pre c post stat,
      steps = pre ++ CatchupResolves c :: post ->
      st_catchup (session pre initial) = AwaitSend stat ->
      isScraping stat = false ->
      st_finished (session steps initial) = true /\
      st_catchup (session steps initial) = Settled /\
      (readyState (atConnect c) <= 1 ->
       In (Ws (Close 1000 DoneMessage)) (st_calls (session steps initial)))).
Proof.
  split.
  - induction steps as [| st steps IH] using rev_ind; [discriminate |].
    rewrite session_snoc. set (s := session steps initial) in *.
    destruct (st_finished s) eqn:Hfin.
    + intros _. destruct (IH eq_refl) as (pre & c & post & stat & -> & H).
      exists pre, c, (post ++ [st]), stat.
      split; [now rewrite <- app_assoc | exact H].
    + clear IH. destruct (isLoopStep st) eqn:Hkind.
      * destruct (loop_step_frame st s Hkind) as [_ ->]. congruence.
      * destruct st as [c | ready e id | ready error | p |];
          try discriminate; simpl.
        -- unfold crawlStatusWS_resumes.
           destruct (st_catchup s)
             as [| team | sc | sc | sc jobIDs | sc jobStatuses | stat tot ids
                 | stat tot nd dat | stat |] eqn:Hpc;
             try (destruct (getCrawl c) as [sc |]; [destruct (negb _) |]);
             simpl; try congruence.
           destruct (isScraping stat) eqn:Hscr; simpl; [congruence |].
           intros _. exists steps, c, [], stat. auto.
        -- unfold crawlStatusWSController_catches.
           destruct (st_catchup s); simpl; congruence.
        -- unfold crawlStatusWSController_refuses.
           destruct (st_catchup s); simpl; congruence.
  - intros pre c post stat -> Hpc Hscr.
    rewrite session_app. simpl session.
    set (s := session pre initial) in *.
    assert (Hstep : st_finished (crawlStatusWS_resumes c s) = true /\
                    st_catchup (crawlStatusWS_resumes c s) = Settled /\
                    (readyState (atConnect c) <= 1 ->
                     In (Ws (Close 1000 DoneMessage))
                        (st_calls (crawlStatusWS_resumes c s)))).
    { unfold crawlStatusWS_resumes. rewrite Hpc, Hscr. simpl.
      repeat split. intros Hready. apply in_or_app. right.
      unfold closing. apply Z.leb_le in Hready. rewrite Hready. now left. }
    destruct Hstep as (Hf & Hc & Hclose).
    destruct (settled_stays post _ Hc) as [Hc' Hf'].
    destruct (calls_grow post (crawlStatusWS_resumes c s)) as (more & Hcalls).
    split; [congruence |]. split; [exact Hc' |].
    intros Hready. rewrite Hcalls. apply in_or_app. left. auto.
Qed.

Lemma finished_exactly_by_the_catchup_witness :
  let pre :=
    orderlySteps ++
    [CatchupResolves raceConnect; CatchupResolves raceConnect;
     CatchupResolves raceConnect; CatchupResolves raceConnect;
     CatchupResolves raceConnect] in
  st_catchup (session pre initial) = AwaitSend status_completed /\
  st_finished (session pre initial) = false /\
  st_finished (session (pre ++ [CatchupResolves raceConnect]) initial) = true.
Proof.
  cbv zeta. split; [reflexivity |]. split; [reflexivity |].
  refine (proj1 (proj2 (finished_exactly_by_the_catchup _)
                   (orderlySteps ++
                    [CatchupResolves raceConnect; CatchupResolves raceConnect;
                     CatchupResolves raceConnect; CatchupResolves raceConnect;
                     CatchupResolves raceConnect])
                   raceConnect [] status_completed
                   eq_refl eq_refl eq_refl)).
Defined.

(** X27.  When an await of the catch-up rejects (the store, the queue
    or the socket fails), in any interleaving: the error is captured
    and the socket is asked to close with code 1011 and the message
    carrying the exception id (when it is connecting or open); the
    catch-up is over and sends no catch-up frame afterwards; but
    [finished] is not set, neither then nor later, and the failure
    leaves the timer of [loop] and [doneJobIDs] as they are: a poll
    loop that was armed goes on polling, with [finished] unset. *)
Theorem failed_catchup_leaves_the_loop_running (pre post : list Step)
    (ready : Z) (e : Thrown) (id : string) :
  st_catchup (session pre initial) <> Settled ->
  let s := session (pre ++ CatchupRejects ready e id :: post) initial in
  st_finished s = false /\
  st_catchup s = Settled /\
  In (Captured e) (st_calls s) /\
  (ready <= 1 ->
   In (Ws (Close 1011 (ErrorMessage (unexpectedError id)))) (st_calls s)) /\
  catchupCalls (st_calls s) =
    catchupCalls (st_calls (session pre initial)) /\
  st_loop (session (pre ++ [CatchupRejects ready e id]) initial) =
    st_loop (session pre initial) /\
  st_doneJobIDs (session (pre ++ [CatchupRejects ready e id]) initial) =
    st_doneJobIDs (session pre initial).
Proof.
  intros Hpc. cbv zeta. rewrite session_app, session_snoc. simpl session.
  set (s := session pre initial) in *.
  change (crawlStatusWSController_catches ready e id s)
    with (step (CatchupRejects ready e id) s).
  assert (Hfin : st_finished s = false).
  { destruct (st_finished s) eqn:E; [| reflexivity].
    destruct Hpc. now apply finished_means_settled. }
  assert (Hstep :
    st_finished (step (CatchupRejects ready e id) s) = false /\
    st_catchup (step (CatchupRejects ready e id) s) = Settled /\
    st_calls (step (CatchupRejects ready e id) s) =
      st_calls s ++
      Captured e :: closing ready 1011 (ErrorMessage (unexpectedError id)) /\
    st_loop (step (CatchupRejects ready e id) s) = st_loop s /\
    st_doneJobIDs (step (CatchupRejects ready e id) s) = st_doneJobIDs s).
  { simpl. unfold crawlStatusWSController_catches.
    destruct (st_catchup s); simpl; auto. now destruct Hpc. }
  destruct Hstep as (Hf & Hc & Hcalls & Hloop & Hdone).
  destruct (settled_stays post _ Hc) as [Hc' Hf'].
  destruct (calls_grow post (step (CatchupRejects ready e id) s))
    as (more & Hmore).
  split; [congruence |]. split; [exact Hc' |].
  split; [| split; [| split; [| split]]].
  - rewrite Hmore, Hcalls. apply in_or_app. left.
    apply in_or_app. right. now left.
  - intros Hready. rewrite Hmore, Hcalls. apply in_or_app. left.
    apply in_or_app. right. right. unfold closing.
    apply Z.leb_le in Hready. rewrite Hready. now left.
  - rewrite (settled_catchupCalls post _ Hc), Hcalls, catchupCalls_app.
    simpl. now rewrite catchupCalls_closing, app_nil_r.
  - exact Hloop.
  - exact Hdone.
Qed.

Lemma failed_catchup_leaves_the_loop_running_witness :
  let pre := [CatchupResolves raceConnect; CatchupResolves raceConnect] in
  let failure := ErrorObj false "Connection is closed." in
  let s := session (pre ++ CatchupRejects 1 failure "7d1f" :: tick (pollAt 2))
             initial in
  st_finished s = false /\
  st_loop s = Armed /\
  st_doneJobIDs s = ["a"; "b"]%string /\
  st_calls s =
    [Captured failure;
     Ws (Close 1011 (ErrorMessage (unexpectedError "7d1f")))].
Proof.
  cbv zeta.
  split; [| split; [reflexivity | split; reflexivity]].
  refine (proj1 (failed_catchup_leaves_the_loop_running
                   [CatchupResolves raceConnect; CatchupResolves raceConnect]
                   (tick (pollAt 2)) 1
                   (ErrorObj false "Connection is closed.") "7d1f" _)).
  simpl. discriminate.
Defined.

(** ** Refused sessions *)

Lemma closeCalls_app cs1 cs2 :
  closeCalls (cs1 ++ cs2) = closeCalls cs1 ++ closeCalls cs2.
Proof.
  induction cs1 as [| c cs1 IH]; simpl; [reflexivity |].
  destruct c as [[|] | |]; simpl; now rewrite IH.
Qed.

Lemma closeCalls_closing ready code msg x :
  In x (closeCalls (closing ready code msg)) -> x = (code, msg).
Proof.
  unfold closing. destruct (ready <=? 1); simpl; [| intros []].
  now intros [<- | []].
Qed.

Lemma closeCalls_sendDocuments p jobs :
  closeCalls (map Ws (sendDocuments p jobs)) = [].
Proof.
  induction jobs as [| j jobs IH]; simpl; [reflexivity |].
  destruct (returnvalue j); [| exact IH].
  rewrite map_app, closeCalls_app, IH. unfold send.
  now destruct (readyState p =? 1).
Qed.

(** Once the catch-up is over and no timer is pending, nothing
    happens any more. *)
Lemma dead_session st s :
  st_catchup s = Settled -> st_loop s = Unarmed -> step st s = s.
Proof.
  intros Hc Hl.
  destruct st; simpl;
    unfold crawlStatusWS_resumes, crawlStatusWSController_catches,
      crawlStatusWSController_refuses, loop_resumes, loop_rejects;
    now rewrite ?Hc, ?Hl.
Qed.

Lemma closingsSound_step st s :
  closingsSound s -> closingsSound (step st s).
Proof.
  intros [Hearly [Hrefused | Hclean]].
  { destruct Hrefused as (Hc & Hl & Hrest).
    rewrite (dead_session st s Hc Hl).
    split; [rewrite Hc; discriminate |]. left.
    exact (conj Hc (conj Hl Hrest)). }
  assert (Hdone : forall code msg, ending code msg ->
                                   forall x, x = (code, msg) ->
                                   ending (fst x) (snd x))
    by (intros code msg H x ->; exact H).
  assert (Hold : forall x, In x (closeCalls (st_calls s)) ->
                           ending (fst x) (snd x))
    by (intros [code msg] H; now apply Hclean).
  assert (Hgoal : forall s',
             (beforeTimer (st_catchup s') = true ->
              st_calls s' = [] /\ st_loop s' = Unarmed /\
              st_doneJobIDs s' = [] /\ st_finished s' = false) ->
             (forall x, In x (closeCalls (st_calls s')) ->
                        ending (fst x) (snd x)) ->
             closingsSound s').
  { intros s' H1 H2. split; [exact H1 |]. right.
    intros code msg H. exact (H2 (code, msg) H). }
  destruct st as [c | ready e id | ready error | p |]; simpl.
  - (* the catch-up resolves *)
    unfold crawlStatusWS_resumes.
    destruct (st_catchup s)
      as [| team | sc | sc | sc jobIDs | sc jobStatuses | stat tot ids
          | stat tot nd dat | stat |] eqn:Hpc.
    + apply Hgoal; simpl; auto.
    + destruct (Hearly eq_refl) as (Hcalls & Hloop & Hd & Hf).
      destruct (getCrawl c) as [sc |]; [destruct (negb _) |].
      * unfold closing. destruct (readyState (atConnect c) <=? 1).
        -- split; [discriminate |]. left. unfold refused. simpl.
           rewrite Hcalls. repeat split; auto.
           exists 3003, (ErrorMessage "Forbidden"). split; [| reflexivity].
           right. right. auto.
        -- apply Hgoal; simpl; [discriminate |].
           rewrite Hcalls. intros x [].
      * apply Hgoal; simpl; [discriminate |]. rewrite Hcalls. intros x [].
      * unfold closing. destruct (readyState (atConnect c) <=? 1).
        -- split; [discriminate |]. left. unfold refused. simpl.
           rewrite Hcalls. repeat split; auto.
           exists 1008, (ErrorMessage "Job not found"). split; [| reflexivity].
           right. left. auto.
        -- apply Hgoal; simpl; [discriminate |].
           rewrite Hcalls. intros x [].
    + apply Hgoal; simpl; [discriminate | exact Hold].
    + apply Hgoal; simpl; [discriminate | exact Hold].
    + apply Hgoal; simpl; [discriminate | exact Hold].
    + apply Hgoal; simpl; [discriminate | exact Hold].
    + apply Hgoal; simpl; [discriminate | exact Hold].
    + apply Hgoal; simpl; [discriminate |].
      rewrite closeCalls_app. intros x Hx.
      apply in_app_or in Hx as [Hx | Hx]; [now apply Hold |].
      destruct (readyState (atConnect c) =? 1); destruct Hx.
    + destruct (isScraping stat); apply Hgoal; simpl;
        try discriminate; try exact Hold.
      rewrite closeCalls_app. intros x Hx.
      apply in_app_or in Hx as [Hx | Hx]; [now apply Hold |].
      apply closeCalls_closing in Hx. apply (Hdone 1000 DoneMessage); auto.
      left. auto.
    + apply Hgoal; [rewrite Hpc; discriminate | exact Hold].
  - (* the catch-up rejects *)
    unfold crawlStatusWSController_catches.
    assert (Hnew : forall x,
               In x (closeCalls
                       (st_calls s ++
                        Captured e ::
                        closing ready 1011 (ErrorMessage (unexpectedError id)))) ->
               ending (fst x) (snd x)).
    { intros x Hx. rewrite closeCalls_app in Hx.
      apply in_app_or in Hx as [Hx | Hx]; [now apply Hold |].
      simpl in Hx. apply closeCalls_closing in Hx.
      apply (Hdone 1011 (ErrorMessage (unexpectedError id))); auto.
      right. split; [reflexivity | now exists id]. }
    destruct (st_catchup s) eqn:Hpc;
      first [ apply Hgoal; simpl; [discriminate | exact Hnew]
            | apply Hgoal; [rewrite Hpc; discriminate | exact Hold] ].
  - (* authentication refuses *)
    unfold crawlStatusWSController_refuses.
    destruct (st_catchup s) eqn:Hpc;
      try (apply Hgoal; [rewrite Hpc; first [discriminate | exact Hearly]
                        | exact Hold]).
    destruct (Hearly eq_refl) as (Hcalls & Hloop & Hd & Hf).
    unfold closing. destruct (ready <=? 1).
    + split; [discriminate |]. left. unfold refused. simpl.
      rewrite Hcalls. repeat split; auto.
      exists 3000, (ErrorMessage error). split; [| reflexivity].
      left. split; [reflexivity | now exists error].
    + apply Hgoal; simpl; [discriminate |]. rewrite Hcalls. intros x [].
  - (* [loop] resumes *)
    unfold loop_resumes.
    destruct (st_loop s) as [| | | notDone | newlyDone] eqn:Hloop.
    + apply Hgoal; [| exact Hold].
      intros H. destruct (Hearly H) as (? & ? & ? & ?).
      repeat split; assumption.
    + assert (Hlate : beforeTimer (st_catchup s) = false).
      { destruct (beforeTimer (st_catchup s)) eqn:E; [| reflexivity].
        destruct (Hearly eq_refl) as (_ & H & _). congruence. }
      destruct (st_finished s); apply Hgoal; simpl;
        first [ rewrite Hlate; discriminate | exact Hold ].
    + assert (Hlate : beforeTimer (st_catchup s) = false).
      { destruct (beforeTimer (st_catchup s)) eqn:E; [| reflexivity].
        destruct (Hearly eq_refl) as (_ & H & _). congruence. }
      destruct (_ =? _); apply Hgoal; simpl;
        try (rewrite Hlate; discriminate); try exact Hold.
      rewrite closeCalls_app. intros x Hx.
      apply in_app_or in Hx as [Hx | Hx]; [now apply Hold |].
      apply closeCalls_closing in Hx. apply (Hdone 1000 DoneMessage); auto.
      left. auto.
    + assert (Hlate : beforeTimer (st_catchup s) = false).
      { destruct (beforeTimer (st_catchup s)) eqn:E; [| reflexivity].
        destruct (Hearly eq_refl) as (_ & H & _). congruence. }
      apply Hgoal; simpl; [rewrite Hlate; discriminate | exact Hold].
    + assert (Hlate : beforeTimer (st_catchup s) = false).
      { destruct (beforeTimer (st_catchup s)) eqn:E; [| reflexivity].
        destruct (Hearly eq_refl) as (_ & H & _). congruence. }
      apply Hgoal; simpl; [rewrite Hlate; discriminate |].
      rewrite closeCalls_app, closeCalls_sendDocuments, app_nil_r.
      exact Hold.
  - unfold loop_rejects.
    destruct (st_loop s) eqn:Hloop;
      first [ apply Hgoal; [| exact Hold];
              intros H; destruct (Hearly H) as (? & ? & ? & ?);
              repeat split; assumption
            | apply Hgoal; simpl; [| exact Hold];
              intros H; destruct (Hearly H) as (_ & H' & _); congruence ].
Qed.

Lemma closings_sound steps : closingsSound (session steps initial).
Proof.
  induction steps as [| st steps IH] using rev_ind.
  - split; [intros _; repeat split |]. right. intros code msg [].
  - rewrite session_snoc. now apply closingsSound_step.
Qed.

(** X28.  Of the closings of a session, in any interleaving and
    whatever rejects.  Every closing the session asks for is one of:
    3000 with the error of a failed authentication, 1008 "Job not
    found", 3003 "Forbidden", 1000 with a [done] message, or 1011 with
    the message carrying an exception id.  When it is one of the first
    three, the session was refused before the timer was armed: that
    closing is all the session ever does on the socket, no catch-up or
    document frame is sent, nothing is polled, [doneJobIDs] stays
    empty and [finished] unset, whatever comes after. *)
Theorem refused_session_does_nothing_else (steps : list Step)
    (code : Z) (msg : Message) :
  In (code, msg) (closeCalls (st_calls (session steps initial))) ->
  (refusal code msg \/ ending code msg) /\
  (code = 3000 \/ code = 1008 \/ code = 3003 ->
   st_calls (session steps initial) = [Ws (Close code msg)] /\
   st_catchup (session steps initial) = Settled /\
   st_loop (session steps initial) = Unarmed /\
   st_doneJobIDs (session steps initial) = [] /\
   st_finished (session steps initial) = false /\
   forall more,
     st_calls (session (steps ++ more) initial) = [Ws (Close code msg)]).
Proof.
  intros Hin.
  destruct (closings_sound steps) as [_ [Hrefused | Hclean]].
  - destruct Hrefused as (Hc & Hl & Hd & Hf & code' & msg' & Href & Hcalls).
    rewrite Hcalls in Hin. simpl in Hin. destruct Hin as [[= <- <-] | []].
    split; [now left |]. intros _.
    repeat (split; [assumption |]).
    intros more. rewrite session_app.
    assert (Hdead : forall l s, st_catchup s = Settled ->
                                st_loop s = Unarmed -> session l s = s).
    { induction l as [| st l IH]; intros s Hs1 Hs2; [reflexivity |].
      simpl. rewrite (dead_session st s Hs1 Hs2). now apply IH. }
    now rewrite (Hdead more _ Hc Hl).
  - pose proof (Hclean code msg Hin) as Hend.
    split; [now right |].
    intros Hcode. exfalso.
    destruct Hend as [[-> _] | [-> _]]; destruct Hcode as [H | [H | H]];
      discriminate.
Qed.

Lemma refused_session_does_nothing_else_witness :
  let stranger :=
    {| getCrawl := getCrawl raceConnect;
       auth_team_id := "team-2";
       getDoneJobsOrdered := getDoneJobsOrdered raceConnect;
       atConnect := atConnect raceConnect;
       throttledJobs := [];
       getJobs := getJobs raceConnect;
       getCrawlExpiry := getCrawlExpiry raceConnect |} in
  st_calls (session ([CatchupResolves stranger; CatchupResolves stranger;
                      CatchupResolves stranger] ++ tick racePoll) initial) =
    [Ws (Close 3003 (ErrorMessage "Forbidden"))].
Proof.
  cbv zeta.
  refine (proj1 (proj2 (refused_session_does_nothing_else
                          _ 3003 (ErrorMessage "Forbidden") _) _)).
  - left. reflexivity.
  - right. right. reflexivity.
Defined.

(** ** Sessions without interleaving *)

Lemma unarmed_loop_steps p n s :
  st_loop s = Unarmed -> session (repeat (LoopResolves p) n) s = s.
Proof.
  intros H. induction n as [| n IH]; simpl; [reflexivity |].
  unfold loop_resumes. now rewrite H.
Qed.

(** One uninterrupted run of [loop] in a session is [CrawlStatusWS.loop]
    on the session variables. *)
Lemma tick_is_loop p s :
  st_loop s = Armed ->
  st_doneJobIDs (session (tick p) s) =
    doneJobIDs (fst (loop p (sessionOf s))) /\
  st_finished (session (tick p) s) = st_finished s /\
  st_calls (session (tick p) s) =
    st_calls s ++ map Ws (events (fst (loop p (sessionOf s)))) /\
  st_catchup (session (tick p) s) = st_catchup s /\
  st_loop (session (tick p) s) =
    (if snd (loop p (sessionOf s)) then Armed else Unarmed).
Proof.
  destruct s as [d f cs pc l]. simpl. intros ->.
  unfold tick, loop, sessionOf, session, step, loop_resumes.
  cbn [st_loop st_finished st_doneJobIDs st_calls st_catchup loopAt
       calling assign doneJobIDs finished events fst snd].
  destruct f.
  - cbn. rewrite app_nil_r. repeat split; reflexivity.
  - cbn [st_loop st_finished st_doneJobIDs st_calls st_catchup loopAt
         calling assign doneJobIDs finished events fst snd].
    destruct (_ =? _).
    + cbn [st_loop st_finished st_doneJobIDs st_calls st_catchup loopAt
           calling assign doneJobIDs finished events fst snd app].
      unfold closing, close.
      destruct (readyState p <=? 1); repeat split; reflexivity.
    + cbn [st_loop st_finished st_doneJobIDs st_calls st_catchup loopAt
           calling assign doneJobIDs finished events fst snd app].
      repeat split; reflexivity.
Qed.

Lemma loop_events_from p s evs :
  loop p {| doneJobIDs := doneJobIDs s; finished := finished s;
            events := evs ++ events s |} =
  ({| doneJobIDs := doneJobIDs (fst (loop p s));
      finished := finished (fst (loop p s));
      events := evs ++ events (fst (loop p s)) |},
   snd (loop p s)).
Proof.
  destruct s as [d f e]. unfold loop, newlyDoneJobs, newlyDoneJobIDs,
    notDoneJobIDs. cbn [doneJobIDs finished events].
  destruct f; [reflexivity |].
  destruct (_ =? _); cbn [fst snd doneJobIDs finished events];
    now rewrite app_assoc.
Qed.

Lemma pollLoop_events_from polls s evs :
  pollLoop polls {| doneJobIDs := doneJobIDs s; finished := finished s;
                    events := evs ++ events s |} =
  {| doneJobIDs := doneJobIDs (pollLoop polls s);
     finished := finished (pollLoop polls s);
     events := evs ++ events (pollLoop polls s) |}.
Proof.
  revert s. induction polls as [| p polls IH]; intros s; simpl.
  - reflexivity.
  - rewrite loop_events_from.
    destruct (loop p s) as [s' again]. simpl.
    destruct again; [| reflexivity].
    apply (IH s').
Qed.

Lemma loop_keeps_finished p s : finished (fst (loop p s)) = finished s.
Proof.
  destruct s as [d f e]. unfold loop. cbn [finished doneJobIDs].
  destruct f; [reflexivity |].
  now destruct (_ =? _).
Qed.

(** X29.  With nothing in between (the catch-up suspended or over, no
    await rejecting), the runs of [loop] in a session are
    [CrawlStatusWS.pollLoop] on the session variables: from a session
    whose timer is pending, after one whole run of [loop] per poll,
    [doneJobIDs] and [finished] are those [pollLoop] computes and the
    calls made on the socket are the events of [pollLoop], in order;
    the catch-up is where it was. *)
Theorem uninterrupted_ticks_are_pollLoop (polls : list Poll) (s : State) :
  st_loop s = Armed ->
  st_doneJobIDs (session (flat_map tick polls) s) =
    doneJobIDs (pollLoop polls (sessionOf s)) /\
  st_finished (session (flat_map tick polls) s) =
    finished (pollLoop polls (sessionOf s)) /\
  st_calls (session (flat_map tick polls) s) =
    st_calls s ++ map Ws (events (pollLoop polls (sessionOf s))) /\
  st_catchup (session (flat_map tick polls) s) = st_catchup s.
Proof.
  revert s. induction polls as [| p polls IH]; intros s Harmed.
  - simpl. now rewrite app_nil_r.
  - change (flat_map tick (p :: polls)) with (tick p ++ flat_map tick polls).
    rewrite session_app.
    destruct (tick_is_loop p s Harmed) as (Hd & Hf & Hc & Hpc & Hl).
    remember (session (tick p) s) as s1 eqn:Es1. clear Es1.
    simpl pollLoop.
    pose proof (loop_keeps_finished p (sessionOf s)) as Hfin.
    destruct (loop p (sessionOf s)) as [s' again] eqn:Hloop.
    simpl in Hd, Hc, Hl, Hfin.
    destruct again.
    + destruct (IH _ Hl) as (Hd' & Hf' & Hc' & Hpc').
      assert (Hs' : pollLoop polls s' =
                    {| doneJobIDs :=
                         doneJobIDs (pollLoop polls
                                       (sessionOf s1));
                       finished :=
                         finished (pollLoop polls
                                     (sessionOf s1));
                       events :=
                         events s' ++
                         events (pollLoop polls
                                   (sessionOf s1)) |}).
      { rewrite <- (pollLoop_events_from polls
                      (sessionOf s1) (events s')).
        unfold sessionOf. cbn [doneJobIDs finished events].
        rewrite Hd, Hf, app_nil_r, <- Hfin.
        now destruct s'. }
      rewrite Hs'. cbn [doneJobIDs finished events].
      rewrite Hd', Hf', Hc', Hpc', Hc, Hpc, map_app, app_assoc.
      repeat split; reflexivity.
    + assert (Hstop : session (flat_map tick polls) s1 = s1).
      { clear - Hl. induction polls as [| q polls IH]; [reflexivity |].
        change (flat_map tick (q :: polls))
          with (repeat (LoopResolves q) 4 ++ flat_map tick polls).
        rewrite session_app, unarmed_loop_steps by exact Hl. exact IH. }
      rewrite Hstop, Hd, Hf, Hc, Hpc, Hfin. repeat split; reflexivity.
Qed.

Lemma uninterrupted_ticks_are_pollLoop_witness :
  let s := session [CatchupResolves raceConnect; CatchupResolves raceConnect;
                    CatchupResolves raceConnect] initial in
  st_calls (session (flat_map tick [racePoll; racePoll; racePoll]) s) =
    [Ws (Send (DocumentMessage "doc b")); Ws (Close 1000 DoneMessage)].
Proof.
  cbv zeta.
  refine (eq_trans
            (proj1 (proj2 (proj2
               (uninterrupted_ticks_are_pollLoop
                  [racePoll; racePoll; racePoll] _ _)))) _);
    reflexivity.
Defined.

(** X30.  With no tick in between and every await resolving, the
    catch-up of a session is [CrawlStatusWS.crawlStatusWS]: after its
    nine awaits have resolved with the answers of [c] the catch-up is
    over, the calls made on the socket are the ones [crawlStatusWS]
    gives, and [doneJobIDs], [finished] and the timer are as it leaves
    them: the timer pending when the crawl was found and is the
    team's, never armed otherwise. *)
Theorem uninterrupted_catchup_is_crawlStatusWS (c : Connect) :
  st_calls (session (catchupAlone c) initial) =
    map startCall (fst (crawlStatusWS c)) /\
  st_catchup (session (catchupAlone c) initial) = Settled /\
  match snd (crawlStatusWS c) with
  | Some sess =>
      st_doneJobIDs (session (catchupAlone c) initial) = doneJobIDs sess /\
      st_finished (session (catchupAlone c) initial) = finished sess /\
      st_loop (session (catchupAlone c) initial) = Armed
  | None =>
      st_doneJobIDs (session (catchupAlone c) initial) = [] /\
      st_finished (session (catchupAlone c) initial) = false /\
      st_loop (session (catchupAlone c) initial) = Unarmed
  end.
Proof.
  unfold catchupAlone, crawlStatusWS, statusAtConnect, statusesAtConnect,
    initial.
  cbn -[Z.leb Z.eqb String.eqb closing statusOf].
  destruct (getCrawl c) as [sc |];
    cbn -[Z.leb Z.eqb String.eqb closing statusOf].
  - destruct (negb (team_id sc =? auth_team_id c)%string);
      cbn -[Z.leb Z.eqb String.eqb closing statusOf].
    + unfold closing.
      destruct (readyState (atConnect c) <=? 1); repeat split; reflexivity.
    + unfold statusOf.
      destruct (truthy (cancelled sc)); [| destruct (forallb _ _)];
        cbn -[Z.leb Z.eqb String.eqb closing]; unfold closing;
        destruct (readyState (atConnect c) =? 1),
                 (readyState (atConnect c) <=? 1);
        repeat split; reflexivity.
  - unfold closing.
    destruct (readyState (atConnect c) <=? 1); repeat split; reflexivity.
Qed.

End CrawlStatusWSControllerSpec.
